(** * swagger-annotator: the annotation package, embedded and verified

    The Go package computes, for every exported type declaration of a
    source file, the name a documentation generator should use for it, and
    patches the file so that the line ending the declaration carries the
    directive comment [// @name <prefix><name>].

    The development follows the package top to bottom:
    - byte strings and the few functions of [strings], [bytes] and
      [regexp] the package calls;
    - the part of the [go/ast] syntax tree the package inspects;
    - the analysis passes ([findIgnoredTypes],
      [findSearchResponseInnerTypes], [addAnnotations]) and the name
      generator;
    - the line patcher [applyAnnotations];
    - the file pipeline and the directory walk, over an explicit file
      system state;
    - the properties. *)

From Stdlib Require Import ZArith Ascii String List Lia DecimalString.
From stdpp Require Import base gmap strings list.

Local Open Scope Z_scope.

(** ** Byte strings

    A Go [string] and a [[]byte] are both sequences of bytes; both are
    modelled by [string], whose characters are the 256 byte values. *)

Module Str.

Fixpoint take (n : nat) (s : string) : string :=
  match n, s with
  | S n', String c s' => String c (take n' s')
  | _, _ => ""
  end.

Fixpoint drop (n : nat) (s : string) : string :=
  match n, s with
  | S n', String _ s' => drop n' s'
  | _, _ => s
  end.

(** [strings.HasPrefix]. *)
Fixpoint HasPrefix (s prefix : string) : bool :=
  match prefix, s with
  | "", _ => true
  | String p prefix', String c s' => Ascii.eqb c p && HasPrefix s' prefix'
  | String _ _, "" => false
  end.

(** [strings.HasSuffix]. *)
Definition HasSuffix (s suffix : string) : bool :=
  (String.length suffix <=? String.length s)%nat
  && String.eqb (drop (String.length s - String.length suffix) s) suffix.

(** [strings.TrimPrefix] and [strings.TrimSuffix]. *)
Definition TrimPrefix (s prefix : string) : string :=
  if HasPrefix s prefix then drop (String.length prefix) s else s.

Definition TrimSuffix (s suffix : string) : string :=
  if HasSuffix s suffix
  then take (String.length s - String.length suffix) s
  else s.

(** [strings.Contains]: [substr] occurs in [s] at some offset. *)
Fixpoint Contains (s substr : string) : bool :=
  HasPrefix s substr
  || match s with
     | "" => false
     | String _ s' => Contains s' substr
     end.

(** [strings.Split] and [bytes.Split]; every call of the package passes
    a separator of one byte.  The result is never empty: a text without
    separator is returned as its only element. *)
Fixpoint Split (s : string) (sep : ascii) : list string :=
  match s with
  | "" => [""]
  | String c s' =>
      if Ascii.eqb c sep then "" :: Split s' sep
      else match Split s' sep with
           | h :: t => String c h :: t
           | [] => [String c ""]
           end
  end.

(** [bytes.Join]. *)
Fixpoint Join (parts : list string) (sep : string) : string :=
  match parts with
  | [] => ""
  | [p] => p
  | p :: rest => p +:+ sep +:+ Join rest sep
  end.

(** *** [strings.TrimSpace]

    White space is "as defined by Unicode": a text is read as UTF-8 and
    the runes for which [unicode.IsSpace] holds are removed from both
    ends.  Those runes, with their encodings, are
    - U+0009..U+000D and U+0020, one byte each;
    - U+0085 and U+00A0: [C2 85], [C2 A0];
    - U+1680: [E1 9A 80];
    - U+2000..U+200A, U+2028, U+2029, U+202F: [E2 80 80..8A],
      [E2 80 A8], [E2 80 A9], [E2 80 AF];
    - U+205F: [E2 81 9F];
    - U+3000: [E3 80 80].
    A byte that does not start one of these encodings is the start of a
    rune (possibly the error rune of width one) that is not a space. *)

Definition isAsciiSpace (c : ascii) : bool :=
  match c with
  | "009" | "010" | "011" | "012" | "013" | " " => true
  | _ => false
  end%char.

Definition byte (c : ascii) : nat := nat_of_ascii c.

Definition isSpace2 (c1 c2 : ascii) : bool :=
  ((byte c1 =? 194) && ((byte c2 =? 133) || (byte c2 =? 160)))%nat.

Definition isSpace3 (c1 c2 c3 : ascii) : bool :=
  ((byte c1 =? 225) && (byte c2 =? 154) && (byte c3 =? 128)
   || (byte c1 =? 226) && (byte c2 =? 128)
      && ((128 <=? byte c3) && (byte c3 <=? 138)
          || (byte c3 =? 168) || (byte c3 =? 169) || (byte c3 =? 175))
   || (byte c1 =? 226) && (byte c2 =? 129) && (byte c3 =? 159)
   || (byte c1 =? 227) && (byte c2 =? 128) && (byte c3 =? 128))%nat.

(** [strings.TrimLeftFunc(s, unicode.IsSpace)]. *)
Fixpoint trimLeft (s : list ascii) : list ascii :=
  match s with
  | [] => []
  | c1 :: t1 =>
      if isAsciiSpace c1 then trimLeft t1
      else match t1 with
           | [] => s
           | c2 :: t2 =>
               if isSpace2 c1 c2 then trimLeft t2
               else match t2 with
                    | [] => s
                    | c3 :: t3 =>
                        if isSpace3 c1 c2 c3 then trimLeft t3 else s
                    end
           end
  end.

(** [strings.TrimRightFunc(s, unicode.IsSpace)], on the reversed text:
    the last rune is decoded backwards, so the encodings are met last
    byte first. *)
Fixpoint trimLeftRev (s : list ascii) : list ascii :=
  match s with
  | [] => []
  | c1 :: t1 =>
      if isAsciiSpace c1 then trimLeftRev t1
      else match t1 with
           | [] => s
           | c2 :: t2 =>
               if isSpace2 c2 c1 then trimLeftRev t2
               else match t2 with
                    | [] => s
                    | c3 :: t3 =>
                        if isSpace3 c3 c2 c1 then trimLeftRev t3 else s
                    end
           end
  end.

Definition trimRight (s : list ascii) : list ascii :=
  rev (trimLeftRev (rev s)).

Definition TrimSpace (s : string) : string :=
  string_of_list_ascii (trimRight (trimLeft (list_ascii_of_string s))).

(** *** The marker pattern [//\s*@name\s+\S+]

    In the syntax of Go's [regexp], [\s] is one of tab, newline, form
    feed, carriage return and space (not the vertical tab), and [\S] is
    any other rune.  Every byte of a rune longer than one byte is
    at least 128, so a run of [\S] is a run of bytes outside [\s]. *)

Definition isReSpace (c : ascii) : bool :=
  match c with
  | "009" | "010" | "012" | "013" | " " => true
  | _ => false
  end%char.

Fixpoint dropWhile (p : ascii -> bool) (s : string) : string :=
  match s with
  | "" => ""
  | String c s' => if p c then dropWhile p s' else s
  end.

(** The length of the match of the pattern anchored at the start of
    [s], when there is one.  Every repetition is greedy and what follows
    it cannot start with a byte the repetition accepts, so the match at
    a given start is unique. *)
Definition matchMarkerAt (s : string) : option nat :=
  match s with
  | String "/" (String "/" r) =>
      let r1 := dropWhile isReSpace r in
      if HasPrefix r1 "@name" then
        let r2 := drop 5 r1 in
        let r3 := dropWhile isReSpace r2 in
        let r4 := dropWhile (fun c => negb (isReSpace c)) r3 in
        if (String.length r3 <? String.length r2)%nat
           && (String.length r4 <? String.length r3)%nat
        then Some (String.length s - String.length r4)%nat
        else None
      else None
  | _ => None
  end%char.

(** [nameRegex.FindStringIndex]: the leftmost match, as
    [(start, end)]. *)
Fixpoint FindStringIndex (s : string) : option (nat * nat) :=
  match matchMarkerAt s with
  | Some n => Some (0%nat, n)
  | None =>
      match s with
      | "" => None
      | String _ s' =>
          match FindStringIndex s' with
          | Some (lo, hi) => Some (S lo, S hi)
          | None => None
          end
      end
  end.

End Str.

(** ** Errors

    A Go [error] is modelled by its message; [fmt.Errorf] with [%w]
    builds the message of the wrapping error from the wrapped one. *)

Definition error := string.

Inductive result (A : Type) : Type :=
| Ok (a : A)
| Err (e : error).
Arguments Ok {A} a.
Arguments Err {A} e.

(** ** The syntax tree ([go/ast], as far as the package inspects it) *)

Module ast.

(** A comment: its text, with the comment signs, and the line of its
    first byte ([fset.Position(c.Pos()).Line]). *)
Record Comment := { Text : string; Line : Z }.

Definition CommentGroup := list Comment.

(** Type expressions.  The package looks for an index expression, an
    identifier and a struct type; [OtherExpr] stands for every other
    form (selector, pointer, array, map, function, interface, index list,
    ...). *)
Inductive Expr : Type :=
| Ident (name : string)
| IndexExpr (X Index : Expr)
| StructType
| OtherExpr.

(** A type declaration: [Doc] is [ts.Doc] ([None] for nil), [Name] is
    [ts.Name.Name], [PosLine] and [EndLine] are the lines of [ts.Pos()]
    and [ts.End()] in the file set.  The parser fills [ts.Doc] for a
    specification inside a parenthesised [type ( ... )] group only: the
    doc comment of a declaration that stands on its own belongs to the
    declaration statement, which the package does not read, and [ts.Doc]
    is nil. *)
Record TypeSpec := {
  Doc : option CommentGroup;
  Name : string;
  Type_ : Expr;
  PosLine : Z;
  EndLine : Z
}.

(** A parsed file: [Decls] are its [TypeSpec] nodes in the order
    [ast.Inspect] meets them, [Comments] is [f.Comments].  No other node
    matters to the package.  A type declaration nested in the type
    expression of another one (which takes a function literal inside an
    array length) is not modelled. *)
Record File := {
  Decls : list TypeSpec;
  Comments : list CommentGroup
}.

End ast.

(** ** What the package takes from its host

    The Go libraries and the operating system are not part of the
    package.  Their answers are collected in a record, so that every
    function of the package is a function of the host and of the file
    system state. *)

(** What [filepath.Walk] reports to its callback, in order: an entry with
    its [os.FileInfo], or a failure. *)
Inductive WalkEvent : Type :=
| Visit (path name : string) (isDir : bool)
| Failure (path : string) (err : error).

Record Host := {
  (** [unicode.IsUpper] of the first rune of a text that starts with a
      byte outside ASCII. *)
  unicode_IsUpper : string -> bool;
  (** [parser.ParseFile(fset, filename, src, parser.ParseComments)]. *)
  parser_ParseFile : string -> string -> result ast.File;
  (** [os.ReadFile] failing on a path. *)
  ReadFail : string -> option error;
  (** [os.WriteFile] failing on a path: the error, and how far the call
      got.  [None] stands for a failure of the open, [Some n] for a
      failure after the file was opened and [n] bytes were written. *)
  WriteFail : string -> option (error * option nat);
  (** [os.Getwd] and [os.Getenv]. *)
  os_Getwd : result string;
  os_Getenv : string -> string;
  (** [filepath.Join], [filepath.Rel], [filepath.Base],
      [filepath.Separator] and the visits of [filepath.Walk] from a
      root. *)
  filepath_Join : list string -> string;
  filepath_Rel : string -> string -> result string;
  filepath_Base : string -> string;
  filepath_Separator : ascii;
  filepath_Walk : string -> list WalkEvent
}.

(** ** Constants and records of the package *)

Definition basePath : string := "internal/delivery/http".
Definition projectEnvVar : string := "GITHUB_REPOSITORY".
Definition projectPrefix : string := "omp-".
Definition sourceDirs : list string := ["request"; "response"].

Definition basicTypes : gset string :=
  list_to_set
    ["string"; "int"; "int32"; "int64"; "uint"; "uint32"; "uint64";
     "float32"; "float64"; "bool"; "byte"; "rune"].

Record TypeInfo := {
  Name : string;
  IsGeneric : bool;
  IsAlias : bool;
  InnerType : string;
  GenericBase : string
}.

(** The zero value [TypeInfo{}]. *)
Definition emptyInfo : TypeInfo :=
  {| Name := ""; IsGeneric := false; IsAlias := false;
     InnerType := ""; GenericBase := "" |}.

(** The counters are bounded by the number of lines and files met, so
    the machine integers of the source never wrap. *)
Record ProcessingResult := {
  FilesProcessed : nat;
  AnnotationsAdded : nat;
  AnnotationsReplaced : nat;
  Errors : list error
}.

Definition newResult : ProcessingResult :=
  {| FilesProcessed := 0; AnnotationsAdded := 0;
     AnnotationsReplaced := 0; Errors := [] |}.

Definition AddFile (r : ProcessingResult) : ProcessingResult :=
  {| FilesProcessed := S (FilesProcessed r);
     AnnotationsAdded := AnnotationsAdded r;
     AnnotationsReplaced := AnnotationsReplaced r;
     Errors := Errors r |}.

Definition AddAnnotation (r : ProcessingResult) : ProcessingResult :=
  {| FilesProcessed := FilesProcessed r;
     AnnotationsAdded := S (AnnotationsAdded r);
     AnnotationsReplaced := AnnotationsReplaced r;
     Errors := Errors r |}.

Definition ReplaceAnnotation (r : ProcessingResult) : ProcessingResult :=
  {| FilesProcessed := FilesProcessed r;
     AnnotationsAdded := AnnotationsAdded r;
     AnnotationsReplaced := S (AnnotationsReplaced r);
     Errors := Errors r |}.

Definition AddError (err : error) (r : ProcessingResult) : ProcessingResult :=
  {| FilesProcessed := FilesProcessed r;
     AnnotationsAdded := AnnotationsAdded r;
     AnnotationsReplaced := AnnotationsReplaced r;
     Errors := Errors r ++ [err] |}.

Definition HasErrors (r : ProcessingResult) : bool :=
  (0 <? length (Errors r))%nat.

(** [%d] of [fmt]. *)
Definition showNat (n : nat) : string :=
  NilZero.string_of_uint (Nat.to_uint n).

Definition Summary (r : ProcessingResult) : string :=
  "Processed " +:+ showNat (FilesProcessed r)
  +:+ " files, added " +:+ showNat (AnnotationsAdded r)
  +:+ " annotations, replaced " +:+ showNat (AnnotationsReplaced r)
  +:+ " annotations, " +:+ showNat (length (Errors r)) +:+ " errors".

(** ** Type shapes and names *)

Definition handleIndexExpr (info : TypeInfo) (X Index : ast.Expr)
    (ts : ast.TypeSpec) : TypeInfo :=
  match X with
  | ast.Ident base =>
      let alias := negb (String.eqb (ast.Name ts) base) in
      {| Name := Name info;
         IsGeneric := if alias then IsGeneric info else true;
         IsAlias := if alias then true else IsAlias info;
         InnerType := match Index with
                      | ast.Ident sub => sub
                      | _ => InnerType info
                      end;
         GenericBase := base |}
  | _ => info
  end.

Definition handleIdentType (info : TypeInfo) (ident : string) : TypeInfo :=
  if bool_decide (ident ∈ basicTypes) then emptyInfo
  else {| Name := Name info; IsGeneric := IsGeneric info; IsAlias := true;
          InnerType := InnerType info; GenericBase := GenericBase info |}.

Definition extractTypeInfo (ts : ast.TypeSpec) : TypeInfo :=
  let info := {| Name := ast.Name ts; IsGeneric := false; IsAlias := false;
                 InnerType := ""; GenericBase := "" |} in
  match ast.Type_ ts with
  | ast.IndexExpr X Index => handleIndexExpr info X Index ts
  | ast.Ident ident => handleIdentType info ident
  | ast.StructType => info
  | ast.OtherExpr => emptyInfo
  end.

(** The two suffixes a name loses, in the order of the source. *)
Definition stripSuffixes (name : string) : string :=
  Str.TrimSuffix (Str.TrimSuffix name "Response") "Request".

Definition generateAnnotationNameWithContext (info : TypeInfo)
    (variant : string) (searchResponseInnerTypes : gset string)
    : string * string :=
  if String.eqb (Name info) "" then ("", "")
  else if (IsGeneric info || IsAlias info)
          && String.eqb (GenericBase info) "SearchResponse"
  then
    (Name info +:+ "Res",
     if negb (String.eqb (InnerType info) "") then
       let itemBase := stripSuffixes (InnerType info) in
       if String.eqb variant "response" then itemBase +:+ "ItemRes"
       else itemBase +:+ "ItemReq"
     else "")
  else
    let base := stripSuffixes (Name info) in
    (if bool_decide (Name info ∈ searchResponseInnerTypes) then
       if String.eqb variant "response" then base +:+ "ItemRes"
       else base +:+ "ItemReq"
     else
       if String.eqb variant "response" then base +:+ "Res"
       else base +:+ "Req",
     "").

(** ** The analysis passes

    The maps [ignoredTypes], [searchResponseInnerTypes] and
    [annotatedTypes] of the source only ever hold [true]: they are sets.
    Each pass receives the set it fills and returns it filled. *)

Section passes.

Variable h : Host.

(** [ts.Name.IsExported()]: the first rune is an upper case letter. *)
Definition IsExported (name : string) : bool :=
  match name with
  | "" => false
  | String c _ =>
      if (nat_of_ascii c <? 128)%nat
      then (65 <=? nat_of_ascii c)%nat && (nat_of_ascii c <=? 90)%nat
      else unicode_IsUpper h name
  end.

Definition ignoreMarker : string := "@swagger:ignore".

Definition docHasMarker (ts : ast.TypeSpec) : bool :=
  match ast.Doc ts with
  | Some group =>
      existsb (fun c => Str.Contains (ast.Text c) ignoreMarker) group
  | None => false
  end.

Definition lineHasMarker (lines : list string) (ts : ast.TypeSpec) : bool :=
  (0 <? ast.PosLine ts) && (ast.PosLine ts <=? Z.of_nat (length lines))
  && match lines !! Z.to_nat (ast.PosLine ts - 1) with
     | Some line => Str.Contains line ignoreMarker
     | None => false
     end.

Definition nearHasMarker (f : ast.File) (ts : ast.TypeSpec) : bool :=
  existsb
    (fun group =>
       existsb
         (fun c =>
            Str.Contains (ast.Text c) ignoreMarker
            && (ast.PosLine ts - 1 <=? ast.Line c)
            && (ast.Line c <=? ast.PosLine ts + 1))
         group)
    (ast.Comments f).

(** The three tests of [findIgnoredTypes] on one declaration. *)
Definition isMarked (f : ast.File) (lines : list string)
    (ts : ast.TypeSpec) : bool :=
  docHasMarker ts || lineHasMarker lines ts || nearHasMarker f ts.

Definition findIgnoredTypes (f : ast.File) (lines : list string)
    (ignoredTypes : gset string) : gset string :=
  foldl
    (fun ignored ts =>
       if IsExported (ast.Name ts) && isMarked f lines ts
       then {[ast.Name ts]} ∪ ignored
       else ignored)
    ignoredTypes (ast.Decls f).

(** The test of [findSearchResponseInnerTypes] on the shape of a
    declaration. *)
Definition isSearchWrapper (info : TypeInfo) : bool :=
  (IsGeneric info || IsAlias info)
  && String.eqb (GenericBase info) "SearchResponse"
  && negb (String.eqb (InnerType info) "").

Definition findSearchResponseInnerTypes (f : ast.File)
    (ignoredTypes searchResponseInnerTypes : gset string) : gset string :=
  foldl
    (fun inner ts =>
       if negb (IsExported (ast.Name ts))
          || bool_decide (ast.Name ts ∈ ignoredTypes)
       then inner
       else
         let info := extractTypeInfo ts in
         if isSearchWrapper info then {[InnerType info]} ∪ inner
         else inner)
    searchResponseInnerTypes (ast.Decls f).

(** The plan under construction: [annotations], from line index to
    name, and [annotatedTypes], the names already given. *)
Definition Plan : Type := gmap Z string * gset string.

(** The inner traversal of [addAnnotations]: every declaration named
    [innerType] that is not ignored gets [itemName] on its last line. *)
Definition planItem (f : ast.File) (ignoredTypes : gset string)
    (innerType itemName : string) (p : Plan) : Plan :=
  foldl
    (fun (p : Plan) its =>
       if String.eqb (ast.Name its) innerType
          && negb (bool_decide (ast.Name its ∈ ignoredTypes))
       then (<[ast.EndLine its - 1 := itemName]> p.1, {[itemName]} ∪ p.2)
       else p)
    p (ast.Decls f).

Definition planMain (ts : ast.TypeSpec) (mainName : string) (p : Plan)
    : Plan :=
  if negb (String.eqb mainName "") && negb (bool_decide (mainName ∈ p.2))
  then (<[ast.EndLine ts - 1 := mainName]> p.1, {[mainName]} ∪ p.2)
  else p.

Definition planSecondary (f : ast.File) (ignoredTypes : gset string)
    (info : TypeInfo) (itemName : string) (p : Plan) : Plan :=
  if negb (String.eqb itemName "") && negb (bool_decide (itemName ∈ p.2))
  then
    if negb (String.eqb (InnerType info) "")
    then planItem f ignoredTypes (InnerType info) itemName p
    else p
  else p.

(** The body of the traversal of [addAnnotations] on one declaration. *)
Definition annotateSpec (f : ast.File) (variant : string)
    (ignoredTypes searchResponseInnerTypes : gset string)
    (p : Plan) (ts : ast.TypeSpec) : Plan :=
  if negb (IsExported (ast.Name ts))
     || bool_decide (ast.Name ts ∈ ignoredTypes)
  then p
  else
    let info := extractTypeInfo ts in
    if String.eqb (Name info) "" then p
    else
      let '(mainName, itemName) :=
        generateAnnotationNameWithContext info variant
          searchResponseInnerTypes in
      planSecondary f ignoredTypes info itemName (planMain ts mainName p).

Definition addAnnotations (f : ast.File) (variant : string)
    (ignoredTypes searchResponseInnerTypes : gset string) (p : Plan)
    : Plan :=
  foldl (annotateSpec f variant ignoredTypes searchResponseInnerTypes)
    p (ast.Decls f).

End passes.

(** ** The line patcher *)

(** The directive a line must bear, and the trailing comment holding
    it. *)
Definition expectedDirective (prefix name : string) : string :=
  "@name " +:+ prefix +:+ name.

Definition trailingComment (prefix name : string) : string :=
  " // " +:+ expectedDirective prefix name.

(** What the body of the loop of [applyAnnotations] does to a planned
    line.  The offset [lo] is found in the trimmed line and cuts the line
    itself ([lines[i][:loc[0]]]). *)
Inductive Patch : Type :=
| Keep
| Replace (line : string)
| Append (line : string).

Definition patchLine (line prefix name : string) : Patch :=
  let expected := expectedDirective prefix name in
  let lineStr := Str.TrimSpace line in
  if Str.Contains lineStr expected then Keep
  else match Str.FindStringIndex lineStr with
       | Some (lo, _) =>
           Replace (Str.take lo line +:+ trailingComment prefix name)
       | None => Append (line +:+ trailingComment prefix name)
       end.

(** The body of the loop of [applyAnnotations] at index [i]: the line
    left at [i], the number of lines changed so far and the counters.
    The messages printed for a changed line are not modelled. *)
Definition applyLine (i : Z) (line : string) (annotations : gmap Z string)
    (prefix : string) (annotationsApplied : nat) (result : ProcessingResult)
    : string * nat * ProcessingResult :=
  match annotations !! i with
  | Some name =>
      match patchLine line prefix name with
      | Keep => (line, annotationsApplied, result)
      | Replace line' =>
          (line', S annotationsApplied, ReplaceAnnotation result)
      | Append line' =>
          (line', S annotationsApplied, AddAnnotation result)
      end
  | None => (line, annotationsApplied, result)
  end.

(** The loop of [applyAnnotations] from index [i] on.  [bytes.Split]
    caps the capacity of every line but the last at its length, so that an
    append to one line never writes into the bytes of another: the lines
    are independent values. *)
Fixpoint applyFrom (i : Z) (lines : list string) (annotations : gmap Z string)
    (prefix : string) (annotationsApplied : nat) (result : ProcessingResult)
    : list string * nat * ProcessingResult :=
  match lines with
  | [] => ([], annotationsApplied, result)
  | line :: rest =>
      let '(line', n, r) :=
        applyLine i line annotations prefix annotationsApplied result in
      let '(rest', n', r') :=
        applyFrom (i + 1) rest annotations prefix n r in
      (line' :: rest', n', r')
  end.

Definition applyAnnotations (lines : list string) (annotations : gmap Z string)
    (prefix : string) (result : ProcessingResult)
    : list string * nat * ProcessingResult :=
  applyFrom 0 lines annotations prefix 0%nat result.

(** ** Files *)

(** The file system: the contents of the files by path, and the paths
    [os.WriteFile] has written, oldest first. *)
Record World := {
  files : gmap string string;
  written : list string
}.

Definition newline : ascii := "010"%char.

Section pipeline.

Variable h : Host.

Definition ReadFile (w : World) (path : string) : result string :=
  match ReadFail h path with
  | Some e => Err e
  | None =>
      match files w !! path with
      | Some src => Ok src
      | None => Err ("open " +:+ path +:+ ": no such file or directory")
      end
  end.

(** [os.WriteFile] opens the file with [O_TRUNC], writes the data and
    closes the file.  When the open fails the file is as it was.  When the
    call fails later the file has been emptied and holds the part of the
    data written before the failure, which may be none of it or all of
    it. *)
Definition WriteFile (w : World) (path data : string)
    : World * option error :=
  match WriteFail h path with
  | Some (e, None) => (w, Some e)
  | Some (e, Some n) =>
      ({| files := <[path := Str.take n data]> (files w);
          written := written w ++ [path] |}, Some e)
  | None =>
      ({| files := <[path := data]> (files w);
          written := written w ++ [path] |}, None)
  end.

(** Writing to a [bytes.Buffer] returns no error. *)
Definition writeFile (w : World) (filename : string) (lines : list string)
    : World * option error :=
  match WriteFile w filename (Str.Join lines (String newline "")) with
  | (w', Some e) => (w', Some ("writing to file: " +:+ e))
  | (w', None) => (w', None)
  end.

(** The three passes of [processFile], on fresh sets: the ignored
    names, the inner types and the plan. *)
Definition ignoredOf (f : ast.File) (lines : list string) : gset string :=
  findIgnoredTypes h f lines ∅.

Definition innerTypesOf (f : ast.File) (lines : list string) : gset string :=
  findSearchResponseInnerTypes h f (ignoredOf f lines) ∅.

Definition planOf (f : ast.File) (lines : list string) (variant : string)
    : Plan :=
  addAnnotations h f variant (ignoredOf f lines) (innerTypesOf f lines)
    (∅, ∅).

Definition processFile (filename prefix variant : string)
    (w : World) (result : ProcessingResult)
    : World * ProcessingResult * option error :=
  match ReadFile w filename with
  | Err e => (w, result, Some ("reading file: " +:+ e))
  | Ok src =>
      match parser_ParseFile h filename src with
      | Err e => (w, result, Some ("parsing file: " +:+ e))
      | Ok f =>
          let lines := Str.Split src newline in
          let annotations := (planOf f lines variant).1 in
          let '(lines', annotationsApplied, result') :=
            applyAnnotations lines annotations prefix result in
          if (0 <? annotationsApplied)%nat then
            match writeFile w filename lines' with
            | (w', Some e) => (w', result', Some ("writing file: " +:+ e))
            | (w', None) => (w', result', None)
            end
          else (w, result', None)
      end
  end.

Definition processSourceFile (root path project dir : string)
    (w : World) (result : ProcessingResult)
    : World * ProcessingResult * option error :=
  match filepath_Rel h (filepath_Join h [root; basePath]) path with
  | Err e => (w, result, Some ("resolving relative path: " +:+ e))
  | Ok rel =>
      let parts := Str.Split rel (filepath_Separator h) in
      if (length parts <? 2)%nat then (w, result, None)
      else
        let version := nth 1 parts "" in
        let prefix := project +:+ "." +:+ version +:+ "." in
        processFile path prefix dir w (AddFile result)
  end.

(** [filepath.Walk] with the callback of [processSourceDirectories]:
    the callback returns the error it is given, which ends the walk, and
    nil in every other case. *)
Fixpoint walkDir (root project dir : string) (events : list WalkEvent)
    (w : World) (result : ProcessingResult)
    : World * ProcessingResult * option error :=
  match events with
  | [] => (w, result, None)
  | Failure _ err :: _ => (w, result, Some err)
  | Visit path name isDir :: rest =>
      if isDir || negb (Str.HasSuffix name ".go")
      then walkDir root project dir rest w result
      else
        let '(w', result', err) :=
          processSourceFile root path project dir w result in
        let result'' :=
          match err with
          | Some e => AddError ("processing " +:+ path +:+ ": " +:+ e) result'
          | None => result'
          end in
        walkDir root project dir rest w' result''
  end.

Definition processDir (root project : string)
    (st : World * ProcessingResult) (dir : string)
    : World * ProcessingResult :=
  let fullPath := filepath_Join h [root; basePath; dir] in
  match walkDir root project dir (filepath_Walk h fullPath) st.1 st.2 with
  | (w, result, Some e) =>
      (w, AddError ("walking directory " +:+ fullPath +:+ ": " +:+ e) result)
  | (w, result, None) => (w, result)
  end.

Definition processSourceDirectories (root project : string) (w : World)
    : World * ProcessingResult :=
  foldl (processDir root project) (w, newResult) sourceDirs.

Definition getProjectName (input : string) : string :=
  Str.TrimPrefix input projectPrefix.

Definition getProjectPrefix : string :=
  let fromCwd :=
    match os_Getwd h with
    | Ok cwd => getProjectName (filepath_Base h cwd)
    | Err _ => "project"
    end in
  let repo := os_Getenv h projectEnvVar in
  if String.eqb repo "" then fromCwd
  else match Str.Split repo "/"%char with
       | [_; name] => getProjectName name
       | _ => fromCwd
       end.

(** [Run]: the state of the files afterwards and the error returned,
    if any.  The summary it prints is [Summary] of the result. *)
Definition Run (w : World) : World * option error :=
  let project := getProjectPrefix in
  match os_Getwd h with
  | Err e => (w, Some ("getting working directory: " +:+ e))
  | Ok root =>
      let '(w', result) := processSourceDirectories root project w in
      if HasErrors result
      then (w', Some ("encountered " +:+ showNat (length (Errors result))
                      +:+ " errors during processing"))
      else (w', None)
  end.

End pipeline.

(** ** The command ([main.go])

    [main] reads the mode from its flag, runs [Run] and, in check mode,
    asks [git status --porcelain] whether the working tree is clean.  The
    output of git is what the host answers in a state of the files; the
    error of the command is dropped by the source.  The result is the
    state of the files, the exit code and what is printed on the standard
    error. *)
Definition main (h : Host) (gitStatus : World -> string) (mode : string)
    (w : World) : World * nat * list string :=
  if String.eqb mode "annotate" then
    match Run h w with
    | (w', Some err) =>
        (w', 1%nat, ["annotate failed: " +:+ err +:+ String newline ""])
    | (w', None) => (w', 0%nat, [])
    end
  else if String.eqb mode "check" then
    match Run h w with
    | (w', Some err) =>
        (w', 1%nat, ["check failed: " +:+ err +:+ String newline ""])
    | (w', None) =>
        let out := gitStatus w' in
        if (0 <? String.length out)%nat then
          (w', 2%nat,
           ["annotation check failed: uncommitted changes found"
            +:+ String newline "";
            out +:+ String newline ""])
        else (w', 0%nat, [])
    end
  else (w, 1%nat, ["invalid mode: " +:+ mode +:+ String newline ""]).

(** ** Vocabulary of the properties *)

(** The byte [c] occurs in [s]. *)
Fixpoint hasByte (c : ascii) (s : string) : bool :=
  match s with
  | "" => false
  | String x s' => Ascii.eqb x c || hasByte c s'
  end.

(** A visible ASCII byte: below 128 and not white space.  It is a rune
    of its own and no part of the encoding of a white space rune. *)
Definition solid (c : ascii) : Prop :=
  (Str.byte c < 128)%nat /\ Str.isAsciiSpace c = false.

(** A text starts, or ends, with a visible ASCII byte. *)
Definition startsSolid (s : string) : Prop :=
  exists c s', s = String c s' /\ solid c.

Definition endsSolid (s : string) : Prop :=
  exists s' c, s = s' +:+ String c "" /\ solid c.

(** The line the patcher leaves where [line] stood, for a planned name
    and at an index of a plan. *)
Definition patched (line prefix name : string) : string :=
  match patchLine line prefix name with
  | Keep => line
  | Replace line' | Append line' => line'
  end.

Definition patchedAt (annotations : gmap Z string) (prefix : string)
    (i : Z) (line : string) : string :=
  match annotations !! i with
  | Some name => patched line prefix name
  | None => line
  end.

(** Every entry of the plan is a name that ends with a visible letter, on
    the last line of a declaration that is not ignored. *)
Definition planned (f : ast.File) (ignoredTypes : gset string) (p : Plan)
    : Prop :=
  forall l n,
    p.1 !! l = Some n ->
    endsSolid n
    /\ (exists ts, ts ∈ ast.Decls f /\ (ast.Name ts ∉ ignoredTypes)
                   /\ ast.EndLine ts - 1 = l).

(** The test of [findSearchResponseInnerTypes] on a declaration. *)
Definition contributes (h : Host) (ignoredTypes : gset string)
    (ts : ast.TypeSpec) : bool :=
  IsExported h (ast.Name ts)
  && negb (bool_decide (ast.Name ts ∈ ignoredTypes))
  && isSearchWrapper (extractTypeInfo ts).

(** What the shape analysis reads of a declaration: its name and its
    type expression. *)
Definition shapeOf (ts : ast.TypeSpec) : string * ast.Expr :=
  (ast.Name ts, ast.Type_ ts).

(** The name [name] without its suffix: both suffixes go from a name
    that ends with [RequestResponse], one at most from any other name. *)
Definition withoutSuffix (name : string) : string :=
  if Str.HasSuffix name "RequestResponse"
  then Str.take (String.length name - 15) name
  else if Str.HasSuffix name "Response"
       then Str.take (String.length name - 8) name
       else if Str.HasSuffix name "Request"
            then Str.take (String.length name - 7) name
            else name.

(** Nothing in a file bears the ignore marker: no doc comment of a
    declaration, no line and no comment. *)
Definition markerFree (f : ast.File) (lines : list string) : Prop :=
  (forall ts group c,
      ts ∈ ast.Decls f -> ast.Doc ts = Some group -> c ∈ group ->
      Str.Contains (ast.Text c) ignoreMarker = false)
  /\ (forall line, line ∈ lines -> Str.Contains line ignoreMarker = false)
  /\ (forall group c,
         group ∈ ast.Comments f -> c ∈ group ->
         Str.Contains (ast.Text c) ignoreMarker = false).

(** The item name of a wrapper of inner type [inner]. *)
Definition itemNameOf (variant inner : string) : string :=
  stripSuffixes inner
  +:+ (if String.eqb variant "response" then "ItemRes" else "ItemReq").

(** A declaration the naming pass names: exported, not ignored, and of a
    shape that is not empty. *)
Definition eligible (h : Host) (ignoredTypes : gset string)
    (ts : ast.TypeSpec) : bool :=
  IsExported h (ast.Name ts)
  && negb (bool_decide (ast.Name ts ∈ ignoredTypes))
  && negb (String.eqb (Name (extractTypeInfo ts)) "").

(** The type expressions of an empty shape: a basic type, or a form the
    shape analysis does not look at. *)
Definition excludedShape (ts : ast.TypeSpec) : bool :=
  match ast.Type_ ts with
  | ast.Ident ident => bool_decide (ident ∈ basicTypes)
  | ast.OtherExpr => true
  | _ => false
  end.

(** A visit of the walk that reaches [processSourceFile]: a file whose
    name ends with [.go].  It is counted when it reaches [processFile]. *)
Definition isGoFile (ev : WalkEvent) : bool :=
  match ev with
  | Visit _ name isDir => negb isDir && Str.HasSuffix name ".go"
  | Failure _ _ => false
  end.

(** A path that [processSourceFile] hands on: its path relative to the
    base directory has two segments or more. *)
Definition inLayout (h : Host) (root path : string) : bool :=
  match filepath_Rel h (filepath_Join h [root; basePath]) path with
  | Ok rel => (2 <=? length (Str.Split rel (filepath_Separator h)))%nat
  | Err _ => false
  end.

Definition counted (h : Host) (root : string) (ev : WalkEvent) : bool :=
  match ev with
  | Visit path name isDir => isGoFile ev && inLayout h root path
  | Failure _ _ => false
  end.

(** A comment bears the ignore marker within one line of [line]. *)
Definition markerNear (f : ast.File) (line : Z) : Prop :=
  exists group c,
    group ∈ ast.Comments f /\ c ∈ group
    /\ Str.Contains (ast.Text c) ignoreMarker = true
    /\ line - 1 <= ast.Line c <= line + 1.

(** Where an entry of the plan comes from.  [fromMain]: the name is the
    primary name of a declaration the naming pass names, which ends on the
    line.  [fromItem]: the name is the secondary name of a search response
    wrapper the naming pass names, and the line ends a declaration that
    bears the name of the inner type of the wrapper and is not ignored. *)
Definition fromMain (h : Host) (f : ast.File) (variant : string)
    (ignoredTypes inner : gset string) (l : Z) (n : string) : Prop :=
  exists ts,
    ts ∈ ast.Decls f /\ eligible h ignoredTypes ts = true
    /\ n = (generateAnnotationNameWithContext (extractTypeInfo ts)
              variant inner).1
    /\ ast.EndLine ts - 1 = l.

Definition fromItem (h : Host) (f : ast.File) (variant : string)
    (ignoredTypes inner : gset string) (l : Z) (n : string) : Prop :=
  exists wrapper its,
    wrapper ∈ ast.Decls f /\ eligible h ignoredTypes wrapper = true
    /\ isSearchWrapper (extractTypeInfo wrapper) = true
    /\ n = (generateAnnotationNameWithContext (extractTypeInfo wrapper)
              variant inner).2
    /\ its ∈ ast.Decls f
    /\ ast.Name its = InnerType (extractTypeInfo wrapper)
    /\ (ast.Name its ∉ ignoredTypes)
    /\ ast.EndLine its - 1 = l.

(** Every name of the plan is recorded as given, and no name stands on
    two lines. *)
Definition givenOnce (p : Plan) : Prop :=
  (forall l n, p.1 !! l = Some n -> n ∈ p.2)
  /\ (forall l1 l2 n, p.1 !! l1 = Some n -> p.1 !! l2 = Some n -> l1 = l2).

(** The visits of a walk up to its first failure: the ones the callback
    of [processSourceDirectories] sees before the walk ends. *)
Fixpoint untilFailure (events : list WalkEvent) : list WalkEvent :=
  match events with
  | Visit path name isDir :: rest => Visit path name isDir :: untilFailure rest
  | _ => []
  end.

(** The paths of the visits of a list. *)
Definition pathsOf (events : list WalkEvent) : list string :=
  omap (fun ev => match ev with
                  | Visit path _ _ => Some path
                  | Failure _ _ => None
                  end) events.

(** The files a walk hands to [processFile]: the counted visits up to
    the first failure. *)
Definition processedFiles (h : Host) (root : string)
    (events : list WalkEvent) : list string :=
  pathsOf (List.filter (counted h root) (untilFailure events)).

(** The state of the files [w'] comes from [w] by overwriting files of
    [paths] that were there: every other file is as it was, no file has
    appeared or disappeared, and the writes recorded since are writes to
    [paths]. *)
Definition rewrites (paths : list string) (w w' : World) : Prop :=
  (forall path, path ∉ paths -> files w' !! path = files w !! path)
  /\ (forall path, is_Some (files w' !! path) <-> is_Some (files w !! path))
  /\ exists ws, written w' = written w ++ ws /\ Forall (fun p => p ∈ paths) ws.

(** The ignore marker stands in [ts.Doc], the doc comment of the type
    specification itself (there is none for a declaration that stands on
    its own), or on the line of the declared name. *)
Definition markerInDoc (ts : ast.TypeSpec) : Prop :=
  exists group c,
    ast.Doc ts = Some group /\ c ∈ group
    /\ Str.Contains (ast.Text c) ignoreMarker = true.

Definition markerOnLine (lines : list string) (ts : ast.TypeSpec) : Prop :=
  exists line,
    0 < ast.PosLine ts
    /\ lines !! Z.to_nat (ast.PosLine ts - 1) = Some line
    /\ Str.Contains line ignoreMarker = true.

(** ** A sample host and sample files

    Concrete inputs on which the definitions above are run.  The syntax
    trees are the ones [go/parser] builds for the texts next to them: the
    doc comment of an ungrouped declaration belongs to the declaration
    statement, so [ts.Doc] is nil, and [ts.Pos()] is the position of the
    declared name. *)

Module Sample.

Definition nl : string := String newline "".

Definition structSpec (name : string) (pos end_ : Z) : ast.TypeSpec :=
  {| ast.Doc := None; ast.Name := name; ast.Type_ := ast.StructType;
     ast.PosLine := pos; ast.EndLine := end_ |}.

Definition lineComment (text : string) (line : Z) : ast.CommentGroup :=
  [{| ast.Text := text; ast.Line := line |}].

(** A stale directive followed by the ignore marker closes [Foo]; the
    comment is two lines below the name of [Foo] and one line above the
    name of [Bar]. *)
Definition staleText : string :=
  "package response" +:+ nl +:+
  nl +:+
  "type Foo struct {" +:+ nl +:+
  "	A int" +:+ nl +:+
  "} // @name old.v1.Foo @swagger:ignore" +:+ nl +:+
  "type Bar struct {" +:+ nl +:+
  "	B int" +:+ nl +:+
  "}" +:+ nl.

Definition staleFile : ast.File :=
  {| ast.Decls := [structSpec "Foo" 3 5; structSpec "Bar" 6 8];
     ast.Comments :=
       [lineComment "// @name old.v1.Foo @swagger:ignore" 5] |}.

(** The same file once the directive of [Foo] is replaced. *)
Definition fooText : string :=
  "package response" +:+ nl +:+
  nl +:+
  "type Foo struct {" +:+ nl +:+
  "	A int" +:+ nl +:+
  "}  // @name proj.v1.FooRes" +:+ nl +:+
  "type Bar struct {" +:+ nl +:+
  "	B int" +:+ nl +:+
  "}" +:+ nl.

Definition fooFile : ast.File :=
  {| ast.Decls := [structSpec "Foo" 3 5; structSpec "Bar" 6 8];
     ast.Comments := [lineComment "// @name proj.v1.FooRes" 5] |}.

(** And once [Bar] has its directive too. *)
Definition fooBarText : string :=
  "package response" +:+ nl +:+
  nl +:+
  "type Foo struct {" +:+ nl +:+
  "	A int" +:+ nl +:+
  "}  // @name proj.v1.FooRes" +:+ nl +:+
  "type Bar struct {" +:+ nl +:+
  "	B int" +:+ nl +:+
  "} // @name proj.v1.BarRes" +:+ nl.

Definition fooBarFile : ast.File :=
  {| ast.Decls := [structSpec "Foo" 3 5; structSpec "Bar" 6 8];
     ast.Comments := [lineComment "// @name proj.v1.FooRes" 5;
                      lineComment "// @name proj.v1.BarRes" 8] |}.

(** A search response wrapper and its item. *)
Definition wrapperSpec (name inner : string) (line : Z) : ast.TypeSpec :=
  {| ast.Doc := None; ast.Name := name;
     ast.Type_ := ast.IndexExpr (ast.Ident "SearchResponse") (ast.Ident inner);
     ast.PosLine := line; ast.EndLine := line |}.

Definition widgetText : string :=
  "package response" +:+ nl +:+
  nl +:+
  "type WidgetResponse struct {" +:+ nl +:+
  "	ID int" +:+ nl +:+
  "}" +:+ nl +:+
  nl +:+
  "type WidgetList SearchResponse[WidgetResponse]" +:+ nl.

Definition widgetFile : ast.File :=
  {| ast.Decls := [structSpec "WidgetResponse" 3 5;
                   wrapperSpec "WidgetList" "WidgetResponse" 7];
     ast.Comments := [] |}.

(** The item bears the ignore marker, the wrapper does not. *)
Definition ignoredItemText : string :=
  "package response" +:+ nl +:+
  nl +:+
  "type WidgetResponse struct{} // @swagger:ignore" +:+ nl +:+
  nl +:+
  "type WidgetList SearchResponse[WidgetResponse]" +:+ nl.

Definition ignoredItemFile : ast.File :=
  {| ast.Decls := [structSpec "WidgetResponse" 3 3;
                   wrapperSpec "WidgetList" "WidgetResponse" 5];
     ast.Comments := [lineComment "// @swagger:ignore" 3] |}.

(** The marker opens the doc comment of a declaration that stands on its
    own: the comment belongs to the declaration statement, [ts.Doc] is
    nil, and the marker lies two lines above the name. *)
Definition docMarkedText : string :=
  "package response" +:+ nl +:+
  nl +:+
  "// @swagger:ignore" +:+ nl +:+
  "// Foo is kept out of the documentation." +:+ nl +:+
  "type Foo struct {" +:+ nl +:+
  "	A int" +:+ nl +:+
  "}" +:+ nl.

Definition docMarkedFile : ast.File :=
  {| ast.Decls := [structSpec "Foo" 5 7];
     ast.Comments :=
       [[{| ast.Text := "// @swagger:ignore"; ast.Line := 3 |};
         {| ast.Text := "// Foo is kept out of the documentation.";
            ast.Line := 4 |}]] |}.



(** The sample file with the wrapper moved in front of its item. *)
Definition widgetAboveText : string :=
  "package response" +:+ nl +:+
  nl +:+
  "type WidgetList SearchResponse[WidgetResponse]" +:+ nl +:+
  nl +:+
  "type WidgetResponse struct {" +:+ nl +:+
  "	ID int" +:+ nl +:+
  "}" +:+ nl.

Definition widgetAboveFile : ast.File :=
  {| ast.Decls := [wrapperSpec "WidgetList" "WidgetResponse" 3;
                   structSpec "WidgetResponse" 5 7];
     ast.Comments := [] |}.

(** A wrapper below a declaration whose closing brace bears the marker,
    and the same file with the wrapper moved above that declaration. *)
Definition listBelowText : string :=
  "package response" +:+ nl +:+
  nl +:+
  "type Foo struct {" +:+ nl +:+
  "	A int" +:+ nl +:+
  "} // @swagger:ignore" +:+ nl +:+
  "type List SearchResponse[Item]" +:+ nl +:+
  "type Item struct{}" +:+ nl.

Definition listBelowFile : ast.File :=
  {| ast.Decls := [structSpec "Foo" 3 5; wrapperSpec "List" "Item" 6;
                   structSpec "Item" 7 7];
     ast.Comments := [lineComment "// @swagger:ignore" 5] |}.

Definition listAboveText : string :=
  "package response" +:+ nl +:+
  nl +:+
  "type List SearchResponse[Item]" +:+ nl +:+
  "type Foo struct {" +:+ nl +:+
  "	A int" +:+ nl +:+
  "} // @swagger:ignore" +:+ nl +:+
  "type Item struct{}" +:+ nl.

Definition listAboveFile : ast.File :=
  {| ast.Decls := [wrapperSpec "List" "Item" 3; structSpec "Foo" 4 6;
                   structSpec "Item" 7 7];
     ast.Comments := [lineComment "// @swagger:ignore" 6] |}.

(** The parser on the sample texts; any other text is rejected. *)
Definition parse (filename src : string) : result ast.File :=
  if String.eqb src staleText then Ok staleFile
  else if String.eqb src fooText then Ok fooFile
  else if String.eqb src fooBarText then Ok fooBarFile
  else if String.eqb src widgetText then Ok widgetFile
  else if String.eqb src ignoredItemText then Ok ignoredItemFile
  else Err (filename +:+ ": syntax error").

Definition root : string := "/work/omp-proj".
Definition base : string := "/work/omp-proj/internal/delivery/http".
Definition requestDir : string := base +:+ "/request".
Definition responseDir : string := base +:+ "/response".
Definition fooPath : string := responseDir +:+ "/v1/foo.go".
Definition brokenPath : string := responseDir +:+ "/v1/broken.go".
Definition flatPath : string := responseDir +:+ "/widget.go".

(** A working directory with one version folder under [response],
    holding a file that does not parse and a file that does, a file
    directly under [response], and an empty [request]. *)
Definition walk (dir : string) : list WalkEvent :=
  if String.eqb dir requestDir then [Visit requestDir "request" true]
  else if String.eqb dir responseDir then
    [Visit responseDir "response" true;
     Visit (responseDir +:+ "/v1") "v1" true;
     Visit brokenPath "broken.go" false;
     Visit fooPath "foo.go" false;
     Visit flatPath "widget.go" false]
  else [Failure dir ("lstat " +:+ dir +:+ ": no such file or directory")].

Definition host : Host :=
  {| unicode_IsUpper := fun _ => false;
     parser_ParseFile := parse;
     ReadFail := fun _ => None;
     WriteFail := fun _ => None;
     os_Getwd := Ok root;
     os_Getenv := fun _ => "";
     filepath_Join := fun parts => Str.Join parts "/";
     filepath_Rel := fun b path =>
              if Str.HasPrefix path (b +:+ "/")
              then Ok (Str.drop (String.length b + 1) path)
              else Err "Rel: can't make path relative";
     filepath_Base := fun path => List.last (Str.Split path "/"%char) "";
     filepath_Separator := "/"%char;
     filepath_Walk := walk |}.

Definition world (files : list (string * string)) : World :=
  {| files := list_to_map files; written := [] |}.

(** The world once [text] is written to [path]. *)
Definition rewritten (w : World) (path text : string) : World :=
  {| files := <[path := text]> (files w);
     written := written w ++ [path] |}.

Definition staleWorld : World := world [(fooPath, staleText)].
Definition fooWorld : World := world [(fooPath, fooText)].
Definition fooBarWorld : World := world [(fooPath, fooBarText)].
Definition treeWorld : World :=
  world [(brokenPath, "package"); (fooPath, fooBarText);
         (flatPath, widgetText)].

End Sample.

(** ** More sample files *)

Module Sample2.

(** The example of the README: the marker follows the closing brace of
    a declaration of three lines. *)
Definition namerText : string :=
  "package response" +:+ Sample.nl +:+
  Sample.nl +:+
  "type VehiclePricingSearchNamer struct {" +:+ Sample.nl +:+
  "	ns schema.Namer" +:+ Sample.nl +:+
  "} // @swagger:ignore" +:+ Sample.nl.

Definition namerFile : ast.File :=
  {| ast.Decls := [Sample.structSpec "VehiclePricingSearchNamer" 3 5];
     ast.Comments := [Sample.lineComment "// @swagger:ignore" 5] |}.

(** An alias of a basic type next to a payload. *)
Definition aliasSpec (name ident : string) (line : Z) : ast.TypeSpec :=
  {| ast.Doc := None; ast.Name := name; ast.Type_ := ast.Ident ident;
     ast.PosLine := line; ast.EndLine := line |}.

Definition aliasText : string :=
  "package request" +:+ Sample.nl +:+
  Sample.nl +:+
  "type ID string" +:+ Sample.nl +:+
  Sample.nl +:+
  "type CreateRequest struct {" +:+ Sample.nl +:+
  "	ID ID" +:+ Sample.nl +:+
  "}" +:+ Sample.nl.

Definition aliasFile : ast.File :=
  {| ast.Decls := [aliasSpec "ID" "string" 3;
                   Sample.structSpec "CreateRequest" 5 7];
     ast.Comments := [] |}.

(** A host whose repository variable is set. *)
Definition ciHost : Host :=
  {| unicode_IsUpper := unicode_IsUpper Sample.host;
     parser_ParseFile := parser_ParseFile Sample.host;
     ReadFail := ReadFail Sample.host;
     WriteFail := WriteFail Sample.host;
     os_Getwd := os_Getwd Sample.host;
     os_Getenv := fun name =>
                    if String.eqb name "GITHUB_REPOSITORY"
                    then "welblaud/omp-rental" else "";
     filepath_Join := filepath_Join Sample.host;
     filepath_Rel := filepath_Rel Sample.host;
     filepath_Base := filepath_Base Sample.host;
     filepath_Separator := filepath_Separator Sample.host;
     filepath_Walk := filepath_Walk Sample.host |}.

(** A walk of [response] that fails after the first file. *)
Definition failingWalk : list WalkEvent :=
  [Visit Sample.responseDir "response" true;
   Visit (Sample.responseDir +:+ "/v1") "v1" true;
   Visit Sample.fooPath "foo.go" false;
   Failure (Sample.responseDir +:+ "/v2")
     ("open " +:+ Sample.responseDir +:+ "/v2: permission denied");
   Visit Sample.flatPath "widget.go" false].

Definition failingHost : Host :=
  {| unicode_IsUpper := unicode_IsUpper Sample.host;
     parser_ParseFile := parser_ParseFile Sample.host;
     ReadFail := ReadFail Sample.host;
     WriteFail := WriteFail Sample.host;
     os_Getwd := os_Getwd Sample.host;
     os_Getenv := os_Getenv Sample.host;
     filepath_Join := filepath_Join Sample.host;
     filepath_Rel := filepath_Rel Sample.host;
     filepath_Base := filepath_Base Sample.host;
     filepath_Separator := filepath_Separator Sample.host;
     filepath_Walk := fun dir =>
                        if String.eqb dir Sample.responseDir
                        then failingWalk else Sample.walk dir |}.

(** A host on which the write of [widget.go] stops after sixteen bytes,
    the disk being full. *)
Definition fullDiskHost : Host :=
  {| unicode_IsUpper := unicode_IsUpper Sample.host;
     parser_ParseFile := parser_ParseFile Sample.host;
     ReadFail := ReadFail Sample.host;
     WriteFail := fun path =>
                    if String.eqb path Sample.flatPath
                    then Some ("write " +:+ path
                               +:+ ": no space left on device", Some 16%nat)
                    else None;
     os_Getwd := os_Getwd Sample.host;
     os_Getenv := os_Getenv Sample.host;
     filepath_Join := filepath_Join Sample.host;
     filepath_Rel := filepath_Rel Sample.host;
     filepath_Base := filepath_Base Sample.host;
     filepath_Separator := filepath_Separator Sample.host;
     filepath_Walk := filepath_Walk Sample.host |}.

End Sample2.

(** * Properties *)

(** ** Byte strings *)

Module StrFacts.
Import Str.

Lemma app_cons c a b : String c a +:+ b = String c (a +:+ b).
Proof. reflexivity. Qed.

Lemma app_nil_l b : "" +:+ b = b.
Proof. reflexivity. Qed.

Lemma app_nil_r a : a +:+ "" = a.
Proof. induction a as [|c a IH]; [done|]. by rewrite app_cons, IH. Qed.

Lemma app_assoc a b c : (a +:+ b) +:+ c = a +:+ b +:+ c.
Proof. induction a as [|x a IH]; [done|]. by rewrite !app_cons, IH. Qed.

Lemma length_app a b :
  String.length (a +:+ b) = (String.length a + String.length b)%nat.
Proof. induction a as [|x a IH]; [done|]. rewrite app_cons. simpl. by rewrite IH. Qed.

Lemma to_list_app a b :
  list_ascii_of_string (a +:+ b)
  = list_ascii_of_string a ++ list_ascii_of_string b.
Proof. induction a as [|x a IH]; [done|]. rewrite app_cons. simpl. by rewrite IH. Qed.

Lemma of_list_app l k :
  string_of_list_ascii (l ++ k)
  = string_of_list_ascii l +:+ string_of_list_ascii k.
Proof. induction l as [|x l IH]; [done|]. simpl. by rewrite IH. Qed.

Lemma take_app a b : take (String.length a) (a +:+ b) = a.
Proof. induction a as [|x a IH]; [by destruct b|]. rewrite app_cons. simpl. by rewrite IH. Qed.

Lemma drop_app a b : drop (String.length a) (a +:+ b) = b.
Proof. induction a as [|x a IH]; [done|]. rewrite app_cons. simpl. by rewrite IH. Qed.

Lemma take_drop n s : take n s +:+ drop n s = s.
Proof.
  revert s. induction n as [|n IH]; intros [|c s]; try done.
  simpl. by rewrite app_cons, IH.
Qed.

Lemma length_take n s : (n <= String.length s)%nat -> String.length (take n s) = n.
Proof.
  revert s. induction n as [|n IH]; intros [|c s] Hn; simpl in *; try done; try lia.
  rewrite IH; lia.
Qed.

Lemma HasPrefix_app p s : HasPrefix (p +:+ s) p = true.
Proof.
  induction p as [|c p IH]; [by destruct s|].
  rewrite app_cons. simpl. by rewrite Ascii.eqb_refl, IH.
Qed.

Lemma HasPrefix_inv s p : HasPrefix s p = true -> exists r, s = p +:+ r.
Proof.
  revert s. induction p as [|c p IH]; intros s H.
  - by exists s.
  - destruct s as [|d s]; [done|]. simpl in H.
    apply andb_true_iff in H as [Hc Hp]. apply Ascii.eqb_eq in Hc as ->.
    destruct (IH _ Hp) as [r ->]. by exists r.
Qed.

Lemma Contains_cons x s b :
  Contains (String x s) b = HasPrefix (String x s) b || Contains s b.
Proof. reflexivity. Qed.

Lemma Contains_HasPrefix s b : HasPrefix s b = true -> Contains s b = true.
Proof. intros H. destruct s; unfold Contains; fold Contains; by rewrite H. Qed.

Lemma Contains_app a b c : Contains (a +:+ b +:+ c) b = true.
Proof.
  induction a as [|x a IH].
  - rewrite app_nil_l. apply Contains_HasPrefix, HasPrefix_app.
  - rewrite app_cons, Contains_cons, IH. apply orb_true_r.
Qed.

Lemma Contains_inv s b : Contains s b = true -> exists a c, s = a +:+ b +:+ c.
Proof.
  induction s as [|x s IH]; intros H.
  - simpl in H. rewrite orb_false_r in H. destruct b; [|done]. by exists "", "".
  - rewrite Contains_cons in H. apply orb_true_iff in H as [H|H].
    + apply HasPrefix_inv in H as [r Hr]. exists "", r. by rewrite app_nil_l.
    + destruct (IH H) as (a & c & ->). exists (String x a), c. by rewrite app_cons.
Qed.

(** A suffix test succeeds exactly on the texts that end with the
    suffix. *)
Lemma HasSuffix_app a suf : HasSuffix (a +:+ suf) suf = true.
Proof.
  unfold HasSuffix. rewrite length_app.
  replace (String.length a + String.length suf - String.length suf)%nat
    with (String.length a) by lia.
  rewrite drop_app, String.eqb_refl, andb_true_r. apply Nat.leb_le. lia.
Qed.

Lemma HasSuffix_inv s suf : HasSuffix s suf = true -> exists a, s = a +:+ suf.
Proof.
  unfold HasSuffix. intros [Hlen Heq]%andb_true_iff.
  apply String.eqb_eq in Heq.
  exists (take (String.length s - String.length suf) s).
  rewrite <- Heq at 2. by rewrite take_drop.
Qed.

Lemma TrimSuffix_app a suf : TrimSuffix (a +:+ suf) suf = a.
Proof.
  unfold TrimSuffix. rewrite HasSuffix_app, length_app.
  replace (String.length a + String.length suf - String.length suf)%nat
    with (String.length a) by lia.
  apply take_app.
Qed.

Lemma app_inv_tail a b c : a +:+ c = b +:+ c -> a = b.
Proof.
  intros H.
  assert (Hl : list_ascii_of_string a ++ list_ascii_of_string c
               = list_ascii_of_string b ++ list_ascii_of_string c)
    by (by rewrite <- !to_list_app, H).
  apply app_inv_tail in Hl.
  by rewrite <- (string_of_list_ascii_of_string a),
       <- (string_of_list_ascii_of_string b), Hl.
Qed.

(** *** Trimming keeps what lies between two visible ASCII bytes

    A byte below 128 that is not white space is a rune of its own and
    is not part of the encoding of a white space rune; trimming stops
    at it, from either end. *)

Ltac bool_cases :=
  repeat match goal with
         | |- context [Nat.eqb ?a ?b] => destruct (Nat.eqb_spec a b); try lia
         | |- context [Nat.leb ?a ?b] => destruct (Nat.leb_spec a b); try lia
         end; try reflexivity.

Lemma isSpace2_solid_1 c1 c2 : solid c1 -> isSpace2 c1 c2 = false.
Proof. intros [H _]. unfold isSpace2. bool_cases. Qed.

Lemma isSpace2_solid_2 c1 c2 : solid c2 -> isSpace2 c1 c2 = false.
Proof. intros [H _]. unfold isSpace2. bool_cases. Qed.

Lemma isSpace3_solid_1 c1 c2 c3 : solid c1 -> isSpace3 c1 c2 c3 = false.
Proof. intros [H _]. unfold isSpace3. bool_cases. Qed.

Lemma isSpace3_solid_2 c1 c2 c3 : solid c2 -> isSpace3 c1 c2 c3 = false.
Proof. intros [H _]. unfold isSpace3. bool_cases. Qed.

Lemma isSpace3_solid_3 c1 c2 c3 : solid c3 -> isSpace3 c1 c2 c3 = false.
Proof. intros [H _]. unfold isSpace3. bool_cases. Qed.

Lemma trimLeft_solid c r : solid c -> trimLeft (c :: r) = c :: r.
Proof.
  intros Hc. simpl. destruct Hc as [Hb Hs]. rewrite Hs.
  destruct r as [|c2 [|c3 r]]; try done.
  - by rewrite isSpace2_solid_1.
  - rewrite isSpace2_solid_1, ?isSpace3_solid_1; done.
Qed.

Lemma trimLeft_keep n : forall a c r,
  (length a <= n)%nat -> solid c ->
  exists a', trimLeft (a ++ c :: r) = a' ++ c :: r.
Proof.
  induction n as [|n IH]; intros a c r Hlen Hc.
  - destruct a; [|simpl in Hlen; lia]. exists [].
    by apply trimLeft_solid.
  - destruct a as [|c1 a].
    { apply (IH [] c r); [simpl; lia|done]. }
    simpl in Hlen. simpl.
    destruct (isAsciiSpace c1).
    { apply IH; [lia|done]. }
    destruct a as [|c2 a]; simpl.
    { rewrite isSpace2_solid_2 by done.
      destruct r as [|c3 r]; [by exists [c1]|].
      rewrite isSpace3_solid_2 by done. by exists [c1]. }
    destruct (isSpace2 c1 c2).
    { simpl in Hlen. apply IH; [lia|done]. }
    destruct a as [|c3 a]; simpl.
    { rewrite isSpace3_solid_3 by done. by exists [c1; c2]. }
    destruct (isSpace3 c1 c2 c3).
    { simpl in Hlen. apply IH; [lia|done]. }
    by exists (c1 :: c2 :: c3 :: a).
Qed.

Lemma trimLeftRev_solid c r : solid c -> trimLeftRev (c :: r) = c :: r.
Proof.
  intros Hc. simpl. destruct Hc as [Hb Hs]. rewrite Hs.
  destruct r as [|c2 [|c3 r]]; try done.
  - by rewrite isSpace2_solid_2.
  - rewrite isSpace2_solid_2, ?isSpace3_solid_3; done.
Qed.

Lemma trimLeftRev_keep n : forall a c r,
  (length a <= n)%nat -> solid c ->
  exists a', trimLeftRev (a ++ c :: r) = a' ++ c :: r.
Proof.
  induction n as [|n IH]; intros a c r Hlen Hc.
  - destruct a; [|simpl in Hlen; lia]. exists [].
    by apply trimLeftRev_solid.
  - destruct a as [|c1 a].
    { apply (IH [] c r); [simpl; lia|done]. }
    simpl in Hlen. simpl.
    destruct (isAsciiSpace c1).
    { apply IH; [lia|done]. }
    destruct a as [|c2 a]; simpl.
    { rewrite isSpace2_solid_1 by done.
      destruct r as [|c3 r]; [by exists [c1]|].
      rewrite isSpace3_solid_2 by done. by exists [c1]. }
    destruct (isSpace2 c2 c1).
    { simpl in Hlen. apply IH; [lia|done]. }
    destruct a as [|c3 a]; simpl.
    { rewrite isSpace3_solid_1 by done. by exists [c1; c2]. }
    destruct (isSpace3 c3 c2 c1).
    { simpl in Hlen. apply IH; [lia|done]. }
    by exists (c1 :: c2 :: c3 :: a).
Qed.

Lemma trimRight_keep a c b :
  solid c -> exists b', trimRight (a ++ c :: b) = a ++ c :: b'.
Proof.
  intros Hc. unfold trimRight.
  rewrite rev_app_distr. simpl. rewrite <- List.app_assoc. simpl.
  destruct (trimLeftRev_keep _ (rev b) c (rev a) (le_n _) Hc) as [b' ->].
  exists (rev b').
  rewrite rev_app_distr. simpl. rewrite rev_involutive, <- List.app_assoc.
  reflexivity.
Qed.

Lemma TrimSpace_keeps a c m d b :
  solid c -> solid d ->
  exists a' b',
    TrimSpace (a +:+ String c (m +:+ String d b))
    = a' +:+ String c (m +:+ String d b').
Proof.
  intros Hc Hd. unfold TrimSpace.
  rewrite to_list_app. simpl. rewrite to_list_app. simpl.
  destruct (trimLeft_keep _ (list_ascii_of_string a) c
              (list_ascii_of_string m ++ d :: list_ascii_of_string b)
              (le_n _) Hc) as [a' ->].
  replace (a' ++ c :: list_ascii_of_string m ++ d :: list_ascii_of_string b)
    with ((a' ++ c :: list_ascii_of_string m) ++ d :: list_ascii_of_string b)
    by (by rewrite <- List.app_assoc).
  destruct (trimRight_keep (a' ++ c :: list_ascii_of_string m) d
              (list_ascii_of_string b) Hd) as [b' ->].
  exists (string_of_list_ascii a'), (string_of_list_ascii b').
  rewrite <- List.app_assoc. simpl.
  rewrite of_list_app. simpl. rewrite of_list_app. simpl.
  by rewrite string_of_list_ascii_of_string.
Qed.

Lemma endsSolid_app a b : endsSolid b -> endsSolid (a +:+ b).
Proof.
  intros (s' & c & -> & Hc). exists (a +:+ s'), c.
  by rewrite app_assoc.
Qed.

(** Trimming a line does not hide a text that starts and ends with a
    visible ASCII byte. *)
Lemma Contains_TrimSpace a c m b :
  solid c -> endsSolid (String c m) ->
  Contains (TrimSpace (a +:+ String c m +:+ b)) (String c m) = true.
Proof.
  intros Hc (s' & d & Heq & Hd).
  destruct s' as [|c' s'].
  - (* a single byte *)
    rewrite app_nil_l in Heq. injection Heq as -> ->.
    rewrite app_cons, app_nil_l.
    unfold TrimSpace. rewrite to_list_app. simpl.
    destruct (trimLeft_keep _ (list_ascii_of_string a) d
                (list_ascii_of_string b) (le_n _) Hd) as [a' ->].
    destruct (trimRight_keep a' d (list_ascii_of_string b) Hd) as [b' ->].
    rewrite of_list_app. simpl.
    apply (Contains_app _ (String d "") (string_of_list_ascii b')).
  - rewrite app_cons in Heq. injection Heq as -> ->.
    rewrite app_cons, app_assoc, app_cons, app_nil_l.
    destruct (TrimSpace_keeps a c' s' d b Hc Hd) as (a' & b' & ->).
    replace (a' +:+ String c' (s' +:+ String d b'))
      with (a' +:+ String c' (s' +:+ String d "") +:+ b').
    + apply Contains_app.
    + by rewrite app_cons, app_assoc.
Qed.

(** *** Trimming and matching stay within the text *)

Lemma length_to_list s : length (list_ascii_of_string s) = String.length s.
Proof. induction s as [|c s IH]; [done|]. simpl. by rewrite IH. Qed.

Lemma length_of_list l : String.length (string_of_list_ascii l) = length l.
Proof. induction l as [|c l IH]; [done|]. simpl. by rewrite IH. Qed.

Lemma trimLeft_length n : forall s,
  (length s <= n)%nat -> (length (trimLeft s) <= length s)%nat.
Proof.
  induction n as [|n IH]; intros s Hs.
  - destruct s; [done|simpl in Hs; lia].
  - destruct s as [|c1 [|c2 [|c3 t3]]]; simpl in *; try lia.
    + destruct (isAsciiSpace c1); simpl; lia.
    + destruct (isAsciiSpace c1).
      { destruct (isAsciiSpace c2); simpl; lia. }
      destruct (isSpace2 c1 c2); simpl; lia.
    + destruct (isAsciiSpace c1).
      { pose proof (IH (c2 :: c3 :: t3)) as H. simpl in H.
        specialize (H ltac:(lia)). lia. }
      destruct (isSpace2 c1 c2).
      { pose proof (IH (c3 :: t3)) as H. simpl in H.
        specialize (H ltac:(lia)). lia. }
      destruct (isSpace3 c1 c2 c3); [|simpl; lia].
      pose proof (IH t3 ltac:(lia)). lia.
Qed.

Lemma trimLeftRev_length n : forall s,
  (length s <= n)%nat -> (length (trimLeftRev s) <= length s)%nat.
Proof.
  induction n as [|n IH]; intros s Hs.
  - destruct s; [done|simpl in Hs; lia].
  - destruct s as [|c1 [|c2 [|c3 t3]]]; simpl in *; try lia.
    + destruct (isAsciiSpace c1); simpl; lia.
    + destruct (isAsciiSpace c1).
      { destruct (isAsciiSpace c2); simpl; lia. }
      destruct (isSpace2 c2 c1); simpl; lia.
    + destruct (isAsciiSpace c1).
      { pose proof (IH (c2 :: c3 :: t3)) as H. simpl in H.
        specialize (H ltac:(lia)). lia. }
      destruct (isSpace2 c2 c1).
      { pose proof (IH (c3 :: t3)) as H. simpl in H.
        specialize (H ltac:(lia)). lia. }
      destruct (isSpace3 c3 c2 c1); [|simpl; lia].
      pose proof (IH t3 ltac:(lia)). lia.
Qed.

Lemma TrimSpace_length s :
  (String.length (TrimSpace s) <= String.length s)%nat.
Proof.
  unfold TrimSpace, trimRight. rewrite length_of_list, length_rev.
  pose proof (trimLeftRev_length _
                (rev (trimLeft (list_ascii_of_string s))) (le_n _)) as H1.
  pose proof (trimLeft_length _ (list_ascii_of_string s) (le_n _)) as H2.
  rewrite length_rev in H1. rewrite length_to_list in H2. lia.
Qed.

Lemma FindStringIndex_bound s : forall lo hi,
  FindStringIndex s = Some (lo, hi) -> (lo <= hi <= String.length s)%nat.
Proof.
  induction s as [|c s IH]; intros lo hi H.
  - simpl in H. done.
  - unfold FindStringIndex in H; fold FindStringIndex in H.
    destruct (matchMarkerAt (String c s)) as [n|] eqn:E.
    + injection H as <- <-. split; [apply Nat.le_0_l|].
      unfold matchMarkerAt in E.
      repeat match type of E with
             | match ?x with _ => _ end = _ => destruct x; try discriminate
             | (if ?x then _ else _) = _ => destruct x; try discriminate
             end.
      injection E as <-. apply Nat.le_sub_l.
    + destruct (FindStringIndex s) as [[lo' hi']|]; [|done].
      injection H as <- <-. specialize (IH _ _ eq_refl). simpl. lia.
Qed.

(** *** Trimming an indented line *)

Lemma trimLeft_indent indent body :
  Forall (fun c => isAsciiSpace c = true) indent ->
  trimLeft (indent ++ body) = trimLeft body.
Proof.
  induction 1 as [|c indent Hc _ IH]; [done|]. simpl. by rewrite Hc.
Qed.

Lemma trimRight_solid a d : solid d -> trimRight (a ++ [d]) = a ++ [d].
Proof.
  intros Hd. unfold trimRight. rewrite rev_app_distr.
  change (rev [d] ++ rev a) with (d :: rev a).
  rewrite trimLeftRev_solid by done. simpl. by rewrite rev_involutive.
Qed.

(** Of a line made of white space and of a text between two visible
    ASCII bytes, trimming leaves the text. *)
Lemma TrimSpace_indent indent body :
  Forall (fun c => isAsciiSpace c = true) (list_ascii_of_string indent) ->
  startsSolid body -> endsSolid body ->
  TrimSpace (indent +:+ body) = body.
Proof.
  intros Hindent (c & s' & -> & Hc) (m & d & Hm & Hd).
  unfold TrimSpace. rewrite to_list_app, trimLeft_indent by done.
  change (list_ascii_of_string (String c s'))
    with (c :: list_ascii_of_string s').
  rewrite trimLeft_solid by done.
  change (c :: list_ascii_of_string s')
    with (list_ascii_of_string (String c s')).
  rewrite Hm, to_list_app.
  change (list_ascii_of_string (String d "")) with [d].
  rewrite trimRight_solid by done.
  change [d] with (list_ascii_of_string (String d "")).
  rewrite <- to_list_app.
  apply string_of_list_ascii_of_string.
Qed.

End StrFacts.

(** ** The line patcher *)

Module PatchFacts.
Import Str StrFacts.

Lemma solid_at : solid "@"%char.
Proof. split; [vm_compute; lia|reflexivity]. Qed.

Lemma expectedDirective_cons prefix name :
  expectedDirective prefix name
  = String "@"%char ("name " +:+ prefix +:+ name).
Proof. reflexivity. Qed.

Lemma endsSolid_expected prefix name :
  endsSolid name -> endsSolid (expectedDirective prefix name).
Proof. intros H. unfold expectedDirective. by do 2 apply endsSolid_app. Qed.

(** A line that holds the expected directive is kept, whatever stands
    before and after it. *)
Lemma patchLine_keep a b prefix name :
  endsSolid name ->
  patchLine (a +:+ expectedDirective prefix name +:+ b) prefix name = Keep.
Proof.
  intros Hname. unfold patchLine.
  pose proof (endsSolid_expected prefix name Hname) as He.
  rewrite expectedDirective_cons in *.
  by rewrite (Contains_TrimSpace a _ _ b solid_at He).
Qed.

Lemma patchLine_trailing pre prefix name :
  endsSolid name ->
  patchLine (pre +:+ trailingComment prefix name) prefix name = Keep.
Proof.
  intros Hname. unfold trailingComment.
  rewrite <- (app_nil_r (expectedDirective prefix name)) at 1.
  rewrite <- app_assoc. by apply patchLine_keep.
Qed.

Lemma patched_fixed line prefix name :
  endsSolid name ->
  patchLine (patched line prefix name) prefix name = Keep.
Proof.
  intros Hname. unfold patched.
  destruct (patchLine line prefix name) as [|l|l] eqn:E; [done| |];
    unfold patchLine in E;
    destruct (Contains _ _); try done;
    destruct (FindStringIndex _) as [[lo hi]|]; try done;
    injection E as <-; by apply patchLine_trailing.
Qed.

Lemma applyLine_line i line annotations prefix n r :
  (applyLine i line annotations prefix n r).1.1
  = patchedAt annotations prefix i line.
Proof.
  unfold applyLine, patchedAt, patched.
  destruct (annotations !! i) as [name|]; [|done].
  by destruct (patchLine line prefix name).
Qed.

Lemma applyLine_count_le i line annotations prefix n r :
  (n <= (applyLine i line annotations prefix n r).1.2)%nat.
Proof.
  unfold applyLine.
  destruct (annotations !! i) as [name|]; [|done].
  destruct (patchLine line prefix name); simpl; lia.
Qed.

(** A line is left as it was, with the count and the counters, exactly
    when the count is. *)
Lemma applyLine_count_same i line annotations prefix n r :
  (applyLine i line annotations prefix n r).1.2 = n ->
  applyLine i line annotations prefix n r = (line, n, r).
Proof.
  unfold applyLine.
  destruct (annotations !! i) as [name|]; [|done].
  destruct (patchLine line prefix name); simpl; try done; lia.
Qed.

Lemma applyLine_kept i line annotations prefix n r :
  (forall name, annotations !! i = Some name ->
                patchLine line prefix name = Keep) ->
  applyLine i line annotations prefix n r = (line, n, r).
Proof.
  intros H. unfold applyLine.
  destruct (annotations !! i) as [name|]; [|done].
  by rewrite (H name).
Qed.

Ltac step_applyFrom IH :=
  match goal with
  | |- context [applyLine ?i ?l ?a ?p ?n ?r] =>
      let line' := fresh "line'" in
      let n1 := fresh "n1" in
      let r1 := fresh "r1" in
      let E := fresh "Eline" in
      destruct (applyLine i l a p n r) as [[line' n1] r1] eqn:E
  end;
  match goal with
  | |- context [applyFrom ?i ?l ?a ?p ?n ?r] =>
      let rest' := fresh "rest'" in
      let n2 := fresh "n2" in
      let r2 := fresh "r2" in
      let E := fresh "Erest" in
      pose proof (IH i a p n r) as IH;
      destruct (applyFrom i l a p n r) as [[rest' n2] r2] eqn:E
  end.

Lemma applyFrom_lines lines : forall i annotations prefix n r k,
  (applyFrom i lines annotations prefix n r).1.1 !! k
  = patchedAt annotations prefix (i + Z.of_nat k) <$> lines !! k.
Proof.
  induction lines as [|line rest IH]; intros i ann prefix n r k; [done|].
  simpl.
  pose proof (applyLine_line i line ann prefix n r) as Hline.
  step_applyFrom IH. simpl in *.
  destruct k as [|k]; simpl.
  - replace (i + Z.of_nat 0) with i by lia. by rewrite Hline.
  - rewrite IH. by replace (i + 1 + Z.of_nat k) with (i + Z.of_nat (S k)) by lia.
Qed.

Lemma applyFrom_length lines : forall i annotations prefix n r,
  length (applyFrom i lines annotations prefix n r).1.1 = length lines.
Proof.
  induction lines as [|line rest IH]; intros i ann prefix n r; [done|].
  simpl. step_applyFrom IH. simpl in *. by rewrite IH.
Qed.

(** The number of lines changed only grows. *)
Lemma applyFrom_count_le lines : forall i annotations prefix n r,
  (n <= (applyFrom i lines annotations prefix n r).1.2)%nat.
Proof.
  induction lines as [|line rest IH]; intros i ann prefix n r; [done|].
  simpl.
  pose proof (applyLine_count_le i line ann prefix n r) as Hle.
  step_applyFrom IH. simpl in *. lia.
Qed.

(** When every planned line is kept, nothing changes: neither the
    lines, nor the count, nor the counters. *)
Lemma applyFrom_all_kept lines : forall i annotations prefix n r,
  (forall k name line,
      annotations !! (i + Z.of_nat k) = Some name ->
      lines !! k = Some line ->
      patchLine line prefix name = Keep) ->
  applyFrom i lines annotations prefix n r = (lines, n, r).
Proof.
  induction lines as [|line rest IH]; intros i ann prefix n r Hkeep; [done|].
  simpl. rewrite applyLine_kept.
  - rewrite IH; [done|].
    intros k name l Hk Hl. apply (Hkeep (S k) name l); [|done].
    by replace (i + Z.of_nat (S k)) with (i + 1 + Z.of_nat k) by lia.
  - intros name Hi. apply (Hkeep 0%nat name line); [|done].
    by replace (i + Z.of_nat 0) with i by lia.
Qed.

(** Conversely, a count that did not grow means that nothing
    changed. *)
Lemma applyFrom_count_same lines : forall i annotations prefix n r,
  (applyFrom i lines annotations prefix n r).1.2 = n ->
  applyFrom i lines annotations prefix n r = (lines, n, r).
Proof.
  induction lines as [|line rest IH]; intros i ann prefix n r Hn; [done|].
  simpl in *.
  pose proof (applyLine_count_le i line ann prefix n r) as Hle1.
  pose proof (applyLine_count_same i line ann prefix n r) as Hsame.
  destruct (applyLine i line ann prefix n r) as [[line' n1] r1].
  pose proof (applyFrom_count_le rest (i + 1) ann prefix n1 r1) as Hle2.
  specialize (IH (i + 1) ann prefix n1 r1).
  destruct (applyFrom (i + 1) rest ann prefix n1 r1) as [[rest' n2] r2].
  simpl in *. subst n2.
  assert (n1 = n) as -> by lia.
  specialize (Hsame eq_refl). injection Hsame as -> ->.
  specialize (IH eq_refl). by injection IH as -> ->.
Qed.

(** Two plans that make the loop body act alike on every line give
    the same result. *)
Lemma applyFrom_ext lines : forall i ann1 ann2 prefix n r,
  (forall k line n r,
      lines !! k = Some line ->
      applyLine (i + Z.of_nat k) line ann1 prefix n r
      = applyLine (i + Z.of_nat k) line ann2 prefix n r) ->
  applyFrom i lines ann1 prefix n r = applyFrom i lines ann2 prefix n r.
Proof.
  induction lines as [|line rest IH]; intros i ann1 ann2 prefix n r Heq; [done|].
  simpl.
  assert (Hline : applyLine i line ann1 prefix n r
                  = applyLine i line ann2 prefix n r).
  { specialize (Heq 0%nat line n r).
    replace (i + Z.of_nat 0) with i in Heq by lia. by apply Heq. }
  rewrite Hline. destruct (applyLine i line ann2 prefix n r) as [[line' n1] r1].
  rewrite (IH (i + 1) ann1 ann2); [done|].
  intros k l n' r' Hk.
  replace (i + 1 + Z.of_nat k) with (i + Z.of_nat (S k)) by lia.
  by apply Heq.
Qed.

(** A line outside the plan is left as it was. *)
Lemma applyAnnotations_frame lines annotations prefix result i :
  annotations !! Z.of_nat i = None ->
  (applyAnnotations lines annotations prefix result).1.1 !! i = lines !! i.
Proof.
  intros Hi. unfold applyAnnotations. rewrite applyFrom_lines.
  unfold patchedAt. replace (0 + Z.of_nat i) with (Z.of_nat i) by lia.
  rewrite Hi. by destruct (lines !! i).
Qed.

(** Patching the patched lines again, under the same plan, changes
    nothing. *)
Lemma applyFrom_idempotent lines i annotations prefix n r n' r' :
  (forall k name, annotations !! k = Some name -> endsSolid name) ->
  applyFrom i (applyFrom i lines annotations prefix n r).1.1
    annotations prefix n' r'
  = ((applyFrom i lines annotations prefix n r).1.1, n', r').
Proof.
  intros Hnames. apply applyFrom_all_kept.
  intros k name line Hk Hline.
  rewrite applyFrom_lines in Hline.
  destruct (lines !! k) as [l|]; [|done]. simpl in Hline.
  injection Hline as <-. unfold patchedAt. rewrite Hk.
  apply patched_fixed. by eapply Hnames.
Qed.

(** The slice [lines[i][:loc[0]]] of the source is always in range: the
    offset lies within the trimmed line, which is no longer than the
    line. *)
Lemma replace_slice_in_range line lo hi :
  FindStringIndex (TrimSpace line) = Some (lo, hi) ->
  (lo <= String.length line)%nat.
Proof.
  intros H. apply FindStringIndex_bound in H.
  pose proof (TrimSpace_length line). lia.
Qed.

(** On an indented line that bears a stale directive, the line is cut at
    the offset the marker has in the text without its indentation: the
    part kept is [take lo (indent +:+ body)], not
    [indent +:+ take lo body]. *)
Lemma indented_replace indent body prefix name lo hi :
  Forall (fun c => isAsciiSpace c = true) (list_ascii_of_string indent) ->
  startsSolid body -> endsSolid body ->
  Contains body (expectedDirective prefix name) = false ->
  FindStringIndex body = Some (lo, hi) ->
  patchLine (indent +:+ body) prefix name
  = Replace (take lo (indent +:+ body) +:+ trailingComment prefix name).
Proof.
  intros Hindent Hs He Hc Hf. unfold patchLine.
  by rewrite TrimSpace_indent, Hc, Hf.
Qed.

(** *** The counters *)

Lemma applyLine_counters i line annotations prefix n r :
  let out := applyLine i line annotations prefix n r in
  FilesProcessed out.2 = FilesProcessed r
  /\ Errors out.2 = Errors r
  /\ (AnnotationsAdded r <= AnnotationsAdded out.2)%nat
  /\ (AnnotationsReplaced r <= AnnotationsReplaced out.2)%nat
  /\ (AnnotationsAdded out.2 + AnnotationsReplaced out.2 + n
      = AnnotationsAdded r + AnnotationsReplaced r + out.1.2)%nat
  /\ (out.1.2 <= S n)%nat.
Proof.
  cbv zeta. unfold applyLine.
  destruct (annotations !! i) as [name|];
    [destruct (patchLine line prefix name)|];
    simpl; repeat split; try done; lia.
Qed.

Lemma applyFrom_counters lines : forall i annotations prefix n r,
  let out := applyFrom i lines annotations prefix n r in
  FilesProcessed out.2 = FilesProcessed r
  /\ Errors out.2 = Errors r
  /\ (AnnotationsAdded r <= AnnotationsAdded out.2)%nat
  /\ (AnnotationsReplaced r <= AnnotationsReplaced out.2)%nat
  /\ (AnnotationsAdded out.2 + AnnotationsReplaced out.2 + n
      = AnnotationsAdded r + AnnotationsReplaced r + out.1.2)%nat
  /\ (out.1.2 <= n + length lines)%nat.
Proof.
  induction lines as [|line rest IH]; intros i ann prefix n r; cbv zeta.
  - simpl. repeat split; try done; lia.
  - simpl.
    pose proof (applyLine_counters i line ann prefix n r) as Hline.
    destruct (applyLine i line ann prefix n r) as [[line' n1] r1].
    specialize (IH (i + 1) ann prefix n1 r1).
    destruct (applyFrom (i + 1) rest ann prefix n1 r1) as [[rest' n2] r2].
    simpl in *.
    destruct Hline as (Hf1 & He1 & ? & ? & ? & ?).
    destruct IH as (Hf2 & He2 & ? & ? & ? & ?).
    repeat split; try congruence; lia.
Qed.

Lemma patcher_counters lines annotations prefix result :
  let out := applyAnnotations lines annotations prefix result in
  FilesProcessed out.2 = FilesProcessed result
  /\ Errors out.2 = Errors result
  /\ (AnnotationsAdded result <= AnnotationsAdded out.2)%nat
  /\ (AnnotationsReplaced result <= AnnotationsReplaced out.2)%nat
  /\ (AnnotationsAdded out.2 - AnnotationsAdded result
      + (AnnotationsReplaced out.2 - AnnotationsReplaced result)
      = out.1.2)%nat
  /\ (out.1.2 <= length lines)%nat.
Proof.
  cbv zeta. unfold applyAnnotations.
  pose proof (applyFrom_counters lines 0 annotations prefix 0%nat result) as H.
  cbv zeta in H. destruct H as (Hf & He & Ha & Hr & Hsum & Hlen).
  repeat split; try done; lia.
Qed.

End PatchFacts.

(** ** Lines of a file *)

Module LineFacts.
Import Str StrFacts PatchFacts.

Lemma hasByte_app c a b : hasByte c (a +:+ b) = hasByte c a || hasByte c b.
Proof.
  induction a as [|x a IH]; [done|].
  rewrite app_cons. simpl. by rewrite IH, orb_assoc.
Qed.

Lemma hasByte_take c n s : hasByte c s = false -> hasByte c (take n s) = false.
Proof.
  revert s. induction n as [|n IH]; intros [|x s] H; try done.
  simpl in *. apply orb_false_iff in H as [-> H]. by rewrite IH.
Qed.

Lemma Split_nonempty s c : Split s c <> [].
Proof.
  destruct s as [|x s]; [done|]. simpl.
  destruct (Ascii.eqb x c); [done|]. by destruct (Split s c).
Qed.

Lemma Split_noSep s c : Forall (fun l => hasByte c l = false) (Split s c).
Proof.
  induction s as [|x s IH]; simpl.
  - by constructor.
  - destruct (Ascii.eqb x c) eqn:E; [by constructor|].
    destruct (Split s c) as [|l ls].
    + constructor; [simpl; by rewrite E|constructor].
    + inversion IH as [|? ? Hl Hls]; subst.
      constructor; [simpl; by rewrite E, Hl|done].
Qed.

Lemma Split_app_noSep a c rest :
  hasByte c a = false ->
  Split (a +:+ String c rest) c = a :: Split rest c.
Proof.
  induction a as [|x a IH]; intros H.
  - rewrite app_nil_l. simpl. by rewrite Ascii.eqb_refl.
  - simpl in H. apply orb_false_iff in H as [Hx Ha].
    rewrite app_cons. simpl. rewrite Hx, (IH Ha). done.
Qed.

Lemma Split_noSep_whole a c : hasByte c a = false -> Split a c = [a].
Proof.
  induction a as [|x a IH]; intros H; [done|].
  simpl in H. apply orb_false_iff in H as [Hx Ha].
  simpl. by rewrite Hx, (IH Ha).
Qed.

(** Joining lines that hold no separator and splitting again gives
    the lines back. *)
Lemma Split_Join parts c :
  parts <> [] ->
  Forall (fun l => hasByte c l = false) parts ->
  Split (Join parts (String c "")) c = parts.
Proof.
  induction parts as [|p rest IH]; intros Hne Hall; [done|].
  inversion Hall as [|? ? Hp Hrest]; subst.
  destruct rest as [|q rest].
  - simpl. by apply Split_noSep_whole.
  - change (Join (p :: q :: rest) (String c ""))
      with (p +:+ String c "" +:+ Join (q :: rest) (String c "")).
    rewrite app_cons, app_nil_l, (Split_app_noSep _ _ _ Hp).
    by rewrite IH.
Qed.

Lemma patched_noByte c line prefix name :
  hasByte c line = false ->
  hasByte c (trailingComment prefix name) = false ->
  hasByte c (patched line prefix name) = false.
Proof.
  intros Hline Hc. unfold patched, patchLine.
  destruct (Contains _ _); [done|].
  destruct (FindStringIndex _) as [[lo hi]|];
    rewrite hasByte_app, Hc, orb_false_r; [by apply hasByte_take|done].
Qed.

End LineFacts.

(** ** The analysis passes *)

Module PlanFacts.
Import Str StrFacts.

(** A property of the accumulator of a left fold that every step on an
    element of the list preserves holds at the end. *)
Lemma foldl_invariant {A B} (P : A -> Prop) (f : A -> B -> A) (l : list B) :
  forall a,
    P a -> (forall a x, x ∈ l -> P a -> P (f a x)) -> P (foldl f a l).
Proof.
  induction l as [|x l IH]; intros a Ha Hstep; [done|].
  simpl. apply IH.
  - apply Hstep; [left|done].
  - intros a' y Hy. apply Hstep. by right.
Qed.

Lemma solid_s : solid "s"%char.
Proof. split; [vm_compute; lia|reflexivity]. Qed.

Lemma solid_q : solid "q"%char.
Proof. split; [vm_compute; lia|reflexivity]. Qed.

Lemma endsSolid_Res a : endsSolid (a +:+ "Res").
Proof. exists (a +:+ "Re"), "s"%char. split; [by rewrite app_assoc|apply solid_s]. Qed.

Lemma endsSolid_Req a : endsSolid (a +:+ "Req").
Proof. exists (a +:+ "Re"), "q"%char. split; [by rewrite app_assoc|apply solid_q]. Qed.

Lemma endsSolid_ItemRes a : endsSolid (a +:+ "ItemRes").
Proof. exists (a +:+ "ItemRe"), "s"%char. split; [by rewrite app_assoc|apply solid_s]. Qed.

Lemma endsSolid_ItemReq a : endsSolid (a +:+ "ItemReq").
Proof. exists (a +:+ "ItemRe"), "q"%char. split; [by rewrite app_assoc|apply solid_q]. Qed.

(** The names the generator returns are empty or end with the visible
    letter of their suffix. *)
Lemma generated_names info variant inner :
  let names := generateAnnotationNameWithContext info variant inner in
  (names.1 = "" \/ endsSolid names.1) /\ (names.2 = "" \/ endsSolid names.2).
Proof.
  unfold generateAnnotationNameWithContext.
  destruct (String.eqb (Name info) ""); [by split; left|].
  destruct (_ && String.eqb (GenericBase info) "SearchResponse"); simpl.
  - split; [right; apply endsSolid_Res|].
    destruct (negb _); [|by left].
    destruct (String.eqb variant "response"); right;
      [apply endsSolid_ItemRes|apply endsSolid_ItemReq].
  - split; [|by left].
    case_bool_decide; destruct (String.eqb variant "response"); right;
      auto using endsSolid_Res, endsSolid_Req, endsSolid_ItemRes,
        endsSolid_ItemReq.
Qed.

Section plan.

Variable h : Host.
Variable f : ast.File.
Variable ignoredTypes : gset string.

(** Where an entry of the plan after [planItem] comes from. *)
Lemma planItem_lookup innerType itemName decls : forall (p : Plan) l n,
  (foldl
     (fun (p : Plan) its =>
        if String.eqb (ast.Name its) innerType
           && negb (bool_decide (ast.Name its ∈ ignoredTypes))
        then (<[ast.EndLine its - 1 := itemName]> p.1, {[itemName]} ∪ p.2)
        else p) p decls).1 !! l = Some n ->
  p.1 !! l = Some n
  \/ (n = itemName
      /\ (exists its, its ∈ decls /\ ast.Name its = innerType
                      /\ (innerType ∉ ignoredTypes)
                      /\ ast.EndLine its - 1 = l)).
Proof.
  induction decls as [|x decls IH]; intros p l n H; [by left|].
  simpl in H. apply IH in H as [H|(-> & its & Hin & Hrest)].
  - destruct (String.eqb_spec (ast.Name x) innerType) as [Hx|Hx];
      [|by left].
    case_bool_decide as Hign; simpl in H; [by left|].
    destruct (decide (ast.EndLine x - 1 = l)) as [Hl|Hl].
    + subst l. rewrite lookup_insert_eq in H. injection H as <-.
      right. split; [done|]. exists x.
      split; [left|]. split; [done|]. split; [by rewrite <- Hx|done].
    + rewrite lookup_insert_ne in H by done. by left.
  - right. split; [done|]. exists its. split; [by right|done].
Qed.

(** Every declaration named [innerType], when that name is not
    ignored, gets the item name on its last line. *)
Lemma planItem_sets innerType itemName decls : forall (p : Plan) its,
  its ∈ decls -> ast.Name its = innerType -> innerType ∉ ignoredTypes ->
  (foldl
     (fun (p : Plan) its =>
        if String.eqb (ast.Name its) innerType
           && negb (bool_decide (ast.Name its ∈ ignoredTypes))
        then (<[ast.EndLine its - 1 := itemName]> p.1, {[itemName]} ∪ p.2)
        else p) p decls).1 !! (ast.EndLine its - 1) = Some itemName.
Proof.
  assert (Hkeep : forall decls (p : Plan) l,
             p.1 !! l = Some itemName ->
             (foldl
                (fun (p : Plan) its =>
                   if String.eqb (ast.Name its) innerType
                      && negb (bool_decide (ast.Name its ∈ ignoredTypes))
                   then (<[ast.EndLine its - 1 := itemName]> p.1,
                         {[itemName]} ∪ p.2)
                   else p) p decls).1 !! l = Some itemName).
  { clear. induction decls as [|x decls IH]; intros p l H; [done|].
    simpl. apply IH. destruct (_ && _); [|done]. simpl.
    destruct (decide (ast.EndLine x - 1 = l)) as [->|Hl].
    - by rewrite lookup_insert_eq.
    - by rewrite lookup_insert_ne. }
  induction decls as [|x decls IH]; intros p its Hin Hname Hign.
  - by apply elem_of_nil in Hin.
  - simpl. apply elem_of_cons in Hin as [<-|Hin]; [|by apply IH].
    apply Hkeep. rewrite Hname, String.eqb_refl.
    rewrite bool_decide_eq_false_2 by done. simpl.
    by rewrite lookup_insert_eq.
Qed.

Lemma planned_annotateSpec variant inner p ts :
  ts ∈ ast.Decls f -> planned f ignoredTypes p ->
  planned f ignoredTypes
    (annotateSpec h f variant ignoredTypes inner p ts).
Proof.
  intros Hts Hp. unfold annotateSpec.
  destruct (negb (IsExported h (ast.Name ts))); [done|]. simpl.
  case_bool_decide as Hign; [done|].
  destruct (String.eqb (Name (extractTypeInfo ts)) ""); [done|].
  pose proof (generated_names (extractTypeInfo ts) variant inner) as Hgen.
  destruct (generateAnnotationNameWithContext _ _ _) as [mainName itemName].
  simpl in Hgen. destruct Hgen as [Hmain Hitem].
  assert (Hp1 : planned f ignoredTypes (planMain ts mainName p)).
  { unfold planMain.
    destruct (String.eqb_spec mainName "") as [|Hne]; [done|].
    destruct Hmain as [|Hmain]; [done|].
    case_bool_decide; [done|]. simpl.
    intros l n Hl. simpl in Hl.
    destruct (decide (ast.EndLine ts - 1 = l)) as [<-|Hne'].
    - rewrite lookup_insert_eq in Hl. injection Hl as <-.
      split; [done|]. by exists ts.
    - rewrite lookup_insert_ne in Hl by done. by apply Hp. }
  unfold planSecondary.
  destruct (String.eqb_spec itemName "") as [|Hne]; [done|].
  destruct Hitem as [|Hitem]; [done|].
  case_bool_decide; [done|]. simpl.
  destruct (negb _); [|done].
  intros l n Hl. unfold planItem in Hl.
  apply planItem_lookup in Hl as [Hl|(-> & its & Hin & Hname & Hnot & Hline)].
  - by apply Hp1.
  - split; [done|]. exists its. by rewrite Hname.
Qed.

Lemma planned_addAnnotations variant inner :
  planned f ignoredTypes
    (addAnnotations h f variant ignoredTypes inner (∅, ∅)).
Proof.
  unfold addAnnotations. apply foldl_invariant.
  - intros l n Hl. simpl in Hl. by rewrite lookup_empty in Hl.
  - intros p ts Hts Hp. by apply planned_annotateSpec.
Qed.

End plan.

End PlanFacts.

Module SetFacts.

(** A left fold that adds the key of every element passing a test
    collects exactly those keys. *)
Lemma foldl_collect {B} (step : gset string -> B -> gset string)
    (test : B -> bool) (key : B -> string) :
  (forall acc b, step acc b = if test b then {[key b]} ∪ acc else acc) ->
  forall l acc x,
    x ∈ foldl step acc l
    <-> x ∈ acc \/ (exists b, b ∈ l /\ test b = true /\ key b = x).
Proof.
  intros Hstep. induction l as [|b l IH]; intros acc x; simpl.
  - split; [by left|]. intros [H|(b & Hb & _)]; [done|].
    by apply elem_of_nil in Hb.
  - rewrite IH, Hstep. split.
    + intros [H|(b' & Hb' & Ht & Hk)].
      * destruct (test b) eqn:E; [|by left].
        apply elem_of_union in H as [H|H]; [|by left].
        apply elem_of_singleton in H. right. exists b.
        split; [left|done].
      * right. exists b'. split; [by right|done].
    + intros [H|(b' & Hb' & Ht & Hk)].
      * left. destruct (test b); [|done]. apply elem_of_union. by right.
      * apply elem_of_cons in Hb' as [->|Hb'].
        -- left. rewrite Ht. apply elem_of_union. left.
           by apply elem_of_singleton.
        -- right. by exists b'.
Qed.

Section sets.

Variable h : Host.

(** The ignore set: the names of the exported declarations that bear
    the marker. *)
Lemma elem_of_findIgnoredTypes f lines acc x :
  x ∈ findIgnoredTypes h f lines acc
  <-> x ∈ acc
      \/ (exists ts, ts ∈ ast.Decls f
                     /\ IsExported h (ast.Name ts) && isMarked f lines ts = true
                     /\ ast.Name ts = x).
Proof.
  unfold findIgnoredTypes.
  apply (foldl_collect _
           (fun ts => IsExported h (ast.Name ts) && isMarked f lines ts)
           ast.Name).
  done.
Qed.

Lemma elem_of_findSearchResponseInnerTypes f ignoredTypes acc x :
  x ∈ findSearchResponseInnerTypes h f ignoredTypes acc
  <-> x ∈ acc
      \/ (exists ts, ts ∈ ast.Decls f
                     /\ contributes h ignoredTypes ts = true
                     /\ InnerType (extractTypeInfo ts) = x).
Proof.
  unfold findSearchResponseInnerTypes.
  apply (foldl_collect _ (contributes h ignoredTypes)
           (fun ts => InnerType (extractTypeInfo ts))).
  intros acc' ts. unfold contributes.
  destruct (IsExported h (ast.Name ts)); simpl; [|done].
  by destruct (bool_decide _).
Qed.

(** A shape with a base has one of the two flags: both are set
    together with the base, in [handleIndexExpr]. *)
Lemma extractTypeInfo_base ts :
  GenericBase (extractTypeInfo ts) <> "" ->
  IsGeneric (extractTypeInfo ts) || IsAlias (extractTypeInfo ts) = true.
Proof.
  unfold extractTypeInfo.
  destruct (ast.Type_ ts) as [ident|X Index| |]; simpl; try done.
  - unfold handleIdentType. by case_bool_decide.
  - destruct X; simpl; try done.
    by destruct (negb _).
Qed.

Lemma isSearchWrapper_spec ts :
  isSearchWrapper (extractTypeInfo ts) = true
  <-> GenericBase (extractTypeInfo ts) = "SearchResponse"
      /\ InnerType (extractTypeInfo ts) <> "".
Proof.
  unfold isSearchWrapper.
  destruct (String.eqb_spec (GenericBase (extractTypeInfo ts))
              "SearchResponse") as [Hb|Hb];
    destruct (String.eqb_spec (InnerType (extractTypeInfo ts)) "")
      as [Hi|Hi]; rewrite ?andb_false_r; simpl.
  - split; [done|by intros [_ ?]].
  - rewrite !andb_true_r, extractTypeInfo_base; [done|].
    by rewrite Hb.
  - split; [done|by intros [? _]].
  - split; [done|by intros [? _]].
Qed.

End sets.

End SetFacts.

Module SuffixFacts.
Import Str StrFacts.

(** Both strips match exactly on the names that end with
    [RequestResponse]; the name left is the one without the suffixes
    that matched. *)
Lemma stripSuffixes_cases name :
  HasSuffix name "Response"
  && HasSuffix (TrimSuffix name "Response") "Request"
  = HasSuffix name "RequestResponse"
  /\ stripSuffixes name
     = if HasSuffix name "RequestResponse"
       then take (String.length name - 15) name
       else if HasSuffix name "Response"
            then take (String.length name - 8) name
            else if HasSuffix name "Request"
                 then take (String.length name - 7) name
                 else name.
Proof.
  unfold stripSuffixes.
  destruct (HasSuffix name "Response") eqn:E1.
  - destruct (HasSuffix_inv _ _ E1) as [a ->].
    rewrite TrimSuffix_app. simpl andb.
    destruct (HasSuffix a "Request") eqn:E2.
    + destruct (HasSuffix_inv _ _ E2) as [b ->].
      rewrite TrimSuffix_app, app_assoc.
      change ("Request" +:+ "Response") with "RequestResponse".
      rewrite HasSuffix_app. split; [done|].
      rewrite length_app.
      replace (String.length b + String.length "RequestResponse" - 15)%nat
        with (String.length b) by (simpl; lia).
      by rewrite take_app.
    + assert (Hno : HasSuffix (a +:+ "Response") "RequestResponse" = false).
      { destruct (HasSuffix _ "RequestResponse") eqn:E3; [|done].
        destruct (HasSuffix_inv _ _ E3) as [b Hb].
        change "RequestResponse" with ("Request" +:+ "Response") in Hb.
        rewrite <- app_assoc in Hb. apply app_inv_tail in Hb. subst a.
        by rewrite HasSuffix_app in E2. }
      rewrite Hno. split; [done|].
      unfold TrimSuffix at 1. rewrite E2, length_app.
      replace (String.length a + String.length "Response" - 8)%nat
        with (String.length a) by (simpl; lia).
      by rewrite take_app.
  - simpl andb.
    assert (Hno : HasSuffix name "RequestResponse" = false).
    { destruct (HasSuffix _ "RequestResponse") eqn:E3; [|done].
      destruct (HasSuffix_inv _ _ E3) as [b ->].
      change "RequestResponse" with ("Request" +:+ "Response") in E1.
      by rewrite <- app_assoc, HasSuffix_app in E1. }
    rewrite Hno. split; [done|].
    unfold TrimSuffix at 2. rewrite E1. reflexivity.
Qed.

End SuffixFacts.

(** ** The file pipeline and the walk *)

Module PipelineFacts.
Import Str StrFacts PatchFacts PlanFacts SetFacts LineFacts.

(** *** Where the marker is looked for *)

Lemma existsb_elem_of {A} (p : A -> bool) (l : list A) :
  existsb p l = true <-> exists x, x ∈ l /\ p x = true.
Proof.
  rewrite existsb_exists. split; intros (x & Hin & Hp); exists x;
    (split; [by apply list_elem_of_In|done]).
Qed.

Lemma docHasMarker_spec ts : docHasMarker ts = true <-> markerInDoc ts.
Proof.
  unfold docHasMarker, markerInDoc. destruct (ast.Doc ts) as [group|].
  - rewrite existsb_elem_of. split.
    + intros (c & Hin & Hc). by exists group, c.
    + intros (g & c & [= <-] & Hin & Hc). by exists c.
  - split; [done|]. by intros (g & c & ? & _).
Qed.

Lemma lineHasMarker_spec lines ts :
  lineHasMarker lines ts = true <-> markerOnLine lines ts.
Proof.
  unfold lineHasMarker, markerOnLine. split.
  - intros [[Hpos Hlen]%andb_true_iff Hline]%andb_true_iff.
    destruct (lines !! Z.to_nat (ast.PosLine ts - 1)) as [line|]; [|done].
    exists line. split; [lia|done].
  - intros (line & Hpos & Hlook & Hc). rewrite Hlook, Hc.
    apply lookup_lt_Some in Hlook.
    rewrite andb_true_r. apply andb_true_iff. split; lia.
Qed.

Lemma nearHasMarker_spec f ts :
  nearHasMarker f ts = true <-> markerNear f (ast.PosLine ts).
Proof.
  unfold nearHasMarker, markerNear. rewrite existsb_elem_of. split.
  - intros (group & Hg & Hex). apply existsb_elem_of in Hex as (c & Hc & Hp).
    apply andb_true_iff in Hp as [[Ht Hlo]%andb_true_iff Hhi].
    exists group, c. split; [done|]. split; [done|]. split; [done|]. lia.
  - intros (group & c & Hg & Hc & Ht & Hlo & Hhi). exists group.
    split; [done|]. apply existsb_elem_of. exists c. split; [done|].
    rewrite Ht. simpl. apply andb_true_iff. split; lia.
Qed.

Lemma isMarked_spec f lines ts :
  isMarked f lines ts = true
  <-> markerInDoc ts \/ markerOnLine lines ts
      \/ markerNear f (ast.PosLine ts).
Proof.
  unfold isMarked.
  rewrite <- docHasMarker_spec, <- lineHasMarker_spec, <- nearHasMarker_spec.
  rewrite !orb_true_iff. tauto.
Qed.

(** A file that bears no marker ignores nothing. *)
Lemma markerFree_ignoredOf h f lines :
  markerFree f lines -> ignoredOf h f lines = ∅.
Proof.
  intros (Hdoc & Hline & Hnear). apply set_eq. intros x.
  split; [|by intros H%not_elem_of_empty].
  unfold ignoredOf. rewrite elem_of_findIgnoredTypes.
  intros [H|(ts & Hin & Hm & _)]; [done|]. exfalso.
  apply andb_true_iff in Hm as [_ Hm].
  apply isMarked_spec in Hm
    as [(g & c & Hd & Hc & Ht)|[(line & _ & Hl & Ht)
                               |(g & c & Hg & Hc & Ht & _)]].
  - by rewrite (Hdoc ts g c Hin Hd Hc) in Ht.
  - rewrite (Hline line) in Ht; [done|]. by eapply list_elem_of_lookup_2.
  - by rewrite (Hnear g c Hg Hc) in Ht.
Qed.

(** *** Shapes *)

Lemma IsExported_nonempty h name : IsExported h name = true -> name <> "".
Proof. by intros H ->. Qed.

(** A shape with a base keeps the declared name. *)
Lemma extractTypeInfo_name ts :
  GenericBase (extractTypeInfo ts) <> "" ->
  Name (extractTypeInfo ts) = ast.Name ts.
Proof.
  unfold extractTypeInfo.
  destruct (ast.Type_ ts) as [ident|X Index| |]; simpl; try done.
  - unfold handleIdentType. by case_bool_decide.
  - by destruct X.
Qed.

Lemma elem_of_innerTypesOf h f lines x :
  x ∈ innerTypesOf h f lines
  <-> exists ts, ts ∈ ast.Decls f
        /\ IsExported h (ast.Name ts) = true
        /\ (ast.Name ts ∉ ignoredOf h f lines)
        /\ GenericBase (extractTypeInfo ts) = "SearchResponse"
        /\ InnerType (extractTypeInfo ts) = x
        /\ x <> "".
Proof.
  unfold innerTypesOf. rewrite elem_of_findSearchResponseInnerTypes.
  split.
  - intros [H|(ts & Hts & Hc & Hx)]; [by apply not_elem_of_empty in H|].
    unfold contributes in Hc.
    apply andb_true_iff in Hc as [Hc Hw].
    apply andb_true_iff in Hc as [He Hi].
    apply isSearchWrapper_spec in Hw as [Hb Hn].
    apply negb_true_iff, bool_decide_eq_false in Hi.
    exists ts. subst x. done.
  - intros (ts & Hts & He & Hi & Hb & Hx & Hn). right. exists ts.
    split; [done|]. split; [|done]. unfold contributes.
    rewrite He, bool_decide_eq_false_2 by done. simpl.
    apply isSearchWrapper_spec. by subst x.
Qed.

Lemma extractTypeInfo_shape ts ts' :
  shapeOf ts = shapeOf ts' -> extractTypeInfo ts = extractTypeInfo ts'.
Proof.
  unfold shapeOf. intros [= Hn Ht]. unfold extractTypeInfo, handleIndexExpr.
  by rewrite Hn, Ht.
Qed.

Lemma contributes_shape h ignoredTypes ts ts' :
  shapeOf ts = shapeOf ts' ->
  contributes h ignoredTypes ts = contributes h ignoredTypes ts'.
Proof.
  intros Hs. unfold contributes. rewrite (extractTypeInfo_shape _ _ Hs).
  injection Hs as -> _. done.
Qed.

(** For a given ignore set, the inner-type set depends on the names and
    type expressions of the declarations only, whatever their order and
    their positions. *)
Lemma innerTypes_shapes h f f' ignoredTypes acc :
  shapeOf <$> ast.Decls f' ≡ₚ shapeOf <$> ast.Decls f ->
  findSearchResponseInnerTypes h f' ignoredTypes acc
  = findSearchResponseInnerTypes h f ignoredTypes acc.
Proof.
  intros Hperm. apply set_eq. intros x.
  rewrite !elem_of_findSearchResponseInnerTypes.
  assert (Hone : forall g g',
             shapeOf <$> ast.Decls g ≡ₚ shapeOf <$> ast.Decls g' ->
             (exists ts, ts ∈ ast.Decls g
                         /\ contributes h ignoredTypes ts = true
                         /\ InnerType (extractTypeInfo ts) = x) ->
             exists ts, ts ∈ ast.Decls g'
                        /\ contributes h ignoredTypes ts = true
                        /\ InnerType (extractTypeInfo ts) = x).
  { intros g g' Hp (ts & Hts & Hc & Hi).
    assert (Hin : shapeOf ts ∈ shapeOf <$> ast.Decls g')
      by (rewrite <- Hp; by apply list_elem_of_fmap_2).
    apply list_elem_of_fmap in Hin as (ts' & Hs & Hts').
    exists ts'. split; [done|].
    by rewrite <- (contributes_shape _ _ _ _ Hs),
         <- (extractTypeInfo_shape _ _ Hs). }
  split; intros [H|H]; try (by left); right.
  - by apply (Hone f' f).
  - by apply (Hone f f').
Qed.

Lemma foldl_pointwise {A B} (f g : A -> B -> A) (l : list B) :
  (forall a x, f a x = g a x) -> forall a, foldl f a l = foldl g a l.
Proof.
  intros H. induction l as [|x l IH]; intros a; [done|].
  simpl. by rewrite H, IH.
Qed.

(** Two syntax trees with the same declarations and the same ignore set
    give the same plan. *)
Lemma planOf_same_decls h f f1 lines lines1 variant :
  ast.Decls f1 = ast.Decls f ->
  ignoredOf h f1 lines1 = ignoredOf h f lines ->
  planOf h f1 lines1 variant = planOf h f lines variant.
Proof.
  intros Hdecls Hign.
  unfold planOf, innerTypesOf, addAnnotations, findSearchResponseInnerTypes.
  rewrite Hign, Hdecls. apply foldl_pointwise.
  intros p ts. unfold annotateSpec, planSecondary, planItem.
  by rewrite Hdecls.
Qed.

(** [processFile] once the file is read and parsed. *)
Lemma processFile_parsed h filename prefix variant w result src f :
  ReadFile h w filename = Ok src ->
  parser_ParseFile h filename src = Ok f ->
  processFile h filename prefix variant w result
  = let out := applyAnnotations (Split src newline)
                 (planOf h f (Split src newline) variant).1 prefix result in
    if (0 <? out.1.2)%nat then
      match writeFile h w filename out.1.1 with
      | (w', Some e) => (w', out.2, Some ("writing file: " +:+ e))
      | (w', None) => (w', out.2, None)
      end
    else (w, out.2, None).
Proof.
  intros Hread Hparse. unfold processFile. rewrite Hread, Hparse.
  by destruct (applyAnnotations _ _ _ _) as [[lines' n] r'].
Qed.

(** A failing write: the error, and the file as the failure leaves
    it. *)
Lemma writeFile_fails h w filename lines e left :
  WriteFail h filename = Some (e, left) ->
  writeFile h w filename lines
  = (match left with
     | None => w
     | Some n =>
         {| files := <[filename := take n (Join lines (String newline ""))]>
                       (files w);
            written := written w ++ [filename] |}
     end, Some ("writing to file: " +:+ e)).
Proof. intros H. unfold writeFile, WriteFile. rewrite H. by destruct left. Qed.

Lemma hasByte_trailingComment prefix name :
  hasByte newline (prefix +:+ name) = false ->
  hasByte newline (trailingComment prefix name) = false.
Proof.
  intros H. unfold trailingComment, expectedDirective.
  by rewrite 2!hasByte_app, H.
Qed.

(** The lines the patcher leaves hold no line break, when no directive
    does. *)
Lemma patched_lines_noNewline src annotations prefix result :
  (forall l name, annotations !! l = Some name ->
                  hasByte newline (prefix +:+ name) = false) ->
  Forall (fun l => hasByte newline l = false)
    (applyAnnotations (Split src newline) annotations prefix result).1.1.
Proof.
  intros Hnl. apply Forall_lookup. intros k l Hk.
  unfold applyAnnotations in Hk. rewrite applyFrom_lines in Hk.
  destruct (Split src newline !! k) as [line|] eqn:E; [|done].
  simpl in Hk. injection Hk as <-.
  pose proof (Split_noSep src newline) as Hall.
  rewrite Forall_lookup in Hall. specialize (Hall k line E). simpl in Hall.
  unfold patchedAt.
  destruct (annotations !! (0 + Z.of_nat k)) as [name|] eqn:Ea; [|done].
  apply patched_noByte; [done|]. apply hasByte_trailingComment.
  by eapply Hnl.
Qed.

Section walk.

Variable h : Host.
Variables root project dir : string.

Lemma walkDir_app before : forall after w result w1 r1,
  walkDir h root project dir before w result = (w1, r1, None) ->
  walkDir h root project dir (before ++ after) w result
  = walkDir h root project dir after w1 r1.
Proof.
  induction before as [|ev before IH]; intros after w result w1 r1 H.
  - simpl in H. by injection H as -> ->.
  - destruct ev as [path name isDir|path err]; simpl in *; [|done].
    destruct (isDir || negb (HasSuffix name ".go")); [by apply IH|].
    destruct (processSourceFile h root path project dir w result)
      as [[w' r'] e]. by apply IH.
Qed.

(** Only a failure of the walk itself ends the walk. *)
Lemma walkDir_no_failure events : forall w result,
  (forall path err, Failure path err ∉ events) ->
  (walkDir h root project dir events w result).2 = None.
Proof.
  induction events as [|ev events IH]; intros w result Hno; [done|].
  assert (Hrest : forall path err, Failure path err ∉ events).
  { intros path err Hin. apply (Hno path err). by right. }
  destruct ev as [path name isDir|path err]; simpl.
  - destruct (isDir || negb (HasSuffix name ".go")); [by apply IH|].
    destruct (processSourceFile h root path project dir w result)
      as [[w' r'] e]. by apply IH.
  - exfalso. apply (Hno path err). left.
Qed.

Lemma walkDir_failing_file path name after w result w' r' e :
  HasSuffix name ".go" = true ->
  processSourceFile h root path project dir w result = (w', r', Some e) ->
  walkDir h root project dir (Visit path name false :: after) w result
  = walkDir h root project dir after w'
      (AddError ("processing " +:+ path +:+ ": " +:+ e) r').
Proof. intros Hgo Hfile. simpl. by rewrite Hgo, Hfile. Qed.

End walk.

Lemma Run_verdict h w root :
  os_Getwd h = Ok root ->
  (Run h w).1 = (processSourceDirectories h root (getProjectPrefix h) w).1
  /\ ((Run h w).2 = None
      <-> Errors (processSourceDirectories h root (getProjectPrefix h) w).2
          = []).
Proof.
  intros Hwd. unfold Run. rewrite Hwd.
  destruct (processSourceDirectories h root (getProjectPrefix h) w)
    as [w' result].
  unfold HasErrors. simpl.
  destruct (Errors result) as [|e es]; simpl; [done|].
  split; [done|]. split; done.
Qed.

(** *** What a file, a walk and a directory do in all *)

(** What [processFile] does to the file system, once the file is read
    and parsed. *)
Lemma processFile_world h filename prefix variant w result src f :
  ReadFile h w filename = Ok src ->
  parser_ParseFile h filename src = Ok f ->
  let out := applyAnnotations (Split src newline)
               (planOf h f (Split src newline) variant).1 prefix result in
  let res := processFile h filename prefix variant w result in
  res.1.2 = out.2
  /\ ((res.1.1 = w /\ (res.2 <> None \/ out = (Split src newline, 0%nat, result)))
      \/ (res.2 = None
          /\ res.1.1
             = {| files := <[filename := Join out.1.1 (String newline "")]>
                             (files w);
                  written := written w ++ [filename] |})
      \/ (res.2 <> None
          /\ exists n,
               res.1.1
               = {| files := <[filename := take n (Join out.1.1
                                                    (String newline ""))]>
                               (files w);
                    written := written w ++ [filename] |})).
Proof.
  intros Hread Hparse. cbv zeta.
  rewrite (processFile_parsed _ _ _ _ _ _ _ _ Hread Hparse). cbv zeta.
  pose proof (applyFrom_count_same (Split src newline) 0
                (planOf h f (Split src newline) variant).1 prefix 0%nat result)
    as Hsame.
  fold (applyAnnotations (Split src newline)
          (planOf h f (Split src newline) variant).1 prefix result) in Hsame.
  destruct (applyAnnotations _ _ _ _) as [[lines' n] r']. simpl in *.
  destruct n as [|n]; simpl.
  - split; [done|]. left. split; [done|]. right. by apply Hsame.
  - unfold writeFile, WriteFile.
    destruct (WriteFail h filename) as [[e [k|]]|]; simpl.
    + split; [done|]. right. right. split; [done|]. by exists k.
    + split; [done|]. left. split; [done|]. by left.
    + split; [done|]. right. by left.
Qed.

(** [processFile] on any input: the file system afterwards is the one
    before, or the one before with [filename], which was there, written
    once, in full or in part; the counter of files and the errors are not
    its business. *)
Lemma processFile_cases h filename prefix variant w result :
  let res := processFile h filename prefix variant w result in
  (res.1.1 = w
   \/ (is_Some (files w !! filename)
       /\ exists new,
            res.1.1 = {| files := <[filename := new]> (files w);
                         written := written w ++ [filename] |}))
  /\ FilesProcessed res.1.2 = FilesProcessed result
  /\ Errors res.1.2 = Errors result.
Proof.
  cbv zeta.
  destruct (ReadFile h w filename) as [src|e] eqn:Hread.
  2:{ unfold processFile. rewrite Hread. simpl. split; [by left|done]. }
  destruct (parser_ParseFile h filename src) as [f|e] eqn:Hparse.
  2:{ unfold processFile. rewrite Hread, Hparse. simpl.
      split; [by left|done]. }
  destruct (processFile_world h filename prefix variant w result src f
              Hread Hparse) as [Hres Hw].
  destruct (patcher_counters (Split src newline)
              (planOf h f (Split src newline) variant).1 prefix result)
    as (Hf & He & _).
  rewrite Hres. split; [|done].
  assert (Hthere : is_Some (files w !! filename)).
  { unfold ReadFile in Hread. destruct (ReadFail h filename); [done|].
    by destruct (files w !! filename). }
  destruct Hw as [[Hw _]|[[_ Hw]|[_ [n Hw]]]]; [by left| |];
    right; (split; [done|by eexists]).
Qed.

(** [processSourceFile] on any input: it writes, and counts, a file of
    the layout only, and leaves the errors as they are. *)
Lemma processSourceFile_cases h root path project dir w result :
  let res := processSourceFile h root path project dir w result in
  (res.1.1 = w
   \/ (inLayout h root path = true
       /\ is_Some (files w !! path)
       /\ exists new,
            res.1.1 = {| files := <[path := new]> (files w);
                         written := written w ++ [path] |}))
  /\ FilesProcessed res.1.2
     = (FilesProcessed result
        + if inLayout h root path then 1 else 0)%nat
  /\ (res.2 = None \/ inLayout h root path = true
      \/ exists e, res.2 = Some ("resolving relative path: " +:+ e))
  /\ Errors res.1.2 = Errors result.
Proof.
  cbv zeta. unfold processSourceFile, inLayout.
  destruct (filepath_Rel h _ path) as [rel|e].
  2:{ simpl. split; [by left|]. split; [by rewrite Nat.add_0_r|].
      split; [|done]. right. right. by exists e. }
  destruct (Nat.ltb_spec (length (Split rel (filepath_Separator h))) 2);
    destruct (Nat.leb_spec 2 (length (Split rel (filepath_Separator h))));
    try lia; simpl.
  { split; [by left|]. split; [by rewrite Nat.add_0_r|].
    split; [by left|done]. }
  destruct (processFile_cases h path
              (project +:+ "." +:+ nth 1 (Split rel (filepath_Separator h)) ""
               +:+ ".") dir w (AddFile result)) as (Hw & Hf & He).
  rewrite Hf, He. simpl.
  split; [|split; [by rewrite Nat.add_1_r|split; [by right; left|done]]].
  destruct Hw as [Hw|(Hs & Hnew)]; [by left|]. by right.
Qed.

Lemma rewrites_refl paths w : rewrites paths w w.
Proof.
  split; [done|]. split; [done|]. exists []. by rewrite List.app_nil_r.
Qed.

Lemma rewrites_mono paths paths' w w' :
  paths ⊆ paths' -> rewrites paths w w' -> rewrites paths' w w'.
Proof.
  intros Hsub (Hframe & Hdom & ws & Hws & Hall).
  split; [|split; [done|]].
  - intros path Hno. apply Hframe. intros Hin. by apply Hno, Hsub.
  - exists ws. split; [done|]. eapply Forall_impl; [exact Hall|].
    intros p Hp. by apply Hsub.
Qed.

Lemma rewrites_trans paths w1 w2 w3 :
  rewrites paths w1 w2 -> rewrites paths w2 w3 -> rewrites paths w1 w3.
Proof.
  intros (Hf1 & Hd1 & ws1 & Hw1 & Ha1) (Hf2 & Hd2 & ws2 & Hw2 & Ha2).
  split; [|split].
  - intros path Hno. by rewrite Hf2, Hf1.
  - intros path. by rewrite Hd2, Hd1.
  - exists (ws1 ++ ws2). split; [by rewrite Hw2, Hw1, <- List.app_assoc|].
    by apply Forall_app.
Qed.

Lemma rewrites_one path new w :
  is_Some (files w !! path) ->
  rewrites [path] w {| files := <[path := new]> (files w);
                       written := written w ++ [path] |}.
Proof.
  intros Hsome. split; [|split]; simpl.
  - intros p Hp. apply lookup_insert_ne. intros ->. apply Hp. left.
  - intros p. destruct (decide (path = p)) as [<-|Hne].
    + rewrite lookup_insert_eq. split; [done|]. by eexists.
    + by rewrite lookup_insert_ne.
  - exists [path]. split; [done|]. constructor; [left|constructor].
Qed.

(** What a walk does in all: the files it may have overwritten, the
    files it has counted and the errors it has recorded. *)
Lemma walkDir_account h root project dir events : forall w result,
  let res := walkDir h root project dir events w result in
  rewrites (processedFiles h root events) w res.1.1
  /\ FilesProcessed res.1.2
     = (FilesProcessed result
        + length (List.filter (counted h root) (untilFailure events)))%nat
  /\ exists errs,
       Errors res.1.2 = Errors result ++ errs
       /\ (length errs
           <= length (List.filter isGoFile (untilFailure events)))%nat
       /\ Forall (fun e => HasPrefix e "processing " = true) errs.
Proof.
  induction events as [|ev events IH]; intros w result; cbv zeta.
  - simpl. split; [apply rewrites_refl|]. split; [by rewrite Nat.add_0_r|].
    exists []. by rewrite List.app_nil_r.
  - destruct ev as [path name isDir|path err].
    2:{ simpl. split; [apply rewrites_refl|].
        split; [by rewrite Nat.add_0_r|]. exists []. by rewrite List.app_nil_r. }
    unfold processedFiles. simpl.
    destruct (isDir || negb (HasSuffix name ".go")) eqn:Hskip.
    { assert (Hgo : negb isDir && HasSuffix name ".go" = false)
        by (destruct isDir, (HasSuffix name ".go"); done).
      rewrite Hgo. simpl. apply IH. }
    assert (Hgo : negb isDir && HasSuffix name ".go" = true)
      by (destruct isDir, (HasSuffix name ".go"); done).
    rewrite Hgo. simpl.
    destruct (processSourceFile_cases h root path project dir w result)
      as (Hw & Hf & Herr & He).
    destruct (processSourceFile h root path project dir w result)
      as [[w1 r1] e1]. simpl in *.
    set (r2 := match e1 with
               | Some e => AddError ("processing " +:+ path +:+ ": " +:+ e) r1
               | None => r1
               end).
    destruct (IH w1 r2) as (Hw2 & Hf2 & errs & He2 & Hlen & Hall).
    assert (Hfr2 : FilesProcessed r2 = FilesProcessed r1)
      by (unfold r2; by destruct e1).
    split; [|split].
    + eapply rewrites_trans.
      * apply (rewrites_mono
                 (if inLayout h root path then [path] else [])).
        { destruct (inLayout h root path); simpl; [|set_solver].
          intros p Hp. apply list_elem_of_singleton in Hp as ->. left. }
        destruct Hw as [->|(Hin & Hs & new & ->)];
          [apply rewrites_refl|].
        rewrite Hin. by apply rewrites_one.
      * eapply rewrites_mono; [|exact Hw2].
        unfold processedFiles.
        destruct (inLayout h root path); simpl; [|done].
        intros p Hp. by right.
    + rewrite Hf2, Hfr2, Hf.
      destruct (inLayout h root path); simpl; lia.
    + destruct e1 as [e|]; simpl in *.
      * exists (("processing " +:+ path +:+ ": " +:+ e) :: errs).
        split; [|split].
        -- rewrite He2. unfold r2. simpl.
           by rewrite He, <- List.app_assoc.
        -- simpl. lia.
        -- constructor; [|done]. apply HasPrefix_app.
      * exists errs. split; [by rewrite He2; unfold r2; rewrite He|].
        split; [lia|done].
Qed.

Lemma processDir_account h root project st dir :
  let events := filepath_Walk h (filepath_Join h [root; basePath; dir]) in
  let out := processDir h root project st dir in
  rewrites (processedFiles h root events) st.1 out.1
  /\ FilesProcessed out.2
     = (FilesProcessed st.2
        + length (List.filter (counted h root) (untilFailure events)))%nat
  /\ exists errs,
       Errors out.2 = Errors st.2 ++ errs
       /\ Forall (fun e => HasPrefix e "processing " = true
                           \/ HasPrefix e "walking directory " = true) errs.
Proof.
  cbv zeta. unfold processDir.
  destruct (walkDir_account h root project dir
              (filepath_Walk h (filepath_Join h [root; basePath; dir]))
              st.1 st.2) as (Hw & Hf & errs & He & _ & Hall).
  destruct (walkDir _ _ _ _ _ _ _) as [[w1 r1] e1]. simpl in *.
  assert (Hall' : Forall (fun e => HasPrefix e "processing " = true
                                   \/ HasPrefix e "walking directory " = true)
                    errs).
  { eapply Forall_impl; [exact Hall|]. intros e Hp. by left. }
  destruct e1 as [e|]; simpl.
  - split; [done|]. split; [done|].
    exists (errs ++ ["walking directory "
                     +:+ filepath_Join h [root; basePath; dir] +:+ ": " +:+ e]).
    split; [by rewrite He, <- List.app_assoc|].
    apply Forall_app. split; [done|].
    constructor; [|constructor]. right. apply HasPrefix_app.
  - split; [done|]. split; [done|]. by exists errs.
Qed.

(** The errors of a walk are errors of its directory. *)
Lemma walk_errors_recorded h root project st dir err :
  err ∈ Errors (walkDir h root project dir
                  (filepath_Walk h (filepath_Join h [root; basePath; dir]))
                  st.1 st.2).1.2 ->
  err ∈ Errors (processDir h root project st dir).2.
Proof.
  unfold processDir.
  destruct (walkDir _ _ _ _ _ _ _) as [[w1 r1] [e|]]; simpl; [|done].
  intros Hin. apply elem_of_app. by left.
Qed.

End PipelineFacts.

(** * The claims of the specification *)

Import Str StrFacts PatchFacts PlanFacts SetFacts LineFacts SuffixFacts
  PipelineFacts.

(** C1, as the specification states it, fails: running the pipeline on its
    own output can change the file again.  In the sample file a stale
    directive followed by the ignore marker closes [Foo], one line above
    [Bar]: the first run takes [Bar] for ignored and replaces the comment,
    marker included; the second run no longer ignores [Bar], adds its
    directive and writes the file a second time. *)
Lemma second_run_rewrites_counterexample :
  let run := processFile Sample.host Sample.fooPath "proj.v1." "response" in
  let w1 := Sample.rewritten Sample.staleWorld Sample.fooPath Sample.fooText in
  let w2 := Sample.rewritten w1 Sample.fooPath Sample.fooBarText in
  run Sample.staleWorld newResult = (w1, ReplaceAnnotation newResult, None)
  /\ run w1 (ReplaceAnnotation newResult)
     = (w2, AddAnnotation (ReplaceAnnotation newResult), None)
  /\ files w2 !! Sample.fooPath <> files w1 !! Sample.fooPath
  /\ written w2 = [Sample.fooPath; Sample.fooPath].
Proof.
  simpl. split; [vm_compute; reflexivity|].
  split; [vm_compute; reflexivity|].
  split; [vm_compute; discriminate|reflexivity].
Qed.

(** C1, amended: when a run of the file pipeline succeeds, no directive
    text holds a line break, and the patched file parses to a syntax tree
    that gives the same annotation plan, a second run on the output reads
    lines that [applyAnnotations] leaves byte for byte as they are,
    returning 0, and the file is not written again: the state of the
    files and the counters stay as the first run left them. *)
Theorem second_run_same_plan (h : Host) (filename prefix variant : string)
    (w w1 : World) (result r1 : ProcessingResult) (src : string)
    (f : ast.File) :
  files w !! filename = Some src ->
  parser_ParseFile h filename src = Ok f ->
  processFile h filename prefix variant w result = (w1, r1, None) ->
  (forall l name,
      (planOf h f (Split src newline) variant).1 !! l = Some name ->
      hasByte newline (prefix +:+ name) = false) ->
  (forall src1,
      files w1 !! filename = Some src1 ->
      exists f1,
        parser_ParseFile h filename src1 = Ok f1
        /\ (planOf h f1 (Split src1 newline) variant).1
           = (planOf h f (Split src newline) variant).1) ->
  processFile h filename prefix variant w1 r1 = (w1, r1, None)
  /\ (forall src1 f1,
         files w1 !! filename = Some src1 ->
         parser_ParseFile h filename src1 = Ok f1 ->
         applyAnnotations (Split src1 newline)
           (planOf h f1 (Split src1 newline) variant).1 prefix r1
         = (Split src1 newline, 0%nat, r1)).
Proof.
  intros Hsrc Hparse Hrun Hnl Hsame.
  assert (Hfail : ReadFail h filename = None).
  { destruct (ReadFail h filename) as [e|] eqn:E; [|done].
    unfold processFile, ReadFile in Hrun. by rewrite E in Hrun. }
  assert (Hread : ReadFile h w filename = Ok src).
  { unfold ReadFile. by rewrite Hfail, Hsrc. }
  rewrite (processFile_parsed h filename prefix variant w result src f
             Hread Hparse) in Hrun.
  set (plan := (planOf h f (Split src newline) variant).1) in *.
  set (out := applyAnnotations (Split src newline) plan prefix result) in *.
  simpl in Hrun.
  assert (Hnames : forall k name, plan !! k = Some name -> endsSolid name).
  { intros k name Hk.
    by destruct (planned_addAnnotations h f _ variant _ k name Hk) as [? _]. }
  (* what the second run reads and plans *)
  assert (Hsecond : exists src1 f1,
             files w1 !! filename = Some src1
             /\ parser_ParseFile h filename src1 = Ok f1
             /\ (planOf h f1 (Split src1 newline) variant).1 = plan
             /\ Split src1 newline = out.1.1 /\ r1 = out.2).
  { destruct (Nat.ltb_spec 0 out.1.2) as [Hpos|Hzero].
    - unfold writeFile, WriteFile in Hrun.
      destruct (WriteFail h filename) as [[e [n|]]|]; [done|done|].
      injection Hrun as <- <-. simpl in Hsame.
      specialize (Hsame _ (lookup_insert_eq _ _ _)) as (f1 & Hp1 & Hplan1).
      exists (Join out.1.1 (String newline "")), f1.
      split; [simpl; apply lookup_insert_eq|].
      assert (Hsplit : Split (Join out.1.1 (String newline "")) newline
                       = out.1.1).
      { apply Split_Join.
        - intros Hnil. apply (f_equal length) in Hnil.
          unfold out, applyAnnotations in Hnil.
          rewrite applyFrom_length in Hnil.
          pose proof (Split_nonempty src newline).
          by destruct (Split src newline).
        - by apply patched_lines_noNewline. }
      by rewrite Hsplit in *.
    - injection Hrun as <- <-.
      destruct (Hsame src Hsrc) as (f1 & Hp1 & Hplan1).
      exists src, f1. split; [done|]. split; [done|]. split; [done|].
      assert (Hout : out = (Split src newline, 0%nat, result)).
      { apply applyFrom_count_same.
        fold (applyAnnotations (Split src newline) plan prefix result).
        fold out. lia. }
      by rewrite Hout. }
  destruct Hsecond as (src1 & f1 & Hsrc1 & Hp1 & Hplan1 & Hlines1 & Hr1).
  assert (Hagain : applyAnnotations (Split src1 newline)
                     (planOf h f1 (Split src1 newline) variant).1 prefix r1
                   = (Split src1 newline, 0%nat, r1)).
  { rewrite Hplan1, Hlines1. unfold out, applyAnnotations.
    by apply applyFrom_idempotent. }
  split.
  - assert (Hread1 : ReadFile h w1 filename = Ok src1).
    { unfold ReadFile. by rewrite Hfail, Hsrc1. }
    rewrite (processFile_parsed h filename prefix variant w1 r1 src1 f1
               Hread1 Hp1).
    by rewrite Hagain.
  - intros src1' f1' Hs Hp. rewrite Hsrc1 in Hs. injection Hs as <-.
    rewrite Hp1 in Hp. by injection Hp as <-.
Qed.

(** The sample file with the directive of [Foo] in place: the first run
    adds the directive of [Bar], the second run changes nothing. *)
Lemma second_run_same_plan_witness :
  let run := processFile Sample.host Sample.fooPath "proj.v1." "response" in
  let w1 := Sample.rewritten Sample.fooWorld Sample.fooPath Sample.fooBarText in
  run Sample.fooWorld newResult = (w1, AddAnnotation newResult, None)
  /\ run w1 (AddAnnotation newResult) = (w1, AddAnnotation newResult, None).
Proof.
  simpl.
  assert (Hrun : processFile Sample.host Sample.fooPath "proj.v1." "response"
                   Sample.fooWorld newResult
                 = (Sample.rewritten Sample.fooWorld Sample.fooPath
                      Sample.fooBarText,
                    AddAnnotation newResult, None))
    by (vm_compute; reflexivity).
  split; [exact Hrun|].
  apply (second_run_same_plan Sample.host Sample.fooPath "proj.v1." "response"
           Sample.fooWorld _ newResult _ Sample.fooText Sample.fooFile).
  - vm_compute; reflexivity.
  - vm_compute; reflexivity.
  - exact Hrun.
  - intros l name Hl.
    assert (Hplan : (planOf Sample.host Sample.fooFile
                       (Split Sample.fooText newline) "response").1
                    = <[4 := "FooRes"]> (<[7 := "BarRes"]> ∅))
      by (vm_compute; reflexivity).
    rewrite Hplan in Hl.
    apply lookup_insert_Some in Hl as [[_ <-]|[_ Hl]]; [reflexivity|].
    apply lookup_insert_Some in Hl as [[_ <-]|[_ Hl]]; [reflexivity|].
    by rewrite lookup_empty in Hl.
  - intros src1 Hsrc1. simpl in Hsrc1. rewrite lookup_insert_eq in Hsrc1.
    injection Hsrc1 as <-. exists Sample.fooBarFile.
    split; vm_compute; reflexivity.
Defined.

(** C2 fails on the code: the offset of the stale marker is found in the
    trimmed line and cuts the line itself, so that on a line that starts
    with white space the cut falls before the marker.  Here the line is
    indented by four spaces: the marker starts at offset 6 of the line and
    at offset 2 of the trimmed line, the line is cut at offset 2, and the
    closing brace of the declaration is lost with the stale directive. *)
Theorem stale_replacement_cuts_declaration :
  FindStringIndex "    } // @name old.v1.Foo" = Some (6%nat, 25%nat)
  /\ TrimSpace "    } // @name old.v1.Foo" = "} // @name old.v1.Foo"
  /\ FindStringIndex "} // @name old.v1.Foo" = Some (2%nat, 21%nat)
  /\ applyAnnotations ["    } // @name old.v1.Foo"] {[0 := "FooRes"]}
       "proj.v1." newResult
     = (["   // @name proj.v1.FooRes"], 1%nat, ReplaceAnnotation newResult).
Proof. repeat split; vm_compute; reflexivity. Qed.

(** C3: a declaration that is exported, not ignored and classified as
    generic instantiation or alias of base [SearchResponse] with inner
    type [T] gets the primary name [<declared name>Res] whatever the
    variant, and the secondary name [T] without its suffix plus [ItemRes]
    in the response variant and [ItemReq] otherwise; the secondary name
    enters the plan only on the last line of a declaration named [T] that
    is in the file and not ignored, and it does so for every such
    declaration when the name is not given yet. *)
Theorem wrapper_item_naming (h : Host) (f : ast.File) (variant : string)
    (ignoredTypes inner : gset string) (p : Plan) (ts : ast.TypeSpec)
    (T : string) :
  IsExported h (ast.Name ts) = true ->
  ast.Name ts ∉ ignoredTypes ->
  IsGeneric (extractTypeInfo ts) || IsAlias (extractTypeInfo ts) = true ->
  GenericBase (extractTypeInfo ts) = "SearchResponse" ->
  InnerType (extractTypeInfo ts) = T ->
  T <> "" ->
  let mainName := ast.Name ts +:+ "Res" in
  let itemName := itemNameOf variant T in
  let p1 := planMain ts mainName p in
  generateAnnotationNameWithContext (extractTypeInfo ts) variant inner
  = (mainName, itemName)
  /\ annotateSpec h f variant ignoredTypes inner p ts
     = planSecondary f ignoredTypes (extractTypeInfo ts) itemName p1
  /\ (forall l n,
         (planSecondary f ignoredTypes (extractTypeInfo ts) itemName p1).1 !! l
         = Some n ->
         p1.1 !! l = Some n
         \/ (n = itemName
             /\ (exists its, its ∈ ast.Decls f /\ ast.Name its = T
                             /\ (T ∉ ignoredTypes)
                             /\ ast.EndLine its - 1 = l)))
  /\ (forall its,
         itemName ∉ p1.2 -> its ∈ ast.Decls f -> ast.Name its = T ->
         T ∉ ignoredTypes ->
         (planSecondary f ignoredTypes (extractTypeInfo ts) itemName p1).1
           !! (ast.EndLine its - 1) = Some itemName).
Proof.
  intros Hexp Hign Hflags Hbase Hinner HT mainName itemName p1.
  assert (Hname : Name (extractTypeInfo ts) = ast.Name ts).
  { apply extractTypeInfo_name. by rewrite Hbase. }
  assert (Hne : String.eqb (ast.Name ts) "" = false).
  { apply String.eqb_neq. by eapply IsExported_nonempty. }
  assert (HTne : String.eqb T "" = false) by by apply String.eqb_neq.
  assert (Hgen : generateAnnotationNameWithContext (extractTypeInfo ts)
                   variant inner = (mainName, itemName)).
  { unfold generateAnnotationNameWithContext.
    rewrite Hname, Hne, Hflags, Hbase, Hinner, HTne. simpl.
    unfold mainName, itemName, itemNameOf.
    by destruct (String.eqb variant "response"). }
  assert (Hitem : String.eqb itemName "" = false).
  { apply String.eqb_neq. unfold itemName, itemNameOf. intros H.
    apply (f_equal String.length) in H. rewrite length_app in H.
    destruct (String.eqb variant "response"); simpl in H; lia. }
  split; [done|]. split.
  { unfold annotateSpec. rewrite Hexp. simpl.
    rewrite bool_decide_eq_false_2 by done.
    by rewrite Hname, Hne, Hgen. }
  split.
  - intros l n. unfold planSecondary. rewrite Hitem, Hinner, HTne. simpl.
    case_bool_decide; [by left|]. simpl. unfold planItem.
    apply planItem_lookup.
  - intros its Hfree Hin Hn Hnot. unfold planSecondary.
    rewrite Hitem, Hinner, HTne. simpl.
    rewrite bool_decide_eq_false_2 by done. simpl.
    by apply planItem_sets.
Qed.

(** The wrapper of the sample file, in a request file: the item of
    [WidgetResponse] is named [WidgetItemReq], the wrapper
    [WidgetListRes]. *)
Lemma wrapper_item_naming_witness :
  let ts := Sample.wrapperSpec "WidgetList" "WidgetResponse" 7 in
  generateAnnotationNameWithContext (extractTypeInfo ts) "request" ∅
  = ("WidgetListRes", "WidgetItemReq")
  /\ (annotateSpec Sample.host Sample.widgetFile "request" ∅ ∅ (∅, ∅) ts).1
     = <[4 := "WidgetItemReq"]> (<[6 := "WidgetListRes"]> ∅).
Proof.
  simpl.
  assert (Hfree : "WidgetList" ∉ (∅ : gset string)) by apply not_elem_of_empty.
  assert (HT : "WidgetResponse" <> "") by discriminate.
  destruct (wrapper_item_naming Sample.host Sample.widgetFile "request" ∅ ∅
              (∅, ∅) (Sample.wrapperSpec "WidgetList" "WidgetResponse" 7)
              "WidgetResponse" eq_refl Hfree eq_refl eq_refl eq_refl HT)
    as (Hgen & Hspec & _ & _).
  split; [exact Hgen|]. rewrite Hspec. vm_compute. reflexivity.
Defined.




(** C5: once a file is read and parsed, every line whose index is not in
    the plan comes out of the patcher byte for byte as it went in; when
    the count the patcher returns is 0 nothing has changed and the file
    is not written; when it is positive the lines are written; and a file
    whose planned lines all hold the text of their expected directive
    gives the count 0 and is not written. *)
Theorem patch_frame (h : Host) (filename prefix variant : string) (w : World)
    (result : ProcessingResult) (src : string) (f : ast.File) :
  ReadFile h w filename = Ok src ->
  parser_ParseFile h filename src = Ok f ->
  let lines := Split src newline in
  let annotations := (planOf h f lines variant).1 in
  let out := applyAnnotations lines annotations prefix result in
  (forall i, annotations !! Z.of_nat i = None -> out.1.1 !! i = lines !! i)
  /\ (out.1.2 = 0%nat ->
      out = (lines, 0%nat, result)
      /\ processFile h filename prefix variant w result = (w, result, None))
  /\ ((0 < out.1.2)%nat ->
      processFile h filename prefix variant w result
      = match writeFile h w filename out.1.1 with
        | (w', Some e) => (w', out.2, Some ("writing file: " +:+ e))
        | (w', None) => (w', out.2, None)
        end)
  /\ ((forall i name line,
          annotations !! Z.of_nat i = Some name -> lines !! i = Some line ->
          exists pre post,
            line = pre +:+ expectedDirective prefix name +:+ post) ->
      out = (lines, 0%nat, result)
      /\ processFile h filename prefix variant w result = (w, result, None)).
Proof.
  intros Hread Hparse lines annotations out.
  pose proof (processFile_parsed h filename prefix variant w result src f
                Hread Hparse) as Hfile.
  fold lines annotations out in Hfile. simpl in Hfile.
  assert (Hzero : out.1.2 = 0%nat ->
                  out = (lines, 0%nat, result)
                  /\ processFile h filename prefix variant w result
                     = (w, result, None)).
  { intros H0. assert (Hout : out = (lines, 0%nat, result))
      by by apply applyFrom_count_same.
    split; [done|]. rewrite Hfile, Hout. done. }
  split; [intros i; apply applyAnnotations_frame|].
  split; [done|]. split.
  - intros Hpos. rewrite Hfile.
    by destruct (Nat.ltb_spec 0 out.1.2); [|lia].
  - intros Hall. apply Hzero.
    unfold out, applyAnnotations. rewrite applyFrom_all_kept; [done|].
    intros k name line Hk Hline.
    replace (0 + Z.of_nat k) with (Z.of_nat k) in Hk by lia.
    destruct (Hall k name line Hk Hline) as (pre & post & ->).
    apply patchLine_keep.
    by destruct (planned_addAnnotations h f _ variant _ _ name Hk) as [? _].
Qed.

(** The sample file with both directives in place is not written. *)
Lemma patch_frame_witness :
  processFile Sample.host Sample.fooPath "proj.v1." "response"
    Sample.fooBarWorld newResult
  = (Sample.fooBarWorld, newResult, None).
Proof.
  assert (Hread : ReadFile Sample.host Sample.fooBarWorld Sample.fooPath
                  = Ok Sample.fooBarText) by (vm_compute; reflexivity).
  assert (Hparse : parser_ParseFile Sample.host Sample.fooPath
                     Sample.fooBarText = Ok Sample.fooBarFile)
    by (vm_compute; reflexivity).
  destruct (patch_frame Sample.host Sample.fooPath "proj.v1." "response"
              Sample.fooBarWorld newResult Sample.fooBarText Sample.fooBarFile
              Hread Hparse) as (_ & Hzero & _ & _).
  apply Hzero. vm_compute. reflexivity.
Defined.

(** C6, as the specification states it, fails: on a name that ends with
    [RequestResponse] both strips match and both suffixes are removed, and
    the name generated for a declaration of that name is built on what is
    left. *)
Lemma stripSuffixes_counterexample :
  HasSuffix "FooRequestResponse" "Response" = true
  /\ HasSuffix (TrimSuffix "FooRequestResponse" "Response") "Request" = true
  /\ stripSuffixes "FooRequestResponse" = "Foo"
  /\ generateAnnotationNameWithContext
       (extractTypeInfo (Sample.structSpec "FooRequestResponse" 3 5))
       "response" ∅
     = ("FooRes", "").
Proof. repeat split; reflexivity. Qed.

(** C6, amended: the name generator strips a trailing [Response] and
    then a trailing [Request], in that order, from the declared name of a
    declaration that is no search response wrapper, and from the name of
    the inner type of a wrapper; the primary name of a wrapper is its
    declared name with [Res], nothing stripped.  What the two strips leave
    of a name is the name without both suffixes when it ends with
    [RequestResponse], the only case in which both match, and else the
    name without the one suffix it ends with, if any. *)
Theorem generated_names_stripped (info : TypeInfo) (variant : string)
    (inner : gset string) :
  Name info <> "" ->
  let names := generateAnnotationNameWithContext info variant inner in
  let topSuffix := if String.eqb variant "response" then "Res" else "Req" in
  let itemSuffix :=
    if String.eqb variant "response" then "ItemRes" else "ItemReq" in
  (if (IsGeneric info || IsAlias info)
      && String.eqb (GenericBase info) "SearchResponse"
   then names.1 = Name info +:+ "Res"
        /\ names.2 = (if String.eqb (InnerType info) "" then ""
                      else withoutSuffix (InnerType info) +:+ itemSuffix)
   else names.1 = withoutSuffix (Name info)
                  +:+ (if bool_decide (Name info ∈ inner)
                       then itemSuffix else topSuffix)
        /\ names.2 = "")
  /\ (forall name,
         withoutSuffix name
         = TrimSuffix (TrimSuffix name "Response") "Request")
  /\ (forall name,
         HasSuffix name "Response"
         && HasSuffix (TrimSuffix name "Response") "Request"
         = HasSuffix name "RequestResponse").
Proof.
  intros Hname. cbv zeta.
  assert (Hstrip : forall name, stripSuffixes name = withoutSuffix name).
  { intros name. by destruct (stripSuffixes_cases name) as [_ ->]. }
  split; [|split].
  - unfold generateAnnotationNameWithContext.
    destruct (String.eqb_spec (Name info) ""); [done|].
    destruct ((IsGeneric info || IsAlias info)
              && String.eqb (GenericBase info) "SearchResponse"); simpl.
    + split; [done|].
      destruct (String.eqb (InnerType info) ""); simpl; [done|].
      rewrite Hstrip. by destruct (String.eqb variant "response").
    + split; [|done]. rewrite Hstrip.
      by destruct (bool_decide _), (String.eqb variant "response").
  - intros name. by rewrite <- Hstrip.
  - intros name. by destruct (stripSuffixes_cases name) as [-> _].
Qed.

(** A request payload and a search response wrapper, in the request
    variant. *)
Lemma generated_names_stripped_witness :
  let payload := extractTypeInfo (Sample.structSpec "CreateRequest" 5 7) in
  let wrapper :=
    extractTypeInfo (Sample.wrapperSpec "WidgetList" "WidgetResponse" 7) in
  (generateAnnotationNameWithContext payload "request" ∅).1 = "CreateReq"
  /\ (generateAnnotationNameWithContext wrapper "request" ∅).2
     = "WidgetItemReq".
Proof.
  cbv zeta. split.
  - destruct (generated_names_stripped
                (extractTypeInfo (Sample.structSpec "CreateRequest" 5 7))
                "request" ∅) as [[H1 _] _]; [done|].
    rewrite H1. reflexivity.
  - destruct (generated_names_stripped
                (extractTypeInfo
                   (Sample.wrapperSpec "WidgetList" "WidgetResponse" 7))
                "request" ∅) as [[_ H2] _]; [done|].
    rewrite H2. reflexivity.
Defined.

(** C7, as the specification states it, fails: the inner-type set is not
    invariant under a permutation of the declarations of a file, because
    the ignore set is not.  The two sample files hold the same three
    declarations, and the same lines; in the first the wrapper [List]
    follows [Foo], whose closing brace bears the marker, and is ignored, so
    that the inner-type set is empty; in the second [List] stands before
    [Foo], the marker now lies one line above [Item], which is ignored,
    and the inner-type set holds [Item]. *)
Lemma moved_declaration_counterexample :
  let below := Split Sample.listBelowText newline in
  let above := Split Sample.listAboveText newline in
  shapeOf <$> ast.Decls Sample.listAboveFile
  ≡ₚ shapeOf <$> ast.Decls Sample.listBelowFile
  /\ above ≡ₚ below
  /\ ignoredOf Sample.host Sample.listBelowFile below = {["List"]}
  /\ ignoredOf Sample.host Sample.listAboveFile above = {["Item"]}
  /\ innerTypesOf Sample.host Sample.listBelowFile below = ∅
  /\ innerTypesOf Sample.host Sample.listAboveFile above = {["Item"]}
  /\ innerTypesOf Sample.host Sample.listAboveFile above
     <> innerTypesOf Sample.host Sample.listBelowFile below.
Proof.
  cbv zeta.
  assert (Hbelow : innerTypesOf Sample.host Sample.listBelowFile
                     (Split Sample.listBelowText newline) = ∅)
    by (vm_compute; reflexivity).
  assert (Habove : innerTypesOf Sample.host Sample.listAboveFile
                     (Split Sample.listAboveText newline) = {["Item"]})
    by (vm_compute; reflexivity).
  split.
  { simpl. apply Permutation_swap. }
  split.
  { vm_compute. do 2 apply perm_skip.
    etrans; [apply Permutation_swap|]. apply perm_skip.
    etrans; [apply Permutation_swap|]. apply perm_skip.
    apply Permutation_swap. }
  split; [vm_compute; reflexivity|].
  split; [vm_compute; reflexivity|].
  split; [done|]. split; [done|].
  rewrite Hbelow, Habove. intros Heq.
  assert (Hin : "Item" ∈ ({["Item"]} : gset string)) by set_solver.
  rewrite Heq in Hin. by apply not_elem_of_empty in Hin.
Qed.

(** C7, amended: the inner-type set of a file, which [processFile]
    computes in full before the naming pass starts, holds exactly the inner
    type names of the exported declarations that are not ignored, have
    base [SearchResponse] and a non-empty inner type.  Two files whose
    declarations have the same names and type expressions, in any order
    and at any positions, have the same inner-type set whenever they have
    the same ignore set, as they do when neither bears the marker
    anywhere.  The ignore set itself depends on the positions. *)
Theorem innerTypes_order_independent (h : Host) (f : ast.File)
    (lines : list string) :
  (forall x,
      x ∈ innerTypesOf h f lines
      <-> exists ts, ts ∈ ast.Decls f
            /\ IsExported h (ast.Name ts) = true
            /\ (ast.Name ts ∉ ignoredOf h f lines)
            /\ GenericBase (extractTypeInfo ts) = "SearchResponse"
            /\ InnerType (extractTypeInfo ts) = x
            /\ x <> "")
  /\ (forall f' lines',
         shapeOf <$> ast.Decls f' ≡ₚ shapeOf <$> ast.Decls f ->
         ignoredOf h f' lines' = ignoredOf h f lines ->
         innerTypesOf h f' lines' = innerTypesOf h f lines)
  /\ (forall f' lines',
         shapeOf <$> ast.Decls f' ≡ₚ shapeOf <$> ast.Decls f ->
         markerFree f lines -> markerFree f' lines' ->
         innerTypesOf h f' lines' = innerTypesOf h f lines)
  /\ (forall f' ignoredTypes,
         shapeOf <$> ast.Decls f' ≡ₚ shapeOf <$> ast.Decls f ->
         findSearchResponseInnerTypes h f' ignoredTypes ∅
         = findSearchResponseInnerTypes h f ignoredTypes ∅)
  /\ (forall variant,
         planOf h f lines variant
         = addAnnotations h f variant (ignoredOf h f lines)
             (innerTypesOf h f lines) (∅, ∅)).
Proof.
  assert (Hsame : forall f' lines',
             shapeOf <$> ast.Decls f' ≡ₚ shapeOf <$> ast.Decls f ->
             ignoredOf h f' lines' = ignoredOf h f lines ->
             innerTypesOf h f' lines' = innerTypesOf h f lines).
  { intros f' lines' Hperm Hign. unfold innerTypesOf. rewrite Hign.
    by apply innerTypes_shapes. }
  split; [apply elem_of_innerTypesOf|]. split; [done|]. split.
  - intros f' lines' Hperm Hfree Hfree'. apply Hsame; [done|].
    by rewrite !markerFree_ignoredOf.
  - split; [|done]. intros f' ignoredTypes. apply innerTypes_shapes.
Qed.

(** The sample file and the file with the wrapper moved in front of its
    item: neither bears the marker. *)
Lemma innerTypes_order_independent_witness :
  innerTypesOf Sample.host Sample.widgetAboveFile
    (Split Sample.widgetAboveText newline)
  = innerTypesOf Sample.host Sample.widgetFile
      (Split Sample.widgetText newline).
Proof.
  destruct (innerTypes_order_independent Sample.host Sample.widgetFile
              (Split Sample.widgetText newline)) as (_ & Hsame & _).
  apply Hsame.
  - apply Permutation_swap.
  - vm_compute. reflexivity.
Defined.

(** C8: a file that fails (its read, its parse or its write) makes the
    walk record one error, [processing <path>: <error>], and go on with
    the files after it.  The error is appended to the errors recorded so
    far and stays: it is among the errors at the end of the walk and, when
    the walk is the one of a source directory, among the errors at the end
    of the run, so that [Run] returns the error [encountered <n> errors
    during processing].  A walk is never ended by a file, only by a
    failure of the walk itself; both source directories are processed
    whatever happens in the first; and [Run] returns an error exactly when
    at least one error was recorded.  A write that fails after the open
    leaves the file with the part of the text written so far. *)
Theorem errors_accumulate (h : Host) (root project dir : string)
    (before after : list WalkEvent) (path name : string)
    (w w1 w2 : World) (result r1 r2 : ProcessingResult)
    (e0 : option error) (e : error) :
  os_Getwd h = Ok root ->
  (forall p err, Failure p err ∉ before) ->
  HasSuffix name ".go" = true ->
  walkDir h root project dir before w result = (w1, r1, e0) ->
  processSourceFile h root path project dir w1 r1 = (w2, r2, Some e) ->
  let failure := "processing " +:+ path +:+ ": " +:+ e in
  let events := before ++ Visit path name false :: after in
  walkDir h root project dir events w result
  = walkDir h root project dir after w2 (AddError failure r2)
  /\ (exists later,
         Errors (walkDir h root project dir events w result).1.2
         = Errors r1 ++ failure :: later)
  /\ (forall w0,
         project = getProjectPrefix h ->
         filepath_Walk h (filepath_Join h [root; basePath; dir]) = events ->
         (dir = "request" /\ (w, result) = (w0, newResult)
          \/ dir = "response"
             /\ (w, result)
                = processDir h root project (w0, newResult) "request") ->
         let final := (processSourceDirectories h root project w0).2 in
         failure ∈ Errors final
         /\ (Run h w0).2
            = Some ("encountered " +:+ showNat (length (Errors final))
                    +:+ " errors during processing"))
  /\ (forall filename prefix variant w result err,
         ReadFile h w filename = Err err ->
         processFile h filename prefix variant w result
         = (w, result, Some ("reading file: " +:+ err)))
  /\ (forall filename prefix variant w result src err,
         ReadFile h w filename = Ok src ->
         parser_ParseFile h filename src = Err err ->
         processFile h filename prefix variant w result
         = (w, result, Some ("parsing file: " +:+ err)))
  /\ (forall filename prefix variant w result src f err left,
         ReadFile h w filename = Ok src ->
         parser_ParseFile h filename src = Ok f ->
         WriteFail h filename = Some (err, left) ->
         let out := applyAnnotations (Split src newline)
                      (planOf h f (Split src newline) variant).1 prefix result in
         (0 < out.1.2)%nat ->
         processFile h filename prefix variant w result
         = (match left with
            | None => w
            | Some n =>
                {| files := <[filename := take n (Join out.1.1
                                                    (String newline ""))]>
                              (files w);
                   written := written w ++ [filename] |}
            end, out.2, Some ("writing file: writing to file: " +:+ err)))
  /\ (forall events w result,
         (forall p err, Failure p err ∉ events) ->
         (walkDir h root project dir events w result).2 = None)
  /\ (forall w,
         processSourceDirectories h root project w
         = processDir h root project
             (processDir h root project (w, newResult) "request") "response")
  /\ (forall w,
         (Run h w).1 = (processSourceDirectories h root (getProjectPrefix h) w).1
         /\ ((Run h w).2 = None
             <-> Errors (processSourceDirectories h root (getProjectPrefix h) w).2
                 = [])).
Proof.
  intros Hwd Hno Hgo Hbefore Hfile. cbv zeta.
  assert (Hstep : walkDir h root project dir
                    (before ++ Visit path name false :: after) w result
                  = walkDir h root project dir after w2
                      (AddError ("processing " +:+ path +:+ ": " +:+ e) r2)).
  { pose proof (walkDir_no_failure h root project dir before w result Hno) as H0.
    rewrite Hbefore in H0. simpl in H0. subst e0.
    rewrite (walkDir_app h root project dir before _ w result w1 r1 Hbefore).
    by apply walkDir_failing_file. }
  assert (Hkept : exists later,
             Errors (walkDir h root project dir
                       (before ++ Visit path name false :: after) w result).1.2
             = Errors r1 ++ ("processing " +:+ path +:+ ": " +:+ e) :: later).
  { rewrite Hstep.
    destruct (walkDir_account h root project dir after w2
                (AddError ("processing " +:+ path +:+ ": " +:+ e) r2))
      as (_ & _ & later & Hlater & _).
    destruct (processSourceFile_cases h root path project dir w1 r1)
      as (_ & _ & _ & Herrs).
    rewrite Hfile in Herrs. simpl in Herrs.
    exists later. rewrite Hlater. simpl.
    by rewrite Herrs, <- List.app_assoc. }
  split; [done|]. split; [done|].
  split.
  { intros w0 Hproject Hwalk Hstart.
    assert (Hin : ("processing " +:+ path +:+ ": " +:+ e)
                  ∈ Errors (processDir h root project (w, result) dir).2).
    { apply walk_errors_recorded. simpl. rewrite Hwalk.
      destruct Hkept as [later ->]. apply elem_of_app. right. left. }
    assert (Hfinal : ("processing " +:+ path +:+ ": " +:+ e)
                     ∈ Errors (processSourceDirectories h root project w0).2).
    { unfold processSourceDirectories. simpl.
      destruct Hstart as [[-> Hst]|[-> Hst]]; rewrite <- Hst; [|done].
      destruct (processDir_account h root project
                  (processDir h root project (w, result) "request")
                  "response") as (_ & _ & errs & -> & _).
      apply elem_of_app. by left. }
    split; [done|].
    unfold Run. rewrite Hwd, <- Hproject.
    destruct (processSourceDirectories h root project w0) as [w' final].
    simpl in *. unfold HasErrors.
    destruct (Errors final) as [|err errs]; [|done].
    by apply elem_of_nil in Hfinal. }
  split.
  { intros filename prefix variant w' result' err Hread.
    unfold processFile. by rewrite Hread. }
  split.
  { intros filename prefix variant w' result' src err Hread Hparse.
    unfold processFile. by rewrite Hread, Hparse. }
  split.
  { intros filename prefix variant w' result' src f err left Hread Hparse
      Hwrite Hpos.
    set (out := applyAnnotations (Split src newline)
                  (planOf h f (Split src newline) variant).1 prefix result')
      in *.
    rewrite (processFile_parsed h filename prefix variant w' result' src f
               Hread Hparse).
    fold out. simpl.
    destruct (Nat.ltb_spec 0 out.1.2); [|lia].
    by rewrite (writeFile_fails h w' filename _ err left Hwrite). }
  split; [apply walkDir_no_failure|].
  split; [done|].
  intros w'. by apply Run_verdict.
Qed.

(** The sample tree: [broken.go] does not parse; the walk of [response]
    records it and goes on with [foo.go] and [widget.go], and the run
    ends with one error. *)
Lemma errors_accumulate_witness :
  let go := walkDir Sample.host Sample.root "proj" "response" in
  let before := [Visit Sample.responseDir "response" true;
                 Visit (Sample.responseDir +:+ "/v1") "v1" true] in
  let after := [Visit Sample.fooPath "foo.go" false;
                Visit Sample.flatPath "widget.go" false] in
  let failure := "processing " +:+ Sample.brokenPath +:+ ": "
                 +:+ "parsing file: " +:+ Sample.brokenPath
                 +:+ ": syntax error" in
  go (before ++ Visit Sample.brokenPath "broken.go" false :: after)
    Sample.treeWorld newResult
  = go after Sample.treeWorld (AddError failure (AddFile newResult))
  /\ failure
     ∈ Errors (processSourceDirectories Sample.host Sample.root "proj"
                 Sample.treeWorld).2
  /\ (Run Sample.host Sample.treeWorld).2
     = Some "encountered 1 errors during processing".
Proof.
  cbv zeta.
  assert (Hno : forall p err,
             Failure p err
             ∉ [Visit Sample.responseDir "response" true;
                Visit (Sample.responseDir +:+ "/v1") "v1" true]).
  { intros p err Hin.
    apply elem_of_cons in Hin as [Hin|Hin]; [discriminate|].
    apply list_elem_of_singleton in Hin. discriminate. }
  assert (Hfile : processSourceFile Sample.host Sample.root Sample.brokenPath
                    "proj" "response" Sample.treeWorld newResult
                  = (Sample.treeWorld, AddFile newResult,
                     Some ("parsing file: " +:+ Sample.brokenPath
                           +:+ ": syntax error")))
    by (vm_compute; reflexivity).
  destruct (errors_accumulate Sample.host Sample.root "proj" "response"
              [Visit Sample.responseDir "response" true;
               Visit (Sample.responseDir +:+ "/v1") "v1" true]
              [Visit Sample.fooPath "foo.go" false;
               Visit Sample.flatPath "widget.go" false]
              Sample.brokenPath "broken.go"
              Sample.treeWorld Sample.treeWorld Sample.treeWorld
              newResult newResult (AddFile newResult) None _
              eq_refl Hno eq_refl eq_refl Hfile)
    as (Hstep & _ & Hrun & _).
  split; [exact Hstep|].
  destruct (Hrun Sample.treeWorld) as [Hin Hverdict].
  - vm_compute. reflexivity.
  - vm_compute. reflexivity.
  - right. split; [reflexivity|]. vm_compute. reflexivity.
  - split; [exact Hin|]. rewrite Hverdict. vm_compute. reflexivity.
Defined.

(** C9: a planned line whose directive continues past the expected text,
    as in [// @name p.v1.FooRes2] for the expected [@name p.v1.FooRes],
    holds the expected text as a substring: the patcher keeps it, leaves
    the line as it is and counts no change, exactly as if the line were
    not in the plan. *)
Theorem longer_directive_kept (lines : list string)
    (annotations : gmap Z string) (prefix : string)
    (result : ProcessingResult) (i : nat) (name pre extra : string)
    (c : ascii) :
  annotations !! Z.of_nat i = Some name ->
  endsSolid name ->
  isReSpace c = false ->
  lines !! i
  = Some (pre +:+ "// @name " +:+ prefix +:+ name +:+ String c extra) ->
  patchLine (pre +:+ "// @name " +:+ prefix +:+ name +:+ String c extra)
    prefix name = Keep
  /\ (applyAnnotations lines annotations prefix result).1.1 !! i = lines !! i
  /\ applyAnnotations lines annotations prefix result
     = applyAnnotations lines (delete (Z.of_nat i) annotations) prefix result.
Proof.
  intros Hi Hname Hc Hline.
  assert (Hkeep : patchLine
                    (pre +:+ "// @name " +:+ prefix +:+ name +:+ String c extra)
                    prefix name = Keep).
  { replace (pre +:+ "// @name " +:+ prefix +:+ name +:+ String c extra)
      with ((pre +:+ "// ") +:+ expectedDirective prefix name +:+ String c extra).
    - by apply patchLine_keep.
    - unfold expectedDirective. by rewrite !app_assoc. }
  assert (Heq : applyAnnotations lines annotations prefix result
                = applyAnnotations lines (delete (Z.of_nat i) annotations)
                    prefix result).
  { unfold applyAnnotations. apply applyFrom_ext.
    intros k line n r Hk. unfold applyLine.
    replace (0 + Z.of_nat k) with (Z.of_nat k) by lia.
    destruct (decide (k = i)) as [->|Hne].
    - rewrite lookup_delete_eq, Hi.
      rewrite Hline in Hk. injection Hk as <-. by rewrite Hkeep.
    - rewrite lookup_delete_ne by lia. done. }
  split; [done|]. split; [|done].
  rewrite Heq. apply applyAnnotations_frame. apply lookup_delete_eq.
Qed.

(** The line of the claim. *)
Lemma longer_directive_kept_witness :
  applyAnnotations ["} // @name p.v1.FooRes2"] {[0 := "FooRes"]} "p.v1."
    newResult
  = (["} // @name p.v1.FooRes2"], 0%nat, newResult).
Proof.
  assert (Hname : endsSolid "FooRes") by apply (endsSolid_Res "Foo").
  assert (Hplan : ({[0 := "FooRes"]} : gmap Z string) !! Z.of_nat 0
                  = Some "FooRes") by (vm_compute; reflexivity).
  destruct (longer_directive_kept ["} // @name p.v1.FooRes2"]
              {[0 := "FooRes"]} "p.v1." newResult 0 "FooRes" "} " ""
              "2"%char Hplan Hname eq_refl eq_refl) as (_ & _ & Heq).
  rewrite Heq. vm_compute. reflexivity.
Defined.

(** C10: the version of the prefix is the second segment of the path of
    the file relative to the base directory; the file is counted and
    processed with the prefix [<project>.<version>.].  For a file that
    lies directly in a variant directory the second segment is the file
    name, which becomes the version. *)
Theorem version_is_second_segment (h : Host)
    (root path project dir : string) (w : World) (result : ProcessingResult)
    (first rest : string) :
  filepath_Rel h (filepath_Join h [root; basePath]) path
  = Ok (first +:+ String (filepath_Separator h) rest) ->
  hasByte (filepath_Separator h) first = false ->
  let version := hd "" (Split rest (filepath_Separator h)) in
  processSourceFile h root path project dir w result
  = processFile h path (project +:+ "." +:+ version +:+ ".") dir w
      (AddFile result)
  /\ (hasByte (filepath_Separator h) rest = false -> version = rest).
Proof.
  intros Hrel Hfirst version. split.
  - unfold processSourceFile. rewrite Hrel, (Split_app_noSep _ _ _ Hfirst).
    pose proof (Split_nonempty rest (filepath_Separator h)) as Hne.
    subst version. by destruct (Split rest (filepath_Separator h)).
  - intros Hrest. subst version. by rewrite Split_noSep_whole.
Qed.

(** The file [widget.go] of the sample tree lies directly in [response]:
    it is processed with the prefix [proj.widget.go.]. *)
Lemma version_is_second_segment_witness :
  processSourceFile Sample.host Sample.root Sample.flatPath "proj" "response"
    Sample.treeWorld newResult
  = processFile Sample.host Sample.flatPath "proj.widget.go." "response"
      Sample.treeWorld (AddFile newResult).
Proof.
  apply (version_is_second_segment Sample.host Sample.root Sample.flatPath
           "proj" "response" Sample.treeWorld newResult "response" "widget.go");
    reflexivity.
Defined.
(** * Further properties of the code *)

(** ** The plan of a file *)

(** A secondary name that is not empty comes from a search response
    wrapper. *)
Lemma generated_item_wrapper info variant inner :
  (generateAnnotationNameWithContext info variant inner).2 <> "" ->
  isSearchWrapper info = true.
Proof.
  unfold generateAnnotationNameWithContext, isSearchWrapper.
  destruct (String.eqb (Name info) ""); [done|].
  destruct (_ && String.eqb (GenericBase info) "SearchResponse"); [|done].
  simpl. by destruct (negb (String.eqb (InnerType info) "")).
Qed.

Lemma provenance_annotateSpec h f variant ignoredTypes inner p ts :
  ts ∈ ast.Decls f ->
  (forall l n, p.1 !! l = Some n ->
     fromMain h f variant ignoredTypes inner l n
     \/ fromItem h f variant ignoredTypes inner l n) ->
  forall l n,
    (annotateSpec h f variant ignoredTypes inner p ts).1 !! l = Some n ->
    fromMain h f variant ignoredTypes inner l n
    \/ fromItem h f variant ignoredTypes inner l n.
Proof.
  intros Hts Hp. unfold annotateSpec.
  destruct (IsExported h (ast.Name ts)) eqn:Hexp; simpl; [|done].
  case_bool_decide as Hign; [done|].
  destruct (String.eqb (Name (extractTypeInfo ts)) "") eqn:Hname; [done|].
  assert (Hel : eligible h ignoredTypes ts = true).
  { unfold eligible. rewrite Hexp, Hname.
    by rewrite bool_decide_eq_false_2. }
  pose proof (generated_item_wrapper (extractTypeInfo ts) variant inner)
    as Hwrap.
  destruct (generateAnnotationNameWithContext _ _ _)
    as [mainName itemName] eqn:Hgen.
  simpl in Hwrap.
  assert (Hp1 : forall l n, (planMain ts mainName p).1 !! l = Some n ->
                  fromMain h f variant ignoredTypes inner l n
                  \/ fromItem h f variant ignoredTypes inner l n).
  { unfold planMain. destruct (_ && _); [|done]. simpl.
    intros l n Hl. destruct (decide (ast.EndLine ts - 1 = l)) as [<-|Hne].
    - rewrite lookup_insert_eq in Hl. injection Hl as <-.
      left. exists ts. by rewrite Hgen.
    - rewrite lookup_insert_ne in Hl by done. by apply Hp. }
  unfold planSecondary.
  destruct (String.eqb_spec itemName "") as [|Hne]; [done|]. simpl.
  case_bool_decide; [done|]. simpl.
  destruct (negb _); [|done].
  intros l n Hl. unfold planItem in Hl.
  apply planItem_lookup in Hl as [Hl|(-> & its & Hin & Hn & Hnot & Hline)].
  - by apply Hp1.
  - right. exists ts, its. rewrite Hgen. simpl.
    split; [done|]. split; [done|]. split; [by apply Hwrap|].
    split; [done|]. split; [done|]. split; [done|].
    split; [by rewrite Hn|done].
Qed.

Lemma provenance_addAnnotations h f variant ignoredTypes inner l n :
  (addAnnotations h f variant ignoredTypes inner (∅, ∅)).1 !! l = Some n ->
  fromMain h f variant ignoredTypes inner l n
  \/ fromItem h f variant ignoredTypes inner l n.
Proof.
  revert l n. unfold addAnnotations.
  apply (foldl_invariant
           (fun p : Plan =>
              forall l n, p.1 !! l = Some n ->
                fromMain h f variant ignoredTypes inner l n
                \/ fromItem h f variant ignoredTypes inner l n)).
  - intros l n Hl. simpl in Hl. by rewrite lookup_empty in Hl.
  - intros p ts Hts Hp. by apply provenance_annotateSpec.
Qed.

Lemma plan_origin h f lines variant l n :
  (planOf h f lines variant).1 !! l = Some n ->
  fromMain h f variant (ignoredOf h f lines) (innerTypesOf h f lines) l n
  \/ fromItem h f variant (ignoredOf h f lines) (innerTypesOf h f lines) l n.
Proof. apply provenance_addAnnotations. Qed.

(** X1: every entry of the plan of a file has one of two origins.  Either
    its line ends a declaration that is exported, not ignored and of a
    shape that is not empty, and the name is the primary name generated
    for that declaration; or its line ends a declaration that is not
    ignored and bears the name of the inner type of a search response
    wrapper (exported, not ignored), and the name is the secondary name
    generated for the wrapper.  Nothing else enters the plan. *)
Theorem plan_provenance (h : Host) (f : ast.File) (lines : list string)
    (variant : string) (l : Z) (n : string) :
  (planOf h f lines variant).1 !! l = Some n ->
  fromMain h f variant (ignoredOf h f lines) (innerTypesOf h f lines) l n
  \/ fromItem h f variant (ignoredOf h f lines) (innerTypesOf h f lines) l n.
Proof. apply plan_origin. Qed.

Lemma plan_provenance_witness :
  let lines := Split Sample.widgetText newline in
  fromMain Sample.host Sample.widgetFile "response"
    (ignoredOf Sample.host Sample.widgetFile lines)
    (innerTypesOf Sample.host Sample.widgetFile lines) 4 "WidgetItemRes"
  \/ fromItem Sample.host Sample.widgetFile "response"
       (ignoredOf Sample.host Sample.widgetFile lines)
       (innerTypesOf Sample.host Sample.widgetFile lines) 4 "WidgetItemRes".
Proof.
  cbv zeta.
  apply (plan_provenance Sample.host Sample.widgetFile
           (Split Sample.widgetText newline) "response" 4 "WidgetItemRes").
  vm_compute. reflexivity.
Defined.

(** *** A name is given once *)

Lemma givenOnce_insert (p : Plan) l n :
  givenOnce p -> n ∉ p.2 -> givenOnce (<[l := n]> p.1, {[n]} ∪ p.2).
Proof.
  intros [Hsub Hinj] Hfresh. split; simpl.
  - intros l' n' Hl. destruct (decide (l = l')) as [<-|Hne].
    + rewrite lookup_insert_eq in Hl. injection Hl as <-. set_solver.
    + rewrite lookup_insert_ne in Hl by done. apply Hsub in Hl. set_solver.
  - intros l1 l2 n' H1 H2.
    destruct (decide (l = l1)) as [<-|Hne1];
      destruct (decide (l = l2)) as [<-|Hne2]; try done.
    + rewrite lookup_insert_eq in H1. injection H1 as <-.
      rewrite lookup_insert_ne in H2 by done. by apply Hsub in H2.
    + rewrite lookup_insert_eq in H2. injection H2 as <-.
      rewrite lookup_insert_ne in H1 by done. by apply Hsub in H1.
    + rewrite lookup_insert_ne in H1, H2 by done. by eapply Hinj.
Qed.

(** When no declaration bears the name of the inner type, the inner
    traversal changes nothing. *)
Lemma planItem_none f ignoredTypes innerType itemName p :
  innerType ∉ (ast.Name <$> ast.Decls f) ->
  planItem f ignoredTypes innerType itemName p = p.
Proof.
  unfold planItem. revert p.
  induction (ast.Decls f) as [|x decls IH]; intros p Hno; [done|].
  rewrite fmap_cons in Hno. apply not_elem_of_cons in Hno as [Hx Hrest].
  simpl. destruct (String.eqb_spec (ast.Name x) innerType); [done|].
  simpl. by apply IH.
Qed.

(** When the declared names differ, the inner traversal enters the item
    name on one line at most. *)
Lemma planItem_once f ignoredTypes innerType itemName p :
  NoDup (ast.Name <$> ast.Decls f) ->
  planItem f ignoredTypes innerType itemName p = p
  \/ exists its, its ∈ ast.Decls f
       /\ planItem f ignoredTypes innerType itemName p
          = (<[ast.EndLine its - 1 := itemName]> p.1, {[itemName]} ∪ p.2).
Proof.
  unfold planItem. revert p.
  induction (ast.Decls f) as [|x decls IH]; intros p Hnd; [by left|].
  rewrite fmap_cons in Hnd. apply NoDup_cons in Hnd as [Hx Hnd].
  simpl.
  destruct (String.eqb_spec (ast.Name x) innerType) as [Heq|Hne]; simpl.
  - rewrite Heq in Hx.
    pose proof (planItem_none {| ast.Decls := decls; ast.Comments := [] |}
                  ignoredTypes innerType itemName) as Hnone.
    unfold planItem in Hnone. simpl in Hnone.
    destruct (bool_decide (ast.Name x ∈ ignoredTypes)); simpl.
    + rewrite Hnone by done. by left.
    + rewrite Hnone by done. right. exists x. split; [left|done].
  - destruct (IH p Hnd) as [->|(its & Hin & ->)]; [by left|].
    right. exists its. split; [by right|done].
Qed.

Lemma givenOnce_annotateSpec h f variant ignoredTypes inner p ts :
  NoDup (ast.Name <$> ast.Decls f) ->
  givenOnce p ->
  givenOnce (annotateSpec h f variant ignoredTypes inner p ts).
Proof.
  intros Hnd Hp. unfold annotateSpec.
  destruct (_ || _); [done|].
  destruct (String.eqb _ ""); [done|].
  destruct (generateAnnotationNameWithContext _ _ _) as [mainName itemName].
  assert (Hp1 : givenOnce (planMain ts mainName p)).
  { unfold planMain. destruct (negb (String.eqb mainName "")); [|done]. simpl.
    case_bool_decide; [done|]. simpl. by apply givenOnce_insert. }
  unfold planSecondary. destruct (negb (String.eqb itemName "")); [|done].
  simpl. case_bool_decide as Hfree; [done|]. simpl.
  destruct (negb (String.eqb (InnerType _) "")); [|done].
  destruct (planItem_once f ignoredTypes (InnerType (extractTypeInfo ts))
              itemName (planMain ts mainName p) Hnd)
    as [->|(its & _ & ->)]; [done|].
  by apply givenOnce_insert.
Qed.

(** X2: in a file whose declarations bear different names, the naming
    pass gives every name once: no name of the plan stands on two lines,
    and every name of the plan is recorded in [annotatedTypes]. *)
Theorem names_given_once (h : Host) (f : ast.File) (lines : list string)
    (variant : string) :
  NoDup (ast.Name <$> ast.Decls f) ->
  let p := planOf h f lines variant in
  (forall l n, p.1 !! l = Some n -> n ∈ p.2)
  /\ (forall l1 l2 n, p.1 !! l1 = Some n -> p.1 !! l2 = Some n -> l1 = l2).
Proof.
  intros Hnd. cbv zeta. unfold planOf, addAnnotations.
  apply (foldl_invariant givenOnce).
  - split; simpl; intros *; by rewrite lookup_empty.
  - intros p ts _ Hp. by apply givenOnce_annotateSpec.
Qed.

Lemma names_given_once_witness :
  let p := planOf Sample.host Sample.widgetFile
             (Split Sample.widgetText newline) "response" in
  (forall l n, p.1 !! l = Some n -> n ∈ p.2)
  /\ (forall l1 l2 n, p.1 !! l1 = Some n -> p.1 !! l2 = Some n -> l1 = l2).
Proof.
  apply (names_given_once Sample.host Sample.widgetFile
           (Split Sample.widgetText newline) "response").
  apply (bool_decide_unpack _). vm_compute. reflexivity.
Defined.

(** *** Lines the naming pass leaves alone *)

(** A basic type and a type expression of another form give the empty
    shape. *)
Lemma excludedShape_empty ts :
  excludedShape ts = true -> Name (extractTypeInfo ts) = "".
Proof.
  unfold excludedShape, extractTypeInfo.
  destruct (ast.Type_ ts) as [ident|X Index| |]; try done.
  intros H. unfold handleIdentType. by rewrite H.
Qed.

Lemma eligible_inv h ignoredTypes ts :
  eligible h ignoredTypes ts = true ->
  IsExported h (ast.Name ts) = true
  /\ (ast.Name ts ∉ ignoredTypes)
  /\ excludedShape ts = false.
Proof.
  unfold eligible. intros [[He Hi]%andb_true_iff Hn]%andb_true_iff.
  apply negb_true_iff, bool_decide_eq_false in Hi.
  split; [done|]. split; [done|].
  destruct (excludedShape ts) eqn:E; [|done].
  by rewrite (excludedShape_empty _ E) in Hn.
Qed.

(** The inner type of a wrapper the naming pass names is in the
    inner-type set of the file. *)
Lemma eligible_wrapper_inner h f lines wrapper :
  wrapper ∈ ast.Decls f ->
  eligible h (ignoredOf h f lines) wrapper = true ->
  isSearchWrapper (extractTypeInfo wrapper) = true ->
  InnerType (extractTypeInfo wrapper) ∈ innerTypesOf h f lines.
Proof.
  intros Hin Hel Hw. apply eligible_inv in Hel as (He & Hi & _).
  apply isSearchWrapper_spec in Hw as [Hb Hn].
  apply elem_of_innerTypesOf. by exists wrapper.
Qed.

(** X3: a line is never planned, and so comes out of the patcher as it
    went in, when every declaration that ends on it is either ignored, or
    unexported or of an empty shape (an alias of a basic type, a type
    expression the shape analysis does not look at) without bearing the name
    of the inner type of a search response wrapper.  Bearing such a name
    is the one way for an unexported declaration or an alias of a basic
    type to be annotated. *)
Theorem unnamed_line_untouched (h : Host) (f : ast.File)
    (lines : list string) (variant prefix : string)
    (result : ProcessingResult) (i : nat) :
  (forall ts,
      ts ∈ ast.Decls f -> ast.EndLine ts - 1 = Z.of_nat i ->
      ast.Name ts ∈ ignoredOf h f lines
      \/ ((IsExported h (ast.Name ts) = false \/ excludedShape ts = true)
          /\ (ast.Name ts ∉ innerTypesOf h f lines))) ->
  (planOf h f lines variant).1 !! Z.of_nat i = None
  /\ (applyAnnotations lines (planOf h f lines variant).1 prefix result).1.1
       !! i = lines !! i.
Proof.
  intros Hends.
  assert (Hnone : (planOf h f lines variant).1 !! Z.of_nat i = None).
  { destruct ((planOf h f lines variant).1 !! Z.of_nat i) as [n|] eqn:E;
      [|done].
    exfalso.
    apply plan_origin in E
      as [(ts & Hin & Hel & _ & Hl)
         |(wrapper & its & Hw & Hel & Hsw & _ & Hin & Hname & Hnot & Hl)].
    - apply eligible_inv in Hel as (He & Hi & Hs).
      destruct (Hends ts Hin Hl) as [Hign|[[Hu|Hx] _]]; [done| |].
      + by rewrite He in Hu.
      + by rewrite Hs in Hx.
    - destruct (Hends its Hin Hl) as [Hign|[_ Hno]]; [done|].
      apply Hno. rewrite Hname. by apply eligible_wrapper_inner. }
  split; [done|]. by apply applyAnnotations_frame.
Qed.

Lemma unnamed_line_untouched_witness :
  let lines := Split Sample2.aliasText newline in
  (planOf Sample.host Sample2.aliasFile lines "request").1 !! 2 = None
  /\ (applyAnnotations lines
        (planOf Sample.host Sample2.aliasFile lines "request").1
        "proj.v1." newResult).1.1 !! 2%nat
     = Some "type ID string".
Proof.
  cbv zeta.
  destruct (unnamed_line_untouched Sample.host Sample2.aliasFile
              (Split Sample2.aliasText newline) "request" "proj.v1."
              newResult 2) as [Hplan Hline].
  - intros ts Hin Hl.
    apply elem_of_cons in Hin as [->|Hin].
    + right. split; [by right|]. vm_compute. set_solver.
    + apply list_elem_of_singleton in Hin as ->. simpl in Hl. lia.
  - split; [exact Hplan|]. rewrite Hline. reflexivity.
Defined.

(** *** The names of the plan *)

Lemma HasSuffix_app3 a b c : HasSuffix (a +:+ b +:+ c) c = true.
Proof. rewrite <- app_assoc. apply HasSuffix_app. Qed.

Lemma generated_suffixes info variant inner :
  let names := generateAnnotationNameWithContext info variant inner in
  let suffixed n :=
    HasSuffix n "Res" = true
    \/ (variant <> "response" /\ HasSuffix n "Req" = true) in
  Name info <> "" ->
  suffixed names.1 /\ (isSearchWrapper info = true -> suffixed names.2).
Proof.
  cbv zeta. intros Hn.
  unfold generateAnnotationNameWithContext, isSearchWrapper.
  destruct (String.eqb_spec (Name info) ""); [done|].
  destruct (_ && String.eqb (GenericBase info) "SearchResponse"); simpl.
  - split; [left; apply HasSuffix_app|].
    intros ->. destruct (String.eqb_spec variant "response").
    + left. apply (HasSuffix_app3 _ "Item" "Res").
    + right. split; [done|]. apply (HasSuffix_app3 _ "Item" "Req").
  - split; [|done].
    case_bool_decide; destruct (String.eqb_spec variant "response").
    + left. apply (HasSuffix_app3 _ "Item" "Res").
    + right. split; [done|]. apply (HasSuffix_app3 _ "Item" "Req").
    + left. apply HasSuffix_app.
    + right. split; [done|]. apply HasSuffix_app.
Qed.

Lemma eligible_named h ignoredTypes ts :
  eligible h ignoredTypes ts = true -> Name (extractTypeInfo ts) <> "".
Proof.
  unfold eligible. intros [_ Hn]%andb_true_iff.
  apply negb_true_iff in Hn. by destruct (String.eqb_spec (Name (extractTypeInfo ts)) "").
Qed.

(** X4: every name of the plan ends with [Res] or with [Req], and with
    [Req] only when the variant is not [response]: a file of the response
    directory never gets a request name.  (The converse fails: a search
    response wrapper gets a name in [Res] whatever the variant.) *)
Theorem planned_names_suffixed (h : Host) (f : ast.File)
    (lines : list string) (variant : string) (l : Z) (n : string) :
  (planOf h f lines variant).1 !! l = Some n ->
  HasSuffix n "Res" = true
  \/ (variant <> "response" /\ HasSuffix n "Req" = true).
Proof.
  intros Hl.
  apply plan_origin in Hl
    as [(ts & Hin & Hel & -> & _)
       |(wrapper & its & Hw & Hel & Hsw & Hn & _)].
  - apply eligible_named in Hel.
    by destruct (generated_suffixes (extractTypeInfo ts) variant
                   (innerTypesOf h f lines) Hel) as [H _].
  - apply eligible_named in Hel. subst n.
    destruct (generated_suffixes (extractTypeInfo wrapper) variant
                (innerTypesOf h f lines) Hel) as [_ H].
    by apply H.
Qed.

Lemma planned_names_suffixed_witness :
  HasSuffix "WidgetItemReq" "Res" = true
  \/ ("request" <> "response" /\ HasSuffix "WidgetItemReq" "Req" = true).
Proof.
  apply (planned_names_suffixed Sample.host Sample.widgetFile
           (Split Sample.widgetText newline) "request" 4 "WidgetItemReq").
  vm_compute. reflexivity.
Defined.

(** ** The patcher *)

Lemma HasPrefix_refl s : HasPrefix s s = true.
Proof. induction s as [|c s IH]; [done|]. simpl. by rewrite Ascii.eqb_refl. Qed.

Lemma HasPrefix_take n s : HasPrefix s (take n s) = true.
Proof.
  revert s. induction n as [|n IH]; intros [|c s]; try done.
  simpl. by rewrite Ascii.eqb_refl, IH.
Qed.

(** What the patcher leaves of a planned line: the line itself, or a
    part of it from its start followed by the trailing comment. *)
Lemma patched_shape line prefix name :
  patched line prefix name = line
  \/ exists kept,
       HasPrefix line kept = true
       /\ patched line prefix name = kept +:+ trailingComment prefix name.
Proof.
  unfold patched, patchLine.
  destruct (Contains _ _); [by left|]. right.
  destruct (FindStringIndex _) as [[lo hi]|].
  - exists (take lo line). split; [apply HasPrefix_take|done].
  - exists line. split; [apply HasPrefix_refl|done].
Qed.

(** X5: after the patcher has run, every planned line within the file
    bears its expected directive, so that the same plan finds nothing left
    to do on it; and the line is the one that went in, or a part of it from
    its start followed by the comment [ // @name <prefix><name>]. *)
Theorem planned_line_bears_directive (lines : list string)
    (annotations : gmap Z string) (prefix : string)
    (result : ProcessingResult) (i : nat) (name line : string) :
  annotations !! Z.of_nat i = Some name ->
  endsSolid name ->
  lines !! i = Some line ->
  exists line',
    (applyAnnotations lines annotations prefix result).1.1 !! i = Some line'
    /\ Contains (TrimSpace line') (expectedDirective prefix name) = true
    /\ (line' = line
        \/ exists kept,
             HasPrefix line kept = true
             /\ line' = kept +:+ trailingComment prefix name).
Proof.
  intros Hi Hname Hline. exists (patched line prefix name).
  split; [|split].
  - unfold applyAnnotations. rewrite applyFrom_lines, Hline.
    unfold patchedAt. replace (0 + Z.of_nat i) with (Z.of_nat i) by lia.
    by rewrite Hi.
  - pose proof (patched_fixed line prefix name Hname) as Hfix.
    unfold patchLine in Hfix.
    destruct (Contains (TrimSpace (patched line prefix name)) _); [done|].
    by destruct (FindStringIndex _) as [[lo hi]|].
  - apply patched_shape.
Qed.

Lemma planned_line_bears_directive_witness :
  exists line',
    (applyAnnotations ["type Foo struct {"; "}"] {[1 := "FooRes"]} "p.v1."
       newResult).1.1 !! 1%nat = Some line'
    /\ Contains (TrimSpace line') (expectedDirective "p.v1." "FooRes") = true
    /\ (line' = "}"
        \/ exists kept,
             HasPrefix "}" kept = true
             /\ line' = kept +:+ trailingComment "p.v1." "FooRes").
Proof.
  apply (planned_line_bears_directive ["type Foo struct {"; "}"]
           {[1 := "FooRes"]} "p.v1." newResult 1 "FooRes" "}").
  - vm_compute. reflexivity.
  - apply (endsSolid_Res "Foo").
  - reflexivity.
Defined.

(** *** The counters *)

(** X6: the patcher touches the two annotation counters only: the count
    it returns is the number of additions plus the number of replacements
    it has recorded, neither counter decreases, the count is at most the
    number of lines, and the number of files and the errors are as they
    were. *)
Theorem patcher_counts (lines : list string) (annotations : gmap Z string)
    (prefix : string) (result : ProcessingResult) :
  let out := applyAnnotations lines annotations prefix result in
  FilesProcessed out.2 = FilesProcessed result
  /\ Errors out.2 = Errors result
  /\ (AnnotationsAdded result <= AnnotationsAdded out.2)%nat
  /\ (AnnotationsReplaced result <= AnnotationsReplaced out.2)%nat
  /\ (AnnotationsAdded out.2 - AnnotationsAdded result
      + (AnnotationsReplaced out.2 - AnnotationsReplaced result)
      = out.1.2)%nat
  /\ (out.1.2 <= length lines)%nat.
Proof. apply patcher_counters. Qed.

(** *** Plan entries outside the file *)

(** X7: the patcher looks up the plan at the indices of the lines only:
    two plans that agree on the indices from 0 to the number of lines
    give the same lines, count and counters.  An entry of the plan at a
    negative index, or past the last line, is never used and no line is
    ever indexed out of range. *)
Theorem plan_outside_lines_unused (lines : list string)
    (ann1 ann2 : gmap Z string) (prefix : string)
    (result : ProcessingResult) :
  (forall i, (i < length lines)%nat ->
             ann1 !! Z.of_nat i = ann2 !! Z.of_nat i) ->
  applyAnnotations lines ann1 prefix result
  = applyAnnotations lines ann2 prefix result.
Proof.
  intros Hagree. unfold applyAnnotations. apply applyFrom_ext.
  intros k line n r Hk. unfold applyLine.
  replace (0 + Z.of_nat k) with (Z.of_nat k) by lia.
  rewrite (Hagree k); [done|]. by eapply lookup_lt_Some.
Qed.

Lemma plan_outside_lines_unused_witness :
  applyAnnotations ["}"] (<[7 := "BarRes"]> (<[-1 := "BazRes"]> {[0 := "FooRes"]}))
    "p.v1." newResult
  = applyAnnotations ["}"] {[0 := "FooRes"]} "p.v1." newResult.
Proof.
  apply (plan_outside_lines_unused ["}"]
           (<[7 := "BarRes"]> (<[-1 := "BazRes"]> {[0 := "FooRes"]}))
           {[0 := "FooRes"]} "p.v1." newResult).
  intros i Hi. simpl in Hi. assert (i = 0%nat) as -> by lia.
  vm_compute. reflexivity.
Defined.

(** *** A directive left by an earlier run *)

Lemma dropWhile_length p s :
  (String.length (dropWhile p s) <= String.length s)%nat.
Proof.
  induction s as [|c s IH]; [done|]. simpl. destruct (p c); simpl; lia.
Qed.

Lemma dropWhile_stops p a d b :
  p d = false ->
  exists c r, dropWhile p (a +:+ String d b) = String c r /\ p c = false.
Proof.
  intros Hd. induction a as [|x a IH].
  - rewrite app_nil_l. simpl. rewrite Hd. by exists d, b.
  - rewrite app_cons. simpl. destruct (p x) eqn:E; [done|].
    by exists x, (a +:+ String d b).
Qed.

Lemma solid_not_reSpace d : solid d -> isReSpace d = false.
Proof.
  intros [_ Hs]. destruct (isReSpace d) eqn:E; [|done].
  unfold isReSpace in E. unfold isAsciiSpace in Hs.
  destruct d as [[] [] [] [] [] [] [] []]; simpl in *; congruence.
Qed.

(** The marker pattern matches at a comment sign followed by a blank,
    [@name], a blank and a text that ends with a visible byte. *)
Lemma matchMarkerAt_directive text tail :
  endsSolid text ->
  exists n, matchMarkerAt ("// @name " +:+ text +:+ tail) = Some n.
Proof.
  intros (s' & d & -> & Hd). apply solid_not_reSpace in Hd.
  rewrite app_assoc.
  change (String d "" +:+ tail) with (String d tail).
  remember (s' +:+ String d tail) as X eqn:HX.
  change ("// @name " +:+ X)
    with (String "/" (String "/" (String " " (String "@" (String "n"
           (String "a" (String "m" (String "e" (String " " X))))))))).
  unfold matchMarkerAt. simpl.
  pose proof (dropWhile_length isReSpace X) as Hlen.
  destruct (dropWhile_stops isReSpace s' d tail Hd) as (c & r & Hr & Hc).
  rewrite <- HX in Hr. rewrite Hr in *. simpl. rewrite Hc. simpl.
  pose proof (dropWhile_length (fun c => negb (isReSpace c)) r) as Hlen'.
  simpl in Hlen.
  destruct (Nat.ltb_spec (String.length (dropWhile (fun c => negb (isReSpace c)) r))
              (S (String.length r))); [|lia].
  destruct (Nat.ltb_spec (S (String.length r)) (S (String.length X))); [|lia].
  simpl. eauto.
Qed.

(** A match at the end of a text is found from its start, no later than
    where it stands. *)
Lemma FindStringIndex_app a s n :
  matchMarkerAt s = Some n ->
  exists lo hi,
    FindStringIndex (a +:+ s) = Some (lo, hi)
    /\ (lo <= String.length a)%nat.
Proof.
  intros Hs. induction a as [|x a IH].
  - rewrite app_nil_l. exists 0%nat, n. split; [|done].
    destruct s; unfold FindStringIndex; fold FindStringIndex; by rewrite Hs.
  - destruct IH as (lo & hi & Hfind & Hlo). rewrite app_cons.
    unfold FindStringIndex; fold FindStringIndex.
    destruct (matchMarkerAt (String x (a +:+ s))) as [m|].
    + exists 0%nat, m. split; [done|]. simpl. lia.
    + rewrite Hfind. exists (S lo), (S hi). split; [done|]. simpl. lia.
Qed.

Lemma solid_slash : solid "/"%char.
Proof. split; [vm_compute; lia|reflexivity]. Qed.

Lemma HasPrefix_take_app n a b :
  (n <= String.length a)%nat -> HasPrefix a (take n (a +:+ b)) = true.
Proof.
  revert a. induction n as [|n IH]; intros [|c a] Hn; simpl in *;
    try done; try lia.
  rewrite Ascii.eqb_refl. apply IH. lia.
Qed.

(** What the patcher does to a line that ends with a directive comment
    for another name. *)
Lemma patchLine_stale pre old prefix name :
  endsSolid old ->
  Contains (TrimSpace (pre +:+ " // @name " +:+ old))
    (expectedDirective prefix name) = false ->
  exists kept,
    HasPrefix (pre +:+ " ") kept = true
    /\ patchLine (pre +:+ " // @name " +:+ old) prefix name
       = Replace (kept +:+ trailingComment prefix name).
Proof.
  intros Hold Hno. unfold patchLine. rewrite Hno.
  destruct Hold as (m & d & Hm & Hd).
  assert (Hline : pre +:+ " // @name " +:+ old
                  = (pre +:+ " ")
                    +:+ String "/" (("/ @name " +:+ m) +:+ String d "")).
  { rewrite Hm, !app_assoc. reflexivity. }
  destruct (TrimSpace_keeps (pre +:+ " ") "/" ("/ @name " +:+ m) d ""
              solid_slash Hd) as (a' & b' & Htrim).
  pose proof (TrimSpace_length (pre +:+ " // @name " +:+ old)) as Hlen.
  rewrite Hline in *. rewrite Htrim in *.
  assert (Hshort : (String.length a' <= String.length (pre +:+ " "))%nat).
  { rewrite !length_app in Hlen. simpl in Hlen.
    rewrite !length_app in Hlen. simpl in Hlen.
    rewrite !length_app in *. simpl in *. lia. }
  destruct (matchMarkerAt_directive (m +:+ String d "") b')
    as [n Hmatch].
  { exists m, d. done. }
  assert (Heq : String "/" (("/ @name " +:+ m) +:+ String d b')
                = "// @name " +:+ (m +:+ String d "") +:+ b').
  { rewrite !app_assoc. reflexivity. }
  rewrite Heq.
  destruct (FindStringIndex_app a' _ n Hmatch) as (lo & hi & -> & Hlo).
  exists (take lo ((pre +:+ " ")
                   +:+ String "/" (("/ @name " +:+ m) +:+ String d ""))).
  split; [|done]. apply HasPrefix_take_app. lia.
Qed.

(** X8: a line that ends with a directive comment for another name (as
    an earlier run leaves it when the prefix or the name has changed since)
    is patched by replacement, never by a second comment after the first:
    what stays of the line is a part of the text before the comment
    sign, and the new trailing comment follows it.  The old directive is
    gone, and the replacement is counted as one. *)
Theorem stale_directive_replaced (lines : list string)
    (annotations : gmap Z string) (prefix : string)
    (result : ProcessingResult) (i : nat) (pre old name : string) :
  annotations !! Z.of_nat i = Some name ->
  lines !! i = Some (pre +:+ " // @name " +:+ old) ->
  endsSolid old ->
  Contains (TrimSpace (pre +:+ " // @name " +:+ old))
    (expectedDirective prefix name) = false ->
  exists kept,
    HasPrefix (pre +:+ " ") kept = true
    /\ (applyAnnotations lines annotations prefix result).1.1 !! i
       = Some (kept +:+ trailingComment prefix name)
    /\ forall n r,
         applyLine (Z.of_nat i) (pre +:+ " // @name " +:+ old) annotations
           prefix n r
         = (kept +:+ trailingComment prefix name, S n, ReplaceAnnotation r).
Proof.
  intros Hi Hline Hold Hno.
  destruct (patchLine_stale pre old prefix name Hold Hno)
    as (kept & Hkept & Hpatch).
  exists kept. split; [done|]. split.
  - unfold applyAnnotations. rewrite applyFrom_lines, Hline.
    replace (0 + Z.of_nat i) with (Z.of_nat i) by lia.
    simpl. unfold patchedAt, patched.
    by rewrite Hi, Hpatch.
  - intros n r. unfold applyLine. by rewrite Hi, Hpatch.
Qed.

Lemma stale_directive_replaced_witness :
  exists kept,
    HasPrefix ("}" +:+ " ") kept = true
    /\ (applyAnnotations ["type Foo struct {"; "} // @name old.v1.Foo"]
          {[1 := "FooRes"]} "p.v1." newResult).1.1 !! 1%nat
       = Some (kept +:+ trailingComment "p.v1." "FooRes")
    /\ forall n r,
         applyLine 1 "} // @name old.v1.Foo" {[1 := "FooRes"]} "p.v1." n r
         = (kept +:+ trailingComment "p.v1." "FooRes", S n,
            ReplaceAnnotation r).
Proof.
  apply (stale_directive_replaced
           ["type Foo struct {"; "} // @name old.v1.Foo"]
           {[1 := "FooRes"]} "p.v1." newResult 1 "}" "old.v1.Foo" "FooRes").
  - vm_compute. reflexivity.
  - reflexivity.
  - exists "old.v1.Fo", "o"%char. split; [reflexivity|].
    split; [vm_compute; lia|reflexivity].
  - vm_compute. reflexivity.
Defined.

(** ** The file pipeline *)

(** Splitting at a byte and joining with it gives the text back. *)
Lemma Join_cons_String x l ls sep :
  Join (String x l :: ls) sep = String x (Join (l :: ls) sep).
Proof. destruct ls; [done|]. simpl. by rewrite app_cons. Qed.

Lemma Join_Split s c : Join (Split s c) (String c "") = s.
Proof.
  induction s as [|x s IH]; [done|]. simpl.
  destruct (Ascii.eqb_spec x c) as [->|Hne].
  - pose proof (Split_nonempty s c) as Hne.
    destruct (Split s c) as [|l ls]; [done|].
    change (Join ("" :: l :: ls) (String c ""))
      with ("" +:+ String c "" +:+ Join (l :: ls) (String c "")).
    by rewrite app_nil_l, app_cons, app_nil_l, IH.
  - pose proof (Split_nonempty s c) as Hsp.
    destruct (Split s c) as [|l ls]; [done|].
    by rewrite Join_cons_String, IH.
Qed.

(** X18: the lines of a text carry every byte of it: joining the lines
    [bytes.Split] gives with the line break gives the text back, with its
    last line break if it has one, and [writeFile] on those lines writes
    the text itself.  Only patched lines make the file written differ
    from the file read. *)
Theorem lines_write_back_text (h : Host) (w : World)
    (filename src : string) :
  WriteFail h filename = None ->
  Join (Split src newline) (String newline "") = src
  /\ writeFile h w filename (Split src newline)
     = ({| files := <[filename := src]> (files w);
           written := written w ++ [filename] |}, None).
Proof.
  intros Hok. split; [apply Join_Split|].
  unfold writeFile, WriteFile. by rewrite Hok, Join_Split.
Qed.

Lemma lines_write_back_text_witness :
  Join (Split Sample.widgetText newline) (String newline "")
  = Sample.widgetText
  /\ writeFile Sample.host Sample.fooWorld Sample.flatPath
       (Split Sample.widgetText newline)
     = ({| files := <[Sample.flatPath := Sample.widgetText]>
                      (files Sample.fooWorld);
           written := written Sample.fooWorld ++ [Sample.flatPath] |}, None).
Proof.
  apply (lines_write_back_text Sample.host Sample.fooWorld Sample.flatPath
           Sample.widgetText).
  reflexivity.
Defined.

(** X9: when [processFile] succeeds it has either left the file system
    as it was, or written the file once, and then the text written has as
    many lines as the text read and its line [i] is what the patcher makes
    of line [i] of the text read: the planned name's comment on a planned
    line, the same bytes on every other line, line ends included.  This
    needs that no directive holds a line break. *)
Theorem written_text_lines (h : Host) (filename prefix variant : string)
    (w w' : World) (result r' : ProcessingResult) (src : string)
    (f : ast.File) :
  ReadFile h w filename = Ok src ->
  parser_ParseFile h filename src = Ok f ->
  (forall l name,
      (planOf h f (Split src newline) variant).1 !! l = Some name ->
      hasByte newline (prefix +:+ name) = false) ->
  processFile h filename prefix variant w result = (w', r', None) ->
  w' = w
  \/ exists new,
       w' = {| files := <[filename := new]> (files w);
               written := written w ++ [filename] |}
       /\ length (Split new newline) = length (Split src newline)
       /\ forall i,
            Split new newline !! i
            = patchedAt (planOf h f (Split src newline) variant).1 prefix
                (Z.of_nat i) <$> Split src newline !! i.
Proof.
  intros Hread Hparse Hnl Hrun.
  destruct (processFile_world h filename prefix variant w result src f
              Hread Hparse) as [_ [[Hw _]|[[_ Hw]|[Hw _]]]];
    rewrite Hrun in Hw; simpl in Hw; [by left| |done].
  right. eexists. split; [exact Hw|].
  assert (Hsplit : Split (Join (applyAnnotations (Split src newline)
                                 (planOf h f (Split src newline) variant).1
                                 prefix result).1.1 (String newline ""))
                     newline
                   = (applyAnnotations (Split src newline)
                        (planOf h f (Split src newline) variant).1
                        prefix result).1.1).
  { apply Split_Join; [|by apply patched_lines_noNewline].
    intros Hnil. apply (f_equal length) in Hnil.
    unfold applyAnnotations in Hnil. rewrite applyFrom_length in Hnil.
    by apply (Split_nonempty src newline), nil_length_inv. }
  rewrite Hsplit. unfold applyAnnotations. split.
  - apply applyFrom_length.
  - intros i. rewrite applyFrom_lines.
    by replace (0 + Z.of_nat i) with (Z.of_nat i) by lia.
Qed.

Lemma written_text_lines_witness :
  Sample.rewritten Sample.fooWorld Sample.fooPath Sample.fooBarText
  = Sample.fooWorld
  \/ exists new,
       Sample.rewritten Sample.fooWorld Sample.fooPath Sample.fooBarText
       = {| files := <[Sample.fooPath := new]> (files Sample.fooWorld);
            written := written Sample.fooWorld ++ [Sample.fooPath] |}
       /\ length (Split new newline) = length (Split Sample.fooText newline)
       /\ forall i,
            Split new newline !! i
            = patchedAt
                (planOf Sample.host Sample.fooFile
                   (Split Sample.fooText newline) "response").1 "proj.v1."
                (Z.of_nat i) <$> Split Sample.fooText newline !! i.
Proof.
  apply (written_text_lines Sample.host Sample.fooPath "proj.v1." "response"
           Sample.fooWorld _ newResult (AddAnnotation newResult)
           Sample.fooText Sample.fooFile).
  - vm_compute. reflexivity.
  - vm_compute. reflexivity.
  - intros l name Hl.
    assert (Hplan : (planOf Sample.host Sample.fooFile
                       (Split Sample.fooText newline) "response").1
                    = <[7 := "BarRes"]> (<[4 := "FooRes"]> ∅))
      by (vm_compute; reflexivity).
    rewrite Hplan in Hl.
    destruct (decide (l = 7)) as [->|H7].
    { rewrite lookup_insert_eq in Hl. by injection Hl as <-. }
    rewrite lookup_insert_ne in Hl by done.
    destruct (decide (l = 4)) as [->|H4].
    { rewrite lookup_insert_eq in Hl. by injection Hl as <-. }
    rewrite lookup_insert_ne in Hl by done. by rewrite lookup_empty in Hl.
  - vm_compute. reflexivity.
Defined.

(** *** What a run may touch *)

(** X10: the number of files of the summary is the number of visits the
    two walks hand to [processFile]: the entries that are no directories,
    have a name in [.go] and a path of two segments or more below the base
    directory, up to the first failure of each walk.  A file is counted
    whether its processing succeeds or not.  Every error recorded starts
    with [processing ] or with [walking directory ]. *)
Theorem summary_counts_handed_files (h : Host) (root project : string)
    (w : World) :
  let walked dir :=
    untilFailure (filepath_Walk h (filepath_Join h [root; basePath; dir])) in
  let result := (processSourceDirectories h root project w).2 in
  FilesProcessed result
  = (length (List.filter (counted h root) (walked "request"))
     + length (List.filter (counted h root) (walked "response")))%nat
  /\ Forall (fun e => HasPrefix e "processing " = true
                      \/ HasPrefix e "walking directory " = true)
       (Errors result).
Proof.
  cbv zeta. unfold processSourceDirectories. simpl.
  destruct (processDir_account h root project (w, newResult) "request")
    as (_ & Hf1 & errs1 & He1 & Hall1).
  destruct (processDir_account h root project
              (processDir h root project (w, newResult) "request") "response")
    as (_ & Hf2 & errs2 & He2 & Hall2).
  rewrite Hf2, Hf1, He2, He1. simpl. split; [done|]. by apply Forall_app.
Qed.

(** X11: a run overwrites nothing but files the two walks have handed to
    [processFile]: every other file is byte for byte as it was, no file is
    created or removed, and every write recorded is a write to one of
    those files. *)
Theorem run_rewrites_handed_files (h : Host) (root : string) (w : World) :
  os_Getwd h = Ok root ->
  let handed dir :=
    processedFiles h root
      (filepath_Walk h (filepath_Join h [root; basePath; dir])) in
  let paths := handed "request" ++ handed "response" in
  (forall path, path ∉ paths ->
                files (Run h w).1 !! path = files w !! path)
  /\ (forall path, is_Some (files (Run h w).1 !! path)
                   <-> is_Some (files w !! path))
  /\ exists ws, written (Run h w).1 = written w ++ ws
                /\ Forall (fun p => p ∈ paths) ws.
Proof.
  intros Hwd. cbv zeta.
  destruct (Run_verdict h w root Hwd) as [-> _].
  unfold processSourceDirectories. simpl.
  destruct (processDir_account h root (getProjectPrefix h) (w, newResult)
              "request") as (Hw1 & _).
  destruct (processDir_account h root (getProjectPrefix h)
              (processDir h root (getProjectPrefix h) (w, newResult) "request")
              "response") as (Hw2 & _).
  simpl in Hw1.
  apply (rewrites_trans _ w
           (processDir h root (getProjectPrefix h) (w, newResult) "request").1).
  - eapply rewrites_mono; [|exact Hw1]. intros p Hp. apply elem_of_app. by left.
  - eapply rewrites_mono; [|exact Hw2]. intros p Hp. apply elem_of_app. by right.
Qed.

Lemma run_rewrites_handed_files_witness :
  let paths := [] ++ [Sample.brokenPath; Sample.fooPath; Sample.flatPath] in
  (forall path, path ∉ paths ->
                files (Run Sample.host Sample.treeWorld).1 !! path
                = files Sample.treeWorld !! path)
  /\ (forall path, is_Some (files (Run Sample.host Sample.treeWorld).1 !! path)
                   <-> is_Some (files Sample.treeWorld !! path))
  /\ exists ws, written (Run Sample.host Sample.treeWorld).1
                = written Sample.treeWorld ++ ws
                /\ Forall (fun p => p ∈ paths) ws.
Proof.
  apply (run_rewrites_handed_files Sample.host Sample.root Sample.treeWorld).
  reflexivity.
Defined.

(** X12: a failure of the walk ends the walk of that directory: what
    the walk would have visited after it is not looked at, the state is the
    one the visits before it have left, and the error is recorded once,
    as [walking directory <directory>: <error>]. *)
Theorem walk_failure_ends_walk (h : Host) (root project dir : string)
    (before after : list WalkEvent) (path : string) (err : error)
    (w w1 : World) (result r1 : ProcessingResult) :
  filepath_Walk h (filepath_Join h [root; basePath; dir])
  = before ++ Failure path err :: after ->
  walkDir h root project dir before w result = (w1, r1, None) ->
  walkDir h root project dir (before ++ Failure path err :: after) w result
  = (w1, r1, Some err)
  /\ processDir h root project (w, result) dir
     = (w1, AddError ("walking directory "
                      +:+ filepath_Join h [root; basePath; dir] +:+ ": "
                      +:+ err) r1).
Proof.
  intros Hwalk Hbefore.
  assert (Hall : walkDir h root project dir
                   (before ++ Failure path err :: after) w result
                 = (w1, r1, Some err)).
  { by rewrite (walkDir_app h root project dir before _ w result w1 r1
                  Hbefore). }
  split; [done|]. unfold processDir. simpl. by rewrite Hwalk, Hall.
Qed.

Lemma walk_failure_ends_walk_witness :
  let err := "open " +:+ Sample.responseDir +:+ "/v2: permission denied" in
  processDir Sample2.failingHost Sample.root "proj"
    (Sample.treeWorld, newResult) "response"
  = (Sample.treeWorld,
     AddError ("walking directory " +:+ Sample.responseDir +:+ ": " +:+ err)
       (AddFile newResult)).
Proof.
  cbv zeta.
  destruct (walk_failure_ends_walk Sample2.failingHost Sample.root "proj"
              "response"
              [Visit Sample.responseDir "response" true;
               Visit (Sample.responseDir +:+ "/v1") "v1" true;
               Visit Sample.fooPath "foo.go" false]
              [Visit Sample.flatPath "widget.go" false]
              (Sample.responseDir +:+ "/v2")
              ("open " +:+ Sample.responseDir +:+ "/v2: permission denied")
              Sample.treeWorld Sample.treeWorld newResult (AddFile newResult))
    as [_ Hdir].
  - vm_compute. reflexivity.
  - vm_compute. reflexivity.
  - rewrite Hdir. vm_compute. reflexivity.
Defined.

(** ** The ignore marker *)

(** X13: the ignore set of a file holds exactly the names borne by an
    exported declaration for which the marker [@swagger:ignore] stands in
    [ts.Doc], on the line of its name, or in a comment that starts at most
    one line above or below the line of its name, whichever declaration
    that comment was written for.  [ts.Doc] is the doc comment of the type
    specification itself, which exists only inside a parenthesised group:
    for a name whose declarations stand on their own the first case never
    applies, and a marker in the comment above the declaration counts
    only when it starts on the line just above the name.  The name of an
    unexported declaration gets in only through an exported namesake. *)
Theorem ignored_iff_marked (h : Host) (f : ast.File) (lines : list string)
    (x : string) :
  (x ∈ ignoredOf h f lines
   <-> exists ts,
         ts ∈ ast.Decls f /\ ast.Name ts = x /\ IsExported h x = true
         /\ (markerInDoc ts \/ markerOnLine lines ts
             \/ markerNear f (ast.PosLine ts)))
  /\ ((forall ts, ts ∈ ast.Decls f -> ast.Name ts = x -> ast.Doc ts = None) ->
      (x ∈ ignoredOf h f lines
       <-> exists ts,
             ts ∈ ast.Decls f /\ ast.Name ts = x /\ IsExported h x = true
             /\ (markerOnLine lines ts \/ markerNear f (ast.PosLine ts)))).
Proof.
  assert (Hiff : x ∈ ignoredOf h f lines
                 <-> exists ts,
                       ts ∈ ast.Decls f /\ ast.Name ts = x
                       /\ IsExported h x = true
                       /\ (markerInDoc ts \/ markerOnLine lines ts
                           \/ markerNear f (ast.PosLine ts))).
  { unfold ignoredOf. rewrite elem_of_findIgnoredTypes. split.
    - intros [H|(ts & Hin & Hm & Hx)]; [by apply not_elem_of_empty in H|].
      apply andb_true_iff in Hm as [He Hm]. apply isMarked_spec in Hm.
      exists ts. by rewrite <- Hx.
    - intros (ts & Hin & Hx & He & Hm). right. exists ts.
      split; [done|]. split; [|done]. rewrite Hx, He. simpl.
      by apply isMarked_spec. }
  split; [done|]. intros Hown. rewrite Hiff. split.
  - intros (ts & Hin & Hx & He & [(g & c & Hdoc & _)|Hm]).
    + by rewrite (Hown ts Hin Hx) in Hdoc.
    + by exists ts.
  - intros (ts & Hin & Hx & He & Hm). exists ts.
    split; [done|]. split; [done|]. split; [done|]. by right.
Qed.

(** The marker opens the doc comment of [Foo], which stands on its own,
    two lines above its name: [Foo] is not ignored. *)
Lemma ignored_iff_marked_witness :
  "Foo" ∉ ignoredOf Sample.host Sample.docMarkedFile
            (Split Sample.docMarkedText newline).
Proof.
  destruct (ignored_iff_marked Sample.host Sample.docMarkedFile
              (Split Sample.docMarkedText newline) "Foo") as [_ Hown].
  intros Hin. apply Hown in Hin as (ts & Hts & _ & _ & Hm).
  - apply list_elem_of_singleton in Hts as ->.
    destruct Hm as [(line & _ & Hl & Hc)|(g & c & Hg & Hc & Ht & Hlo & _)].
    + vm_compute in Hl. injection Hl as <-. vm_compute in Hc. discriminate.
    + apply list_elem_of_singleton in Hg as ->.
      apply elem_of_cons in Hc as [->|Hc]; [simpl in Hlo; lia|].
      apply list_elem_of_singleton in Hc as ->. vm_compute in Ht.
      discriminate.
  - intros ts Hts _. by apply list_elem_of_singleton in Hts as ->.
Defined.

(** *** Every declaration the naming pass names gets its name given *)

Lemma planItem_given f ignoredTypes innerType itemName (p : Plan) :
  p.2 ⊆ (planItem f ignoredTypes innerType itemName p).2.
Proof.
  unfold planItem.
  apply (foldl_invariant (fun q : Plan => p.2 ⊆ q.2)); [done|].
  intros q its _ Hq. destruct (_ && _); [|done]. simpl. set_solver.
Qed.

Lemma planMain_given ts mainName (p : Plan) :
  p.2 ⊆ (planMain ts mainName p).2
  /\ (mainName <> "" -> mainName ∈ (planMain ts mainName p).2).
Proof.
  unfold planMain. destruct (String.eqb_spec mainName "") as [->|Hne]; simpl.
  - split; [done|]. by intros H.
  - case_bool_decide; simpl; set_solver.
Qed.

Lemma planSecondary_given f ignoredTypes info itemName (p : Plan) :
  p.2 ⊆ (planSecondary f ignoredTypes info itemName p).2.
Proof.
  unfold planSecondary. destruct (_ && _); [|done].
  destruct (negb _); [|done]. apply planItem_given.
Qed.

Lemma generated_main_named info variant inner :
  Name info <> "" ->
  (generateAnnotationNameWithContext info variant inner).1 <> "".
Proof.
  intros Hn Hempty.
  destruct (generated_suffixes info variant inner Hn) as [[H|[_ H]] _];
    by rewrite Hempty in H.
Qed.

Lemma annotateSpec_given h f variant ignoredTypes inner (p : Plan) ts :
  p.2 ⊆ (annotateSpec h f variant ignoredTypes inner p ts).2
  /\ (eligible h ignoredTypes ts = true ->
      (generateAnnotationNameWithContext (extractTypeInfo ts) variant inner).1
      ∈ (annotateSpec h f variant ignoredTypes inner p ts).2).
Proof.
  unfold annotateSpec, eligible.
  destruct (IsExported h (ast.Name ts)); simpl; [|done].
  case_bool_decide; simpl; [done|].
  destruct (String.eqb_spec (Name (extractTypeInfo ts)) "") as [Hn|Hn];
    simpl; [done|].
  pose proof (generated_main_named (extractTypeInfo ts) variant inner Hn)
    as Hmain.
  destruct (generateAnnotationNameWithContext _ _ _) as [mainName itemName].
  simpl in *.
  destruct (planMain_given ts mainName p) as [Hsub Hin].
  pose proof (planSecondary_given f ignoredTypes (extractTypeInfo ts)
                itemName (planMain ts mainName p)) as Hsec.
  split; [set_solver|]. intros _. apply Hsec. by apply Hin.
Qed.

Lemma addAnnotations_given h f variant ignoredTypes inner ts :
  ts ∈ ast.Decls f -> eligible h ignoredTypes ts = true ->
  (generateAnnotationNameWithContext (extractTypeInfo ts) variant inner).1
  ∈ (addAnnotations h f variant ignoredTypes inner (∅, ∅)).2.
Proof.
  unfold addAnnotations. generalize ((∅, ∅) : Plan).
  induction (ast.Decls f) as [|x decls IH]; intros p Hin Hel.
  - by apply elem_of_nil in Hin.
  - simpl. apply elem_of_cons in Hin as [->|Hin]; [|by apply IH].
    destruct (annotateSpec_given h f variant ignoredTypes inner p x)
      as [_ Hx].
    specialize (Hx Hel). revert Hx.
    generalize (annotateSpec h f variant ignoredTypes inner p x).
    intros q Hq.
    apply (foldl_invariant
             (fun q : Plan =>
                (generateAnnotationNameWithContext (extractTypeInfo x)
                   variant inner).1 ∈ q.2)); [done|].
    intros q' y _ Hq'.
    by apply (annotateSpec_given h f variant ignoredTypes inner q' y).
Qed.

(** A shape that is not empty keeps the declared name. *)
Lemma shape_named ts :
  excludedShape ts = false -> Name (extractTypeInfo ts) = ast.Name ts.
Proof.
  unfold excludedShape, extractTypeInfo.
  destruct (ast.Type_ ts) as [ident|X Index| |]; try done.
  - intros H. unfold handleIdentType. by rewrite H.
  - intros _. by destruct X.
Qed.

Lemma eligible_intro h ignoredTypes ts :
  IsExported h (ast.Name ts) = true -> ast.Name ts ∉ ignoredTypes ->
  excludedShape ts = false -> eligible h ignoredTypes ts = true.
Proof.
  intros He Hi Hs. unfold eligible.
  rewrite He, bool_decide_eq_false_2, (shape_named _ Hs) by done. simpl.
  apply negb_true_iff. destruct (String.eqb_spec (ast.Name ts) ""); [|done].
  by apply IsExported_nonempty in He.
Qed.

(** X14: the marker is looked for around the line of the declared name
    only.  A marker that stands two lines or more away from that line, as
    it does after the closing brace of a declaration of three lines or
    more, is not seen: the declaration is not ignored, and when it is
    exported and of a shape that is not empty its primary name is given. *)
Theorem far_marker_unseen (h : Host) (f : ast.File) (lines : list string)
    (variant : string) (ts : ast.TypeSpec) :
  ts ∈ ast.Decls f ->
  (forall ts', ts' ∈ ast.Decls f -> ast.Name ts' = ast.Name ts -> ts' = ts) ->
  ast.Doc ts = None ->
  (forall line, lines !! Z.to_nat (ast.PosLine ts - 1) = Some line ->
                Contains line ignoreMarker = false) ->
  (forall group c,
      group ∈ ast.Comments f -> c ∈ group ->
      Contains (ast.Text c) ignoreMarker = true ->
      ast.PosLine ts + 2 <= ast.Line c \/ ast.Line c <= ast.PosLine ts - 2) ->
  (ast.Name ts ∉ ignoredOf h f lines)
  /\ (IsExported h (ast.Name ts) = true -> excludedShape ts = false ->
      (generateAnnotationNameWithContext (extractTypeInfo ts) variant
         (innerTypesOf h f lines)).1
      ∈ (planOf h f lines variant).2).
Proof.
  intros Hin Huniq Hdoc Hline Hfar.
  assert (Hnot : ast.Name ts ∉ ignoredOf h f lines).
  { intros Hign. unfold ignoredOf in Hign.
    apply elem_of_findIgnoredTypes in Hign
      as [Hign|(ts' & Hin' & Hm & Hname)];
      [by apply not_elem_of_empty in Hign|].
    apply andb_true_iff in Hm as [_ Hm].
    rewrite (Huniq ts' Hin' Hname) in Hm.
    apply isMarked_spec in Hm
      as [(g & c & Hd & _)|[(line & _ & Hl & Hc)
                           |(g & c & Hg & Hc & Ht & Hnear)]].
    - by rewrite Hdoc in Hd.
    - by rewrite (Hline line Hl) in Hc.
    - destruct (Hfar g c Hg Hc Ht); lia. }
  split; [done|]. intros He Hs. unfold planOf.
  apply addAnnotations_given; [done|]. by apply eligible_intro.
Qed.

Lemma far_marker_unseen_witness :
  let lines := Split Sample2.namerText newline in
  ("VehiclePricingSearchNamer"
     ∉ ignoredOf Sample.host Sample2.namerFile lines)
  /\ "VehiclePricingSearchNamerRes"
     ∈ (planOf Sample.host Sample2.namerFile lines "response").2.
Proof.
  cbv zeta.
  destruct (far_marker_unseen Sample.host Sample2.namerFile
              (Split Sample2.namerText newline) "response"
              (Sample.structSpec "VehiclePricingSearchNamer" 3 5))
    as [Hnot Hgiven].
  - left.
  - intros ts' Hin _. by apply list_elem_of_singleton in Hin.
  - reflexivity.
  - intros line Hl. vm_compute in Hl. injection Hl as <-. reflexivity.
  - intros g c Hg Hc _.
    apply list_elem_of_singleton in Hg as ->.
    apply list_elem_of_singleton in Hc as ->. simpl. lia.
  - split; [exact Hnot|]. apply Hgiven; reflexivity.
Defined.

(** ** The project prefix *)

(** X15: when the repository variable reads [<owner>/<name>], with one
    slash, the project is [<name>] without a leading [omp-], whatever the
    working directory; a name that does not start with [omp-] is the
    project as it is, and the prefix is removed once. *)
Theorem project_from_repository (h : Host) (owner name : string) :
  os_Getenv h projectEnvVar = owner +:+ "/" +:+ name ->
  hasByte "/" owner = false ->
  hasByte "/" name = false ->
  getProjectPrefix h = getProjectName name
  /\ (forall rest, name = "omp-" +:+ rest -> getProjectName name = rest)
  /\ (HasPrefix name "omp-" = false -> getProjectName name = name).
Proof.
  intros Henv Howner Hname. split; [|split].
  - unfold getProjectPrefix. rewrite Henv.
    destruct (String.eqb_spec (owner +:+ "/" +:+ name) "") as [Hempty|_].
    { apply (f_equal String.length) in Hempty.
      rewrite length_app in Hempty. simpl in Hempty. lia. }
    change (owner +:+ "/" +:+ name) with (owner +:+ String "/" name).
    by rewrite (Split_app_noSep _ _ _ Howner), (Split_noSep_whole _ _ Hname).
  - intros rest ->. unfold getProjectName, TrimPrefix, projectPrefix.
    rewrite HasPrefix_app. apply (drop_app "omp-").
  - intros Hno. unfold getProjectName, TrimPrefix, projectPrefix.
    by rewrite Hno.
Qed.

Lemma project_from_repository_witness :
  getProjectPrefix Sample2.ciHost = getProjectName "omp-rental"
  /\ (forall rest, "omp-rental" = "omp-" +:+ rest ->
                   getProjectName "omp-rental" = rest)
  /\ (HasPrefix "omp-rental" "omp-" = false ->
      getProjectName "omp-rental" = "omp-rental").
Proof.
  apply (project_from_repository Sample2.ciHost "welblaud" "omp-rental");
    reflexivity.
Defined.

(** ** The command *)

(** X16: the check mode is no dry run: it runs [Run] as the annotate mode
    does and leaves the same files behind.  The exit code is 1 exactly
    when [Run] returns an error, in either mode; in check mode it is 2
    exactly when [Run] succeeds and git reports changes, whoever made
    them.  Any other mode exits with 1 and touches nothing. *)
Theorem check_mode_rewrites_files (h : Host) (gitStatus : World -> string)
    (w : World) :
  let annotate := main h gitStatus "annotate" w in
  let check := main h gitStatus "check" w in
  annotate.1.1 = (Run h w).1
  /\ check.1.1 = (Run h w).1
  /\ (annotate.1.2 = 1%nat <-> (Run h w).2 <> None)
  /\ (annotate.1.2 = 0%nat <-> (Run h w).2 = None)
  /\ (check.1.2 = 1%nat <-> (Run h w).2 <> None)
  /\ (check.1.2 = 2%nat
      <-> (Run h w).2 = None /\ gitStatus (Run h w).1 <> "")
  /\ (check.1.2 = 0%nat
      <-> (Run h w).2 = None /\ gitStatus (Run h w).1 = "")
  /\ (forall mode,
        mode <> "annotate" -> mode <> "check" ->
        main h gitStatus mode w
        = (w, 1%nat, ["invalid mode: " +:+ mode +:+ String newline ""])).
Proof.
  cbv zeta.
  assert (Hother : forall mode,
            mode <> "annotate" -> mode <> "check" ->
            main h gitStatus mode w
            = (w, 1%nat, ["invalid mode: " +:+ mode +:+ String newline ""])).
  { intros mode Ha Hc. unfold main.
    destruct (String.eqb_spec mode "annotate"); [done|].
    by destruct (String.eqb_spec mode "check"). }
  repeat match goal with |- _ /\ _ => split end; try exact Hother;
    unfold main; simpl; destruct (Run h w) as [w' [e|]]; simpl;
    try destruct (gitStatus w'); simpl; intuition congruence.
Qed.

(** ** A file that fails *)

(** X17: what a failing file leaves behind.  Every other file is as it
    was, and so are the counter of files and the errors.  When the read or
    the parse fails nothing is written at all and the counters are as they
    were.  When the write fails, the file itself is as it was only if the
    failure came at the open; after that [os.WriteFile] has emptied the
    file, which then holds a leading part of the patched text, possibly
    none of it: the declarations past that point are lost.  The annotation
    counters have grown in that case: they count the lines the patcher has
    changed in memory.  The error says which of the three steps failed. *)
Theorem failed_file_outcome (h : Host) (filename prefix variant : string)
    (w w' : World) (result r' : ProcessingResult) (e : error) :
  processFile h filename prefix variant w result = (w', r', Some e) ->
  (forall path, path <> filename -> files w' !! path = files w !! path)
  /\ FilesProcessed r' = FilesProcessed result
  /\ Errors r' = Errors result
  /\ (HasPrefix e "reading file: " = true /\ w' = w /\ r' = result
      \/ HasPrefix e "parsing file: " = true /\ w' = w /\ r' = result
      \/ HasPrefix e "writing file: writing to file: " = true
         /\ (AnnotationsAdded result + AnnotationsReplaced result
             < AnnotationsAdded r' + AnnotationsReplaced r')%nat
         /\ exists src f,
              ReadFile h w filename = Ok src
              /\ parser_ParseFile h filename src = Ok f
              /\ let patched :=
                   Join (applyAnnotations (Split src newline)
                           (planOf h f (Split src newline) variant).1
                           prefix result).1.1 (String newline "") in
                 (w' = w
                  \/ exists n,
                       w' = {| files := <[filename := take n patched]>
                                          (files w);
                               written := written w ++ [filename] |})).
Proof.
  intros Hrun.
  destruct (ReadFile h w filename) as [src|e1] eqn:Hread.
  2:{ unfold processFile in Hrun. rewrite Hread in Hrun.
      injection Hrun as <- <- <-. repeat split; try done.
      left. split; [apply HasPrefix_app|done]. }
  destruct (parser_ParseFile h filename src) as [f|e1] eqn:Hparse.
  2:{ unfold processFile in Hrun. rewrite Hread, Hparse in Hrun.
      injection Hrun as <- <- <-. repeat split; try done.
      right. left. split; [apply HasPrefix_app|done]. }
  rewrite (processFile_parsed _ _ _ _ _ _ _ _ Hread Hparse) in Hrun.
  cbv zeta in Hrun.
  destruct (patcher_counters (Split src newline)
              (planOf h f (Split src newline) variant).1 prefix result)
    as (Hf & He & Ha & Hr & Hsum & _).
  destruct (applyAnnotations _ _ _ _) as [[lines' n] r1] eqn:Hout.
  simpl in *.
  destruct (Nat.ltb_spec 0 n) as [Hn|Hn]; [|done].
  unfold writeFile, WriteFile in Hrun.
  destruct (WriteFail h filename) as [[e1 [k|]]|]; [| |done];
    injection Hrun as <- <- <-.
  - split.
    { intros path Hne. simpl. by apply lookup_insert_ne. }
    split; [done|]. split; [done|]. right. right.
    split; [apply (HasPrefix_app "writing file: writing to file: ")|].
    split; [lia|]. exists src, f. split; [done|]. split; [done|].
    right. exists k. by rewrite Hout.
  - split; [done|]. split; [done|]. split; [done|]. right. right.
    split; [apply (HasPrefix_app "writing file: writing to file: ")|].
    split; [lia|]. exists src, f. split; [done|]. split; [done|]. by left.
Qed.

(** On a full disk the write of [widget.go] stops after sixteen bytes:
    the file is left with its package clause only, the file next to it
    is as it was. *)
Lemma failed_file_outcome_witness :
  let w' := (processFile Sample2.fullDiskHost Sample.flatPath
               "proj.widget.go." "response" Sample.treeWorld newResult).1.1 in
  files w' !! Sample.flatPath = Some "package response"
  /\ files w' !! Sample.fooPath = files Sample.treeWorld !! Sample.fooPath.
Proof.
  cbv zeta.
  destruct (processFile Sample2.fullDiskHost Sample.flatPath
              "proj.widget.go." "response" Sample.treeWorld newResult)
    as [[w' r'] e] eqn:Hrun.
  assert (He : e = Some ("writing file: writing to file: write "
                         +:+ Sample.flatPath
                         +:+ ": no space left on device")).
  { vm_compute in Hrun. injection Hrun as _ _ <-. reflexivity. }
  subst e.
  destruct (failed_file_outcome Sample2.fullDiskHost Sample.flatPath
              "proj.widget.go." "response" Sample.treeWorld w' newResult r'
              _ Hrun) as (Hframe & _).
  split.
  - vm_compute in Hrun. injection Hrun as <- _. vm_compute. reflexivity.
  - apply Hframe. vm_compute. discriminate.
Defined.
